(** * Frontend analysis engine: a shallow embedding of the analyzers

    The development follows the TypeScript sources of the analysis engine:
    the variable tracker, the function analyzer, the component analyzer,
    the flow diagram generator and the project analyzer.  The syntax tree
    is the one produced by the Babel parser; its nodes are untyped objects
    in the source ([node: any]), and they are modelled here in the same
    way: a node has a [type] tag, a source position, scalar properties and
    child nodes stored under property names. *)

From stdpp Require Import base strings list gmap pretty.

Set Warnings "-register-all".
Set Default Proof Using "Type".

(** ** JavaScript values and exceptions *)

(** Scalars found in node properties ([name], [operator], [kind], [value]).
    The analyzers only copy, test and print numbers.  [VNum n] is a number
    that JavaScript prints as a plain integer: an integer of magnitude
    below [10^21].  Every other number (a fraction, or a magnitude of
    [10^21] and more, which is printed with an exponent) is [VDouble shown],
    given by the text [String(x)] returns for it; such a number is not
    zero, and no literal has the value [NaN]. *)
Inductive JsValue :=
| VUndefined
| VNull
| VBool (b : bool)
| VNum (n : Z)
| VDouble (shown : string)
| VStr (s : string).

#[global] Instance JsValue_eq_dec : EqDecision JsValue.
Proof. solve_decision. Defined.

(** Truthiness, as used by [a || b] and [if (x)]. *)
Definition truthy (v : JsValue) : bool :=
  match v with
  | VUndefined | VNull => false
  | VBool b => b
  | VNum n => negb (n =? 0)%Z
  | VDouble _ => true
  | VStr s => negb (String.eqb s "")
  end.

(** [a || b] *)
Definition js_or (a b : JsValue) : JsValue := if truthy a then a else b.

(** String conversion, as performed by template literals. *)
Definition to_string (v : JsValue) : string :=
  match v with
  | VUndefined => "undefined"
  | VNull => "null"
  | VBool true => "true"
  | VBool false => "false"
  | VNum n => pretty n
  | VDouble shown => shown
  | VStr s => s
  end.

(** [object[key] = value] on an object literal used as a table: the key
    [__proto__] names the accessor that every object inherits, and
    assigning to it adds no entry (a string or [undefined] is ignored, an
    object replaces the prototype). *)
Definition setOwn {A} (key : string) (value : A) (table : gmap string A)
  : gmap string A :=
  if String.eqb key "__proto__" then table else <[key := value]> table.

(** A computation that may throw. *)
Inductive Exn :=
| Error (message : string)          (* an [Error] of the language or of a
                                       library, a [TypeError] included *)
| ParseError (message : string).    (* the repository's [ParseError] *)

#[global] Instance Exn_eq_dec : EqDecision Exn.
Proof. solve_decision. Defined.

Inductive Result (A : Type) :=
| Ok (a : A)
| Throw (e : Exn).
Arguments Ok {A} a.
Arguments Throw {A} e.

Definition bind {A B} (r : Result A) (k : A -> Result B) : Result B :=
  match r with
  | Ok a => k a
  | Throw e => Throw e
  end.

Notation "x <- r ;; k" := (bind r (fun x => k))
  (at level 100, r at next level, right associativity).

(** ** The syntax tree of the Babel parser *)

Module Babel.

(** [loc.start] of a node. *)
Record Position := mkPos { line : nat; column : nat }.

#[global] Instance Position_eq_dec : EqDecision Position.
Proof. solve_decision. Defined.

(** A node: [kids] holds the child nodes in the order in which they are
    traversed, each under its property name; the elements of an
    array-valued property ([body] of a block, [cases] of a switch) are
    consecutive entries with the same name.  A property that is [null]
    or absent has no entry; a [null] among the elements of an array is
    the node [hole] below. *)
Inductive Node : Type :=
  mkNode {
    type : string;
    loc : option Position;
    attrs : list (string * JsValue);
    kids : list (string * Node)
  }.

(** [null] among the elements of an array-valued property: the hole of
    an array pattern or of an array expression, as in [[, x]].  It counts
    as an element; no type test accepts it and no visitor is registered
    for it, so that the traversals, which skip it, and a visit of it
    have the same effect. *)
Definition hole : Node := mkNode "" None [] [].

(** [node.loc?.start.line || 0] and [node.loc?.start.column || 0] *)
Definition start_line (n : Node) : nat :=
  match loc n with Some p => line p | None => 0 end.
Definition start_column (n : Node) : nat :=
  match loc n with Some p => column p | None => 0 end.

(** A scalar property, [undefined] when absent. *)
Fixpoint lookup_attr (k : string) (l : list (string * JsValue)) : JsValue :=
  match l with
  | [] => VUndefined
  | (k', v) :: r => if String.eqb k k' then v else lookup_attr k r
  end.
Definition attr (k : string) (n : Node) : JsValue := lookup_attr k (attrs n).

(** [node.name], for nodes whose [name] is a string. *)
Definition name_of (n : Node) : string := to_string (attr "name" n).

(** A node-valued property, [None] for [null] or [undefined]. *)
Fixpoint lookup_kid (k : string) (l : list (string * Node)) : option Node :=
  match l with
  | [] => None
  | (k', c) :: r => if String.eqb k k' then Some c else lookup_kid k r
  end.
Definition get (k : string) (n : Node) : option Node := lookup_kid k (kids n).

(** An array-valued property. *)
Fixpoint lookup_kids (k : string) (l : list (string * Node)) : list Node :=
  match l with
  | [] => []
  | (k', c) :: r =>
      if String.eqb k k' then c :: lookup_kids k r else lookup_kids k r
  end.
Definition get_all (k : string) (n : Node) : list Node := lookup_kids k (kids n).

(** The same accesses in a form that recursive walkers can use: the
    function is applied to the children themselves. *)
Definition sum_over (f : Node -> nat) (k : string) : list (string * Node) -> nat :=
  fix go l :=
    match l with
    | [] => 0
    | (k', c) :: r => (if String.eqb k k' then f c else 0) + go r
    end.

Definition at_child (f : Node -> nat) (k : string) : list (string * Node) -> nat :=
  fix go l :=
    match l with
    | [] => 0
    | (k', c) :: r => if String.eqb k k' then f c else go r
    end.

Definition flat_kids {A} (f : Node -> list A) : list (string * Node) -> list A :=
  fix go l :=
    match l with
    | [] => []
    | (_, c) :: r => f c ++ go r
    end.

(** [t.isX(node)]: false on [null] and [undefined]. *)
Definition is_a (ty : string) (x : option Node) : bool :=
  match x with
  | Some n => String.eqb (type n) ty
  | None => false
  end.

Definition is_one_of (tys : list string) (x : option Node) : bool :=
  existsb (fun ty => is_a ty x) tys.

Definition isProgram := is_a "Program".
Definition isIdentifier := is_a "Identifier".
Definition isObjectPattern := is_a "ObjectPattern".
Definition isArrayPattern := is_a "ArrayPattern".
Definition isBlockStatement := is_a "BlockStatement".
Definition isReturnStatement := is_a "ReturnStatement".
Definition isIfStatement := is_a "IfStatement".
Definition isConditionalExpression := is_a "ConditionalExpression".
Definition isSwitchStatement := is_a "SwitchStatement".
Definition isSwitchCase := is_a "SwitchCase".
Definition isForStatement := is_a "ForStatement".
Definition isForInStatement := is_a "ForInStatement".
Definition isForOfStatement := is_a "ForOfStatement".
Definition isWhileStatement := is_a "WhileStatement".
Definition isDoWhileStatement := is_a "DoWhileStatement".
Definition isCatchClause := is_a "CatchClause".
Definition isLogicalExpression := is_a "LogicalExpression".
Definition isVariableDeclaration := is_a "VariableDeclaration".
Definition isVariableDeclarator := is_a "VariableDeclarator".
Definition isFunctionDeclaration := is_a "FunctionDeclaration".
Definition isFunctionExpression := is_a "FunctionExpression".
Definition isArrowFunctionExpression := is_a "ArrowFunctionExpression".
Definition isClassDeclaration := is_a "ClassDeclaration".
Definition isClassExpression := is_a "ClassExpression".
Definition isClassMethod := is_a "ClassMethod".
Definition isClassPrivateMethod := is_a "ClassPrivateMethod".
Definition isAssignmentExpression := is_a "AssignmentExpression".
Definition isCallExpression := is_a "CallExpression".
Definition isMemberExpression := is_a "MemberExpression".
Definition isArrayExpression := is_a "ArrayExpression".
Definition isObjectExpression := is_a "ObjectExpression".
Definition isStringLiteral := is_a "StringLiteral".
Definition isNumericLiteral := is_a "NumericLiteral".
Definition isBooleanLiteral := is_a "BooleanLiteral".
Definition isJSXIdentifier := is_a "JSXIdentifier".
Definition isExportNamedDeclaration := is_a "ExportNamedDeclaration".
Definition isExportDefaultDeclaration := is_a "ExportDefaultDeclaration".

(** The aliases [Literal] and [Function] of the Babel type definitions. *)
Definition isLiteral :=
  is_one_of ["StringLiteral"; "NumericLiteral"; "NullLiteral"; "BooleanLiteral";
             "RegExpLiteral"; "TemplateLiteral"; "BigIntLiteral"; "DecimalLiteral"].
Definition isFunction :=
  is_one_of ["FunctionDeclaration"; "FunctionExpression"; "ObjectMethod";
             "ArrowFunctionExpression"; "ClassMethod"; "ClassPrivateMethod"].

(** *** Paths

    A path of the traversal library: [path.node] is the node,
    [path.parent] is the parent _node_ and [path.parentPath] is the path
    of the parent. *)
Inductive NodePath : Type :=
  mkPath {
    node : Node;
    parent : option Node;
    parentPath : option NodePath
  }.

(** [path.getFunctionParent()]: the closest strict ancestor path whose
    node is a function. *)
Fixpoint findFunctionFrom (p : NodePath) : option NodePath :=
  match p with
  | mkPath n _ pp =>
      if isFunction (Some n) then Some p
      else match pp with
           | Some q => findFunctionFrom q
           | None => None
           end
  end.
Definition getFunctionParent (p : NodePath) : option NodePath :=
  match parentPath p with
  | Some q => findFunctionFrom q
  | None => None
  end.

(** *** Dynamic references

    The analyzers keep a variable [currentPath] that starts as a path or
    as [path.parent] and is then replaced by [currentPath.parent].  Since
    [path.parent] is a node, the variable holds a path at first and a
    node afterwards; the properties read from it depend on which. *)
Inductive Ref :=
| RPath (p : NodePath)
| RNode (n : Node).

(** [x.node]: a path has one, a syntax node has no such property. *)
Definition dot_node (x : Ref) : option Node :=
  match x with
  | RPath p => Some (node p)
  | RNode _ => None
  end.

(** [x.parent]: the parent node of a path; a syntax node has no such
    property. *)
Definition dot_parent (x : Ref) : option Ref :=
  match x with
  | RPath p => RNode <$> parent p
  | RNode _ => None
  end.

(** [x.type]: both paths and nodes carry the type tag of the node, so
    [t.isX(x)] answers for both. *)
Definition as_node (x : Ref) : Node :=
  match x with
  | RPath p => node p
  | RNode n => n
  end.

(** [while (x) { if (test x) return ...; x = x.parent }]: the loop
    [climb test x] returns the first result found.  A path is followed by
    its parent node and a node by nothing, so the recursion is on that
    chain. *)
Definition climb {A} (test : Ref -> option A) (start : option Ref) : option A :=
  match start with
  | None => None
  | Some x =>
      match test x with
      | Some a => Some a
      | None =>
          match x with
          | RPath p =>
              match parent p with
              | Some n => test (RNode n)
              | None => None
              end
          | RNode _ => None
          end
      end
  end.

(** *** Traversal

    [traverse(root, visitors)] walks the descendants of [root] in
    pre-order, children in the order of [kids], and calls the visitor
    registered for the type of each node with the node's path.  The
    paths of the children of the root have no parent path.  Called
    without a scope, the library accepts only a [File] or a [Program] as
    the root and throws on any other node.

    The analyzers are handed the [File] that the parser returns.  For a
    bare [Program] the library has no path of the root: its scope
    analysis may then fail at a function, a class or a block below the
    root, which depends on the library and is not modelled.  The
    definition gives the outcome of the check of the root; no statement
    below asserts that a traversal of a bare [Program] returns. *)
Fixpoint visit (pp : option NodePath) (par : option Node) (n : Node) {struct n}
  : list NodePath :=
  let p := mkPath n par pp in
  p :: flat_kids (visit (Some p) (Some n)) (kids n).

Definition descendants (root : Node) : list NodePath :=
  flat_kids (visit None (Some root)) (kids root).

Definition traverse (root : Node) : Result (list NodePath) :=
  if String.eqb (type root) "Program" || String.eqb (type root) "File"
  then Ok (descendants root)
  else Throw (Error ("You must pass a scope and parentPath unless traversing a Program/File. Instead of that you tried to traverse a "
                     +:+ type root +:+ " node without passing scope and parentPath.")).

(** Running a visitor that updates a state over the visited paths. *)
Definition run {S} (visitor : NodePath -> S -> S) (paths : list NodePath) (s : S) : S :=
  fold_left (fun s p => visitor p s) paths s.

(** The same for a visitor that may throw. *)
Fixpoint run_throwing {S} (visitor : NodePath -> S -> Result S)
    (paths : list NodePath) (s : S) : Result S :=
  match paths with
  | [] => Ok s
  | p :: rest => s' <- visitor p s ;; run_throwing visitor rest s'
  end.

End Babel.

(** ** The metrics of the specification

    The counting rule as the specification words it: one decision point
    for each [if], conditional expression, [switch], loop, [catch] clause
    and short-circuit operator found anywhere in the subtree. *)

Module Spec.
Import Babel.

Definition isDecisionPoint (n : Node) : bool :=
  is_one_of ["IfStatement"; "ConditionalExpression"; "SwitchStatement";
             "ForStatement"; "ForInStatement"; "ForOfStatement";
             "WhileStatement"; "DoWhileStatement"; "CatchClause"] (Some n)
  || (isLogicalExpression (Some n)
      && (bool_decide (attr "operator" n = VStr "&&")
          || bool_decide (attr "operator" n = VStr "||"))).

Definition sum_kids (f : Node -> nat) : list (string * Node) -> nat :=
  fix go l :=
    match l with
    | [] => 0
    | (_, c) :: r => f c + go r
    end.

Fixpoint decisionPointCount (n : Node) : nat :=
  (if isDecisionPoint n then 1 else 0) + sum_kids decisionPointCount (kids n).

Definition complexity (n : Node) : nat := 1 + decisionPointCount n.

End Spec.

(** ** FunctionAnalyzer *)

Module FunctionAnalyzer.
Import Babel.

(** [findComplexityNodes(node, callback)]: the result is the number of
    times the callback is invoked. *)
Fixpoint findComplexityNodes (node : Node) : nat :=
  let n := Some node in
  (if isIfStatement n || isConditionalExpression n || isSwitchStatement n then 1
   else if isForStatement n || isForInStatement n || isForOfStatement n
           || isWhileStatement n || isDoWhileStatement n then 1
   else if isCatchClause n then 1
   else if isLogicalExpression n
           && (bool_decide (attr "operator" node = VStr "&&")
               || bool_decide (attr "operator" node = VStr "||")) then 1
   else 0)
  +
  (if isBlockStatement n then
     sum_over findComplexityNodes "body" (kids node)
   else if isIfStatement n then
     at_child findComplexityNodes "consequent" (kids node)
     + at_child findComplexityNodes "alternate" (kids node)
   else if isForStatement n || isWhileStatement n || isDoWhileStatement n then
     at_child findComplexityNodes "body" (kids node)
   else if isSwitchStatement n then
     sum_over findComplexityNodes "cases" (kids node)
   else 0).

(** [let complexity = 1; findComplexityNodes(node, () => complexity++)] *)
Definition calculateComplexity (node : Node) : nat :=
  1 + findComplexityNodes node.

End FunctionAnalyzer.

(** ** VariableTracker *)

Module VariableTracker.
Import Babel.

Inductive VariableScope :=
| scope_global | scope_module | scope_function | scope_block
| scope_class | scope_interface.

Inductive DeclarationType :=
| decl_var | decl_let | decl_const | decl_function | decl_class | decl_arrow.

Inductive UsageType :=
| usage_declaration | usage_assignment | usage_read | usage_function_call
| usage_property_access | usage_array_access | usage_conditional
| usage_loop | usage_return | usage_other.

#[global] Instance VariableScope_eq_dec : EqDecision VariableScope.
Proof. solve_decision. Defined.
#[global] Instance DeclarationType_eq_dec : EqDecision DeclarationType.
Proof. solve_decision. Defined.
#[global] Instance UsageType_eq_dec : EqDecision UsageType.
Proof. solve_decision. Defined.

Record VariableUsage := mkUsage {
  usageType : UsageType;                 (* [type] *)
  location : Position;
  context : string;
  isAssignmentFacet : bool;              (* [isAssignment] *)
  isReadFacet : bool;                    (* [isRead] *)
  isFunctionCallFacet : bool;            (* [isFunctionCall] *)
  isPropertyAccessFacet : bool;          (* [isPropertyAccess] *)
  isArrayAccessFacet : bool;             (* [isArrayAccess] *)
  isConditionalFacet : bool;             (* [isConditional] *)
  isLoopVariableFacet : bool;            (* [isLoopVariable] *)
  frequency : string
}.

Record VariableInfo := mkInfo {
  name : string;
  varType : string;                      (* [type] *)
  scope : VariableScope;
  declarationType : DeclarationType;
  usage : list VariableUsage;
  dependencies : list string;
  isExportedFlag : bool;                 (* [isExported] *)
  isImportedFlag : bool;                 (* [isImported] *)
  declLine : nat;                        (* [line] *)
  declColumn : nat;                      (* [column] *)
  value : JsValue;
  isOptional : bool;
  isReadonly : bool;
  isPrivateFlag : bool;                  (* [isPrivate] *)
  isStatic : bool;
  complexity : nat;
  usageCount : nat;
  lastUsedAt : option Position
}.

(** [getVariableName] *)
Definition getVariableName (node : Node) : string :=
  if isIdentifier (get "id" node) then
    match get "id" node with Some i => name_of i | None => "unknown" end
  else if isObjectPattern (get "id" node) then "destructured"
  else if isArrayPattern (get "id" node) then "destructured"
  else "unknown".

(** [inferVariableType] *)
Definition inferVariableType (node : Node) : string :=
  if isFunctionDeclaration (Some node) || isArrowFunctionExpression (Some node) then
    "function"
  else if isClassDeclaration (Some node) then "class"
  else
    let init := get "init" node in
    if isStringLiteral init then "string"
    else if isNumericLiteral init then "number"
    else if isBooleanLiteral init then "boolean"
    else if isArrayExpression init then "array"
    else if isObjectExpression init then "object"
    else if isFunctionExpression init || isArrowFunctionExpression init then "function"
    else "any".

(** [determineScope]: the loop starts at the path itself and continues
    with [currentPath.parent]. *)
Definition determineScope (path : NodePath) : VariableScope :=
  let functionParent := getFunctionParent path in
  let inClass :=
    climb (fun currentPath =>
             match dot_node currentPath with
             | Some n =>
                 if isClassMethod (Some n) || isClassPrivateMethod (Some n) then
                   Some scope_class
                 else if isClassDeclaration (Some n) || isClassExpression (Some n) then
                   Some scope_class
                 else None
             | None => None
             end)
          (Some (RPath path)) in
  match inClass with
  | Some s => s
  | None =>
      match functionParent with
      | Some _ => scope_function
      | None => scope_module
      end
  end.

(** [getDeclarationType(node, type)]; [node.__path] is the path that
    [analyzeVariables] has just attached to the node. *)
Definition getDeclarationType (path : NodePath) (ty : string) : DeclarationType :=
  let node := node path in
  if String.eqb ty "function" then decl_function
  else if String.eqb ty "class" then decl_class
  else if String.eqb ty "arrow" then decl_arrow
  else if isVariableDeclarator (Some node) then
    if isArrowFunctionExpression (get "init" node) then decl_arrow
    else if isVariableDeclaration (parent path) then
      match parent path with
      | Some d =>
          if bool_decide (attr "kind" d = VStr "var") then decl_var
          else if bool_decide (attr "kind" d = VStr "let") then decl_let
          else if bool_decide (attr "kind" d = VStr "const") then decl_const
          else decl_var
      | None => decl_var
      end
    else decl_var
  else decl_var.

(** [isExported]: the loop starts at [path.parent]. *)
Definition isExported (path : NodePath) : bool :=
  match climb (fun currentPath =>
                 if isExportNamedDeclaration (dot_node currentPath)
                    || isExportDefaultDeclaration (dot_node currentPath)
                 then Some true else None)
              (RNode <$> parent path) with
  | Some b => b
  | None => false
  end.

Definition isImported (path : NodePath) : bool := false.

(** [extractValue] *)
Definition extractValue (node : Node) : JsValue :=
  if isVariableDeclarator (Some node) then
    match get "init" node with
    | Some init => if isLiteral (Some init) then attr "value" init else VUndefined
    | None => VUndefined
    end
  else VUndefined.

(** [name.startsWith('_')] *)
Definition isPrivate (name : string) : bool := String.prefix "_" name.

(** [findConditionalNodes], counting the invocations of the callback. *)
Fixpoint findConditionalNodes (node : Node) : nat :=
  let n := Some node in
  (if isIfStatement n || isConditionalExpression n || isSwitchStatement n
   then 1 else 0)
  +
  (if isBlockStatement n then
     sum_over findConditionalNodes "body" (kids node)
   else if isIfStatement n then
     at_child findConditionalNodes "consequent" (kids node)
     + at_child findConditionalNodes "alternate" (kids node)
   else if isForStatement n || isWhileStatement n || isDoWhileStatement n then
     at_child findConditionalNodes "body" (kids node)
   else if isSwitchStatement n then
     sum_over findConditionalNodes "cases" (kids node)
   else if isFunctionDeclaration n || isFunctionExpression n
           || isArrowFunctionExpression n then
     at_child findConditionalNodes "body" (kids node)
   else 0).

Definition countConditions (node : Node) : nat := findConditionalNodes node.

(** [findLoopNodes] *)
Fixpoint findLoopNodes (node : Node) : nat :=
  let n := Some node in
  (if isForStatement n || isForInStatement n || isForOfStatement n
      || isWhileStatement n || isDoWhileStatement n
   then 1 else 0)
  +
  (if isBlockStatement n then
     sum_over findLoopNodes "body" (kids node)
   else if isIfStatement n then
     at_child findLoopNodes "consequent" (kids node)
     + at_child findLoopNodes "alternate" (kids node)
   else if isForStatement n || isWhileStatement n || isDoWhileStatement n then
     at_child findLoopNodes "body" (kids node)
   else if isFunctionDeclaration n || isFunctionExpression n
           || isArrowFunctionExpression n then
     at_child findLoopNodes "body" (kids node)
   else 0).

Definition countLoops (node : Node) : nat := findLoopNodes node.

(** [calculateComplexity] *)
Definition calculateComplexity (node : Node) : nat :=
  if isFunctionDeclaration (Some node) || isArrowFunctionExpression (Some node) then
    1 + countConditions node + countLoops node
  else if isVariableDeclarator (Some node) then
    match get "init" node with
    | Some init => 1 + countConditions init + countLoops init
    | None => 1
    end
  else 1.

(** [createVariableInfo] *)
Definition createVariableInfo (path : NodePath) (ty : string) : VariableInfo :=
  let node := node path in
  let name := getVariableName node in
  let declarationType := getDeclarationType path ty in
  {| name := name;
     varType := inferVariableType node;
     scope := determineScope path;
     declarationType := declarationType;
     usage := [];
     dependencies := [];
     isExportedFlag := isExported path;
     isImportedFlag := isImported path;
     declLine := start_line node;
     declColumn := start_column node;
     value := extractValue node;
     isOptional := false;
     isReadonly := bool_decide (declarationType = decl_const);
     isPrivateFlag := isPrivate name;
     isStatic := false;
     complexity := calculateComplexity node;
     usageCount := 0;
     lastUsedAt := None |}.

(** [getUsageType]; [isInConditionalContext] starts its loop at
    [path.parent] and tests the reference itself. *)
Definition isInConditionalContext (path : NodePath) : bool :=
  match climb (fun currentPath =>
                 let x := Some (as_node currentPath) in
                 if isIfStatement x || isConditionalExpression x
                    || isSwitchStatement x || isSwitchCase x
                 then Some true else None)
              (RNode <$> parent path) with
  | Some b => b
  | None => false
  end.

Definition getUsageType (path : NodePath) : UsageType :=
  let p := parent path in
  if isAssignmentExpression p then usage_assignment
  else if isCallExpression p then usage_function_call
  else if isMemberExpression p then usage_property_access
  else if isArrayExpression p then usage_array_access
  else if isConditionalExpression p then usage_conditional
  else if isInConditionalContext path then usage_conditional
  else if isForStatement p || isForInStatement p || isForOfStatement p
          || isWhileStatement p || isDoWhileStatement p then usage_loop
  else usage_read.

(** [getUsageContext]: the loop starts at [path.parent] and reads
    [currentPath.node] and [currentPath.parent]. *)
Definition getUsageContext (path : NodePath) : string :=
  match climb (fun currentPath =>
                 match dot_node currentPath with
                 | Some n =>
                     if isFunctionDeclaration (Some n) && bool_decide (is_Some (get "id" n)) then
                       match get "id" n with
                       | Some i => Some ("function:" +:+ name_of i)
                       | None => None
                       end
                     else if isFunctionExpression (Some n)
                             || isArrowFunctionExpression (Some n) then
                       match as_node <$> dot_parent currentPath with
                       | Some d =>
                           if isVariableDeclarator (Some d) && isIdentifier (get "id" d) then
                             match get "id" d with
                             | Some i => Some ("function:" +:+ name_of i)
                             | None => None
                             end
                           else None
                       | None => None
                       end
                     else None
                 | None => None
                 end)
              (RNode <$> parent path) with
  | Some s => s
  | None => "global"
  end.

Definition isAssignment (path : NodePath) : bool :=
  isAssignmentExpression (parent path).

Definition isRead (path : NodePath) : bool :=
  negb (isAssignmentExpression (parent path)).

Definition isFunctionCall (path : NodePath) : bool :=
  isCallExpression (parent path).

Definition isPropertyAccess (path : NodePath) : bool :=
  isMemberExpression (parent path).

Definition isArrayAccess (path : NodePath) : bool :=
  isArrayExpression (parent path).

(** [isConditional]: the loop starts at [path.parent] and tests
    [currentPath.node]. *)
Definition isConditional (path : NodePath) : bool :=
  match climb (fun currentPath =>
                 if isIfStatement (dot_node currentPath)
                    || isConditionalExpression (dot_node currentPath)
                 then Some true else None)
              (RNode <$> parent path) with
  | Some b => b
  | None => false
  end.

(** [isLoopVariable]: the loop starts at [path.parent] and tests the
    reference itself; every branch taken inside a loop statement returns
    [true]. *)
Definition isLoopVariable (path : NodePath) : bool :=
  match climb (fun currentPath =>
                 let x := Some (as_node currentPath) in
                 if isForStatement x || isForInStatement x || isForOfStatement x
                    || isWhileStatement x || isDoWhileStatement x
                 then Some true else None)
              (RNode <$> parent path) with
  | Some b => b
  | None => false
  end.

(** The usage record built for an identifier. *)
Definition makeUsage (path : NodePath) : VariableUsage :=
  {| usageType := getUsageType path;
     location := mkPos (start_line (node path)) (start_column (node path));
     context := getUsageContext path;
     isAssignmentFacet := isAssignment path;
     isReadFacet := isRead path;
     isFunctionCallFacet := isFunctionCall path;
     isPropertyAccessFacet := isPropertyAccess path;
     isArrayAccessFacet := isArrayAccess path;
     isConditionalFacet := isConditional path;
     isLoopVariableFacet := isLoopVariable path;
     frequency := "medium" |}.

(** *** The two traversals

    The descriptors are objects shared by the array [variables] and by
    the map [variableMap]: the array is the store, and the map holds the
    index of the descriptor it refers to. *)
Record Store := mkStore {
  variables : list VariableInfo;
  variableMap : gmap string nat
}.

(** [variables.push(info); variableMap.set(info.name, info)] *)
Definition declare (info : VariableInfo) (s : Store) : Store :=
  {| variables := variables s ++ [info];
     variableMap := <[name info := length (variables s)]> (variableMap s) |}.

Definition declarationVisitor (path : NodePath) (s : Store) : Store :=
  let n := Some (node path) in
  if isVariableDeclarator n then
    if isIdentifier (get "id" (node path))
    then declare (createVariableInfo path "variable") s else s
  else if isFunctionDeclaration n then
    if bool_decide (is_Some (get "id" (node path)))
    then declare (createVariableInfo path "function") s else s
  else if isClassDeclaration n then
    if bool_decide (is_Some (get "id" (node path)))
    then declare (createVariableInfo path "class") s else s
  else if isArrowFunctionExpression n then
    if isVariableDeclarator (parent path)
       && isIdentifier (match parent path with Some d => get "id" d | None => None end)
    then declare (createVariableInfo path "arrow") s else s
  else s.

(** [variable.usage.push(usage); variable.usageCount++;
     variable.lastUsedAt = usage.location] *)
Definition addUsage (u : VariableUsage) (v : VariableInfo) : VariableInfo :=
  {| name := name v;
     varType := varType v;
     scope := scope v;
     declarationType := declarationType v;
     usage := usage v ++ [u];
     dependencies := dependencies v;
     isExportedFlag := isExportedFlag v;
     isImportedFlag := isImportedFlag v;
     declLine := declLine v;
     declColumn := declColumn v;
     value := value v;
     isOptional := isOptional v;
     isReadonly := isReadonly v;
     isPrivateFlag := isPrivateFlag v;
     isStatic := isStatic v;
     complexity := complexity v;
     usageCount := S (usageCount v);
     lastUsedAt := Some (location u) |}.

Definition usageVisitor (path : NodePath) (s : Store) : Store :=
  if isIdentifier (Some (node path)) then
    match variableMap s !! name_of (node path) with
    | Some i =>
        {| variables := alter (addUsage (makeUsage path)) i (variables s);
           variableMap := variableMap s |}
    | None => s
    end
  else s.

(** [analyzeUsage(ast, variableMap)] *)
Definition analyzeVariableUsage (ast : Node) (s : Store) : Result Store :=
  paths <- traverse ast ;;
  Ok (run usageVisitor paths s).

(** [analyzeVariables(ast, filePath)] *)
Definition analyzeVariables (ast : Node) : Result (list VariableInfo) :=
  paths <- traverse ast ;;
  let s := run declarationVisitor paths (mkStore [] ∅) in
  s' <- analyzeVariableUsage ast s ;;
  Ok (variables s').

(** *** Predicates on descriptors and stores *)

(** The usage list, its count and the last position agree. *)
Definition usageConsistent (v : VariableInfo) : Prop :=
  usageCount v = length (usage v)
  ∧ lastUsedAt v = location <$> last (usage v).

(** In every usage record [isRead] is the negation of [isAssignment]. *)
Definition facetsExclusive (v : VariableInfo) : Prop :=
  ∀ u, u ∈ usage v → isReadFacet u = negb (isAssignmentFacet u).

(** [w] is [v] after more usages have been recorded. *)
Definition grows (v w : VariableInfo) : Prop :=
  name w = name v
  ∧ declLine w = declLine v
  ∧ declColumn w = declColumn v
  ∧ usage v `prefix_of` usage w.

(** The map refers to descriptors of the array, under their names, and
    every descriptor's name is a key of the map. *)
Definition mapConsistent (s : Store) : Prop :=
  (∀ nm i, variableMap s !! nm = Some i →
           ∃ v, variables s !! i = Some v ∧ name v = nm)
  ∧ (∀ i v, variables s !! i = Some v → is_Some (variableMap s !! name v)).

End VariableTracker.

(** ** FlowDiagramGenerator *)

Module FlowDiagramGenerator.
Import Babel.

Inductive FlowNodeType :=
| t_start | t_end | t_process | t_decision | t_loop | t_function
| t_component | t_variable | t_data.

Inductive FlowEdgeType :=
| e_normal | e_conditional | e_loop | e_data | e_dependency.

Inductive DiagramType :=
| control_flow | data_flow | component_tree | dependency_graph.

#[global] Instance FlowNodeType_eq_dec : EqDecision FlowNodeType.
Proof. solve_decision. Defined.
#[global] Instance FlowEdgeType_eq_dec : EqDecision FlowEdgeType.
Proof. solve_decision. Defined.
#[global] Instance DiagramType_eq_dec : EqDecision DiagramType.
Proof. solve_decision. Defined.

Record FlowNode := mkFlowNode {
  id : string;
  label : string;
  nodeType : FlowNodeType;                       (* [type] *)
  properties : option (list (string * JsValue))
}.

Record FlowEdge := mkFlowEdge {
  from : string;
  to : string;
  edgeType : option FlowEdgeType;                (* [type] *)
  condition : option string
}.

Record Metadata := mkMetadata {
  diagramType : DiagramType;                     (* [type] *)
  title : string;
  description : string
}.

Record FlowDiagram := mkFlowDiagram {
  nodes : list FlowNode;
  edges : list FlowEdge;
  metadata : Metadata
}.

#[global] Instance FlowNode_eq_dec : EqDecision FlowNode.
Proof. solve_decision. Defined.
#[global] Instance FlowEdge_eq_dec : EqDecision FlowEdge.
Proof. solve_decision. Defined.

(** The two arrays [nodes] and [edges] that the helpers fill. *)
Record Graph := mkGraph {
  g_nodes : list FlowNode;
  g_edges : list FlowEdge
}.

(** [nodes.push(n)] and [edges.push(e)] *)
Definition pushNode (n : FlowNode) (g : Graph) : Graph :=
  {| g_nodes := g_nodes g ++ [n]; g_edges := g_edges g |}.
Definition pushEdge (e : FlowEdge) (g : Graph) : Graph :=
  {| g_nodes := g_nodes g; g_edges := g_edges g ++ [e] |}.

(** *** Control flow

    The helpers receive the counter [nodeId] as a number, that is, by
    value: what they add to it is not seen by their caller. *)

(** [analyzeIfStatement] *)
Definition analyzeIfStatement (stmt : Node) (g : Graph) (nodeId : nat)
    (parentId : string) : Graph :=
  let ifId := "if_" +:+ pretty nodeId in
  let nodeId := S nodeId in
  let g := pushNode (mkFlowNode ifId "If Condition" t_decision None) g in
  let g := pushEdge (mkFlowEdge parentId ifId (Some e_normal) None) g in
  let thenId := "then_" +:+ pretty nodeId in
  let nodeId := S nodeId in
  let g := pushNode (mkFlowNode thenId "Then" t_process None) g in
  let g := pushEdge (mkFlowEdge ifId thenId (Some e_conditional) (Some "true")) g in
  match get "alternate" stmt with
  | Some _ =>
      let elseId := "else_" +:+ pretty nodeId in
      let g := pushNode (mkFlowNode elseId "Else" t_process None) g in
      pushEdge (mkFlowEdge ifId elseId (Some e_conditional) (Some "false")) g
  | None => g
  end.

(** [analyzeLoopStatement] *)
Definition analyzeLoopStatement (stmt : Node) (g : Graph) (nodeId : nat)
    (parentId : string) : Graph :=
  let loopId := "loop_" +:+ pretty nodeId in
  let nodeId := S nodeId in
  let loopType :=
    if isForStatement (Some stmt) then "For Loop"
    else if isWhileStatement (Some stmt) then "While Loop"
    else "Do-While Loop" in
  let g := pushNode (mkFlowNode loopId loopType t_loop None) g in
  let g := pushEdge (mkFlowEdge parentId loopId (Some e_normal) None) g in
  let bodyId := "body_" +:+ pretty nodeId in
  let g := pushNode (mkFlowNode bodyId "Loop Body" t_process None) g in
  let g := pushEdge (mkFlowEdge loopId bodyId (Some e_normal) None) g in
  pushEdge (mkFlowEdge bodyId loopId (Some e_loop) None) g.

(** One round of [stmt.cases.forEach]; the counter is local to
    [analyzeSwitchStatement] and shared by the rounds. *)
Definition addCase (switchId : string) (gn : Graph * nat) (caseStmt : Node)
  : Graph * nat :=
  let '(g, nodeId) := gn in
  let caseId := "case_" +:+ pretty nodeId in
  let caseLabel :=
    match get "test" caseStmt with
    | Some test => "Case " +:+ to_string (js_or (attr "value" test) (attr "name" test))
    | None => "Default"
    end in
  let g := pushNode (mkFlowNode caseId caseLabel t_process None) g in
  (pushEdge (mkFlowEdge switchId caseId (Some e_conditional) None) g, S nodeId).

(** [analyzeSwitchStatement] *)
Definition analyzeSwitchStatement (stmt : Node) (g : Graph) (nodeId : nat)
    (parentId : string) : Graph :=
  let switchId := "switch_" +:+ pretty nodeId in
  let nodeId := S nodeId in
  let g := pushNode (mkFlowNode switchId "Switch" t_decision None) g in
  let g := pushEdge (mkFlowEdge parentId switchId (Some e_normal) None) g in
  fst (fold_left (addCase switchId) (get_all "cases" stmt) (g, nodeId)).

(** [analyzeStatementControlFlow] *)
Definition analyzeStatementControlFlow (stmt : Node) (g : Graph) (nodeId : nat)
    (parentId : string) : Graph :=
  if isIfStatement (Some stmt) then analyzeIfStatement stmt g nodeId parentId
  else if isForStatement (Some stmt) || isWhileStatement (Some stmt)
          || isDoWhileStatement (Some stmt) then
    analyzeLoopStatement stmt g nodeId parentId
  else if isSwitchStatement (Some stmt) then
    analyzeSwitchStatement stmt g nodeId parentId
  else
    let stmtId := "stmt_" +:+ pretty nodeId in
    let g := pushNode (mkFlowNode stmtId (Babel.type stmt) t_process None) g in
    pushEdge (mkFlowEdge parentId stmtId (Some e_normal) None) g.

(** [analyzeProgramControlFlow] *)
Definition analyzeProgramControlFlow (path : NodePath) (g : Graph) (nodeId : nat)
  : Graph :=
  let programId := "program_" +:+ pretty nodeId in
  let nodeId := S nodeId in
  let g := pushNode (mkFlowNode programId "Program" t_process None) g in
  let g := pushEdge (mkFlowEdge "start" programId (Some e_normal) None) g in
  if isProgram (Some (node path)) then
    fold_left (fun g stmt => analyzeStatementControlFlow stmt g nodeId programId)
              (get_all "body" (node path)) g
  else g.

(** [getFunctionName] *)
Definition getFunctionName (path : NodePath) : string :=
  let n := node path in
  let fromId :=
    match get "id" n with Some i => name_of i | None => "Anonymous" end in
  if isFunctionDeclaration (Some n) && bool_decide (is_Some (get "id" n)) then fromId
  else if isArrowFunctionExpression (Some n) || isFunctionExpression (Some n) then
    if isVariableDeclarator (parent path)
       && isIdentifier (match parent path with Some d => get "id" d | None => None end)
    then match parent path with
         | Some d => match get "id" d with Some i => name_of i | None => "Anonymous" end
         | None => "Anonymous"
         end
    else "Anonymous"
  else if isClassDeclaration (Some n) && bool_decide (is_Some (get "id" n)) then fromId
  else "Anonymous".

(** [analyzeFunctionControlFlow] *)
Definition analyzeFunctionControlFlow (path : NodePath) (g : Graph) (nodeId : nat)
  : Graph :=
  let functionName := getFunctionName path in
  let functionId := "func_" +:+ functionName +:+ "_" +:+ pretty nodeId in
  let nodeId := S nodeId in
  let g := pushNode (mkFlowNode functionId functionName t_function None) g in
  match get "body" (node path) with
  | Some body => analyzeStatementControlFlow body g nodeId functionId
  | None => g
  end.

Definition controlFlowVisitor (nodeId : nat) (path : NodePath) (g : Graph) : Graph :=
  let n := Some (node path) in
  if isProgram n then analyzeProgramControlFlow path g nodeId
  else if isFunctionDeclaration n then analyzeFunctionControlFlow path g nodeId
  else if isArrowFunctionExpression n then analyzeFunctionControlFlow path g nodeId
  else g.

(** [generateControlFlow] *)
Definition generateControlFlow (ast : Node) (filePath : string) : Result FlowDiagram :=
  let nodeId := 0 in
  let g := pushNode (mkFlowNode "start" "Start" t_start None) (mkGraph [] []) in
  paths <- traverse ast ;;
  let g := run (controlFlowVisitor nodeId) paths g in
  let g := pushNode (mkFlowNode "end" "End" t_end None) g in
  Ok {| nodes := g_nodes g;
        edges := g_edges g;
        metadata := mkMetadata control_flow ("Control Flow - " +:+ filePath)
                               "程序控制流图" |}.

(** *** Data flow *)

(** What a call reads from its environment: [Date_now k] is the value of
    the [k]-th call of [Date.now()] and [Math_random k] the printed form
    of the [k]-th number drawn by [Math.random()]. *)
Record Env := mkEnv {
  Date_now : nat -> Z;
  Math_random : nat -> string
}.

Record DataFlowState := mkDataFlowState {
  df_graph : Graph;
  df_variableMap : gmap string string;
  df_draws : nat
}.

(** [getDeclarationType] *)
Definition getDeclarationType (path : NodePath) : JsValue :=
  if isVariableDeclarator (Some (node path)) then
    match parent path with
    | Some d => if isVariableDeclaration (Some d) then attr "kind" d else VStr "var"
    | None => VStr "var"
    end
  else VStr "var".

(** [extractValue] *)
Definition extractValue (n : option Node) : JsValue :=
  match n with
  | Some x => if isLiteral n then attr "value" x else VUndefined
  | None => VUndefined
  end.

Definition dataFlowVisitor (env : Env) (path : NodePath) (s : DataFlowState)
  : DataFlowState :=
  let n := node path in
  if isVariableDeclarator (Some n) then
    match get "id" n with
    | Some i =>
        if isIdentifier (Some i) then
          let varId := "var_" +:+ name_of i in
          {| df_graph :=
               pushNode (mkFlowNode varId (name_of i) t_variable
                           (Some [("declarationType", getDeclarationType path);
                                  ("value", extractValue (get "init" n))]))
                        (df_graph s);
             df_variableMap := <[name_of i := varId]> (df_variableMap s);
             df_draws := df_draws s |}
        else s
    | None => s
    end
  else if isIdentifier (Some n) then
    match df_variableMap s !! name_of n with
    | Some varId =>
        if isAssignmentExpression (parent path) then
          let k := df_draws s in
          let assignmentId :=
            "assign_" +:+ pretty (Date_now env k) +:+ "_" +:+ Math_random env k in
          let g := pushNode (mkFlowNode assignmentId "Assignment" t_process None)
                            (df_graph s) in
          let g := pushEdge (mkFlowEdge varId assignmentId (Some e_data) None) g in
          {| df_graph := g;
             df_variableMap := df_variableMap s;
             df_draws := S k |}
        else s
    | None => s
    end
  else s.

(** [generateDataFlow] *)
Definition generateDataFlow (env : Env) (ast : Node) (filePath : string)
  : Result FlowDiagram :=
  paths <- traverse ast ;;
  let s := run (dataFlowVisitor env) paths (mkDataFlowState (mkGraph [] []) ∅ 0) in
  Ok {| nodes := g_nodes (df_graph s);
        edges := g_edges (df_graph s);
        metadata := mkMetadata data_flow ("Data Flow - " +:+ filePath) "数据流图" |}.

(** *** Component tree *)

(** [c.toUpperCase()] on one ASCII character.  A name is a text of
    bytes; the upper case of a character outside ASCII is not modelled,
    and a byte of such a character is left alone.  The language leaves
    alone fewer characters: a name that passes the test of the language
    passes the test below. *)
Definition toUpperCase (c : Ascii.ascii) : Ascii.ascii :=
  let n := Ascii.nat_of_ascii c in
  if (97 <=? n) && (n <=? 122) then Ascii.ascii_of_nat (n - 32) else c.

(** [name[0] === name[0]?.toUpperCase()]; on the empty string both sides
    are [undefined]. *)
Definition firstIsUpperCase (name : string) : bool :=
  match name with
  | EmptyString => true
  | String c _ => bool_decide (c = toUpperCase c)
  end.

(** [isReactComponent] *)
Definition isReactComponent (path : NodePath) : bool :=
  let name := getFunctionName path in
  negb (String.eqb name "") && firstIsUpperCase name.

(** [isReactClassComponent] *)
Definition isReactClassComponent (path : NodePath) : bool :=
  let n := node path in
  isClassDeclaration (Some n)
  && match get "superClass" n with
     | Some sup =>
         isMemberExpression (Some sup)
         && match get "object" sup, get "property" sup with
            | Some o, Some p =>
                isIdentifier (Some o) && String.eqb (name_of o) "React"
                && isIdentifier (Some p) && String.eqb (name_of p) "Component"
            | _, _ => false
            end
     | None => false
     end.

Record ComponentState := mkComponentState {
  ct_graph : Graph;
  ct_componentMap : gmap string string
}.

(** [addComponentNode] *)
Definition addComponentNode (path : NodePath) (s : ComponentState)
  : string * ComponentState :=
  let name := getFunctionName path in
  let componentId := "comp_" +:+ name in
  let n := Some (node path) in
  (componentId,
   {| ct_graph :=
        pushNode (mkFlowNode componentId name t_component
                    (Some [("isFunctional",
                            VBool (isFunctionDeclaration n || isArrowFunctionExpression n));
                           ("isClass", VBool (isClassDeclaration n))]))
                 (ct_graph s);
      ct_componentMap := <[name := componentId]> (ct_componentMap s) |}).

Definition jsxVisitor (componentId : string) (jsxPath : NodePath) (s : ComponentState)
  : ComponentState :=
  if is_a "JSXElement" (Some (node jsxPath)) then
    match get "openingElement" (node jsxPath) with
    | Some element =>
        match get "name" element with
        | Some nm =>
            if isJSXIdentifier (Some nm) && firstIsUpperCase (name_of nm) then
              let childName := name_of nm in
              let '(childId, s) :=
                match ct_componentMap s !! childName with
                | Some childId => (childId, s)
                | None =>
                    let childId := "comp_" +:+ childName in
                    (childId,
                     {| ct_graph :=
                          pushNode (mkFlowNode childId childName t_component None)
                                   (ct_graph s);
                        ct_componentMap := <[childName := childId]> (ct_componentMap s) |})
                end in
              {| ct_graph :=
                   pushEdge (mkFlowEdge componentId childId (Some e_dependency) None)
                            (ct_graph s);
                 ct_componentMap := ct_componentMap s |}
            else s
        | None => s
        end
    | None => s
    end
  else s.

(** [analyzeComponentChildren]: a traversal rooted at the component. *)
Definition analyzeComponentChildren (path : NodePath) (componentId : string)
    (s : ComponentState) : Result ComponentState :=
  paths <- traverse (node path) ;;
  Ok (run (jsxVisitor componentId) paths s).

Definition componentVisitor (path : NodePath) (s : ComponentState)
  : Result ComponentState :=
  let n := Some (node path) in
  let add :=
    let '(componentId, s) := addComponentNode path s in
    analyzeComponentChildren path componentId s in
  if isFunctionDeclaration n then
    if isReactComponent path then add else Ok s
  else if isArrowFunctionExpression n then
    if isReactComponent path then add else Ok s
  else if isClassDeclaration n then
    if isReactClassComponent path then add else Ok s
  else Ok s.

(** [generateComponentTree] *)
Definition generateComponentTree (ast : Node) (filePath : string) : Result FlowDiagram :=
  paths <- traverse ast ;;
  s <- run_throwing componentVisitor paths (mkComponentState (mkGraph [] []) ∅) ;;
  Ok {| nodes := g_nodes (ct_graph s);
        edges := g_edges (ct_graph s);
        metadata := mkMetadata component_tree ("Component Tree - " +:+ filePath)
                               "组件树图" |}.

(** *** Dependency graph *)

(** The parts of the project object that [generateDependencyGraph] reads;
    an absent [files], [dependencies] or [usedIn] is an empty list, since
    each is iterated with [?.forEach]. *)
Record ProjectFile := mkProjectFile {
  file_path : string;                            (* [path] *)
  file_name : string;                            (* [name] *)
  file_type : JsValue;                           (* [type] *)
  file_size : JsValue                            (* [size] *)
}.

Record ProjectDependency := mkProjectDependency {
  dep_name : string;                             (* [name] *)
  dep_version : JsValue;                         (* [version] *)
  dep_type : JsValue;                            (* [type] *)
  usedIn : list string
}.

Record Project := mkProject {
  project_files : list ProjectFile;              (* [files] *)
  project_dependencies : list ProjectDependency  (* [dependencies] *)
}.

Definition isAlphanumeric (c : Ascii.ascii) : bool :=
  let n := Ascii.nat_of_ascii c in
  ((97 <=? n) && (n <=? 122)) || ((65 <=? n) && (n <=? 90))
  || ((48 <=? n) && (n <=? 57)).

(** [s.replace(/[^a-zA-Z0-9]/g, '_')], for ASCII paths. *)
Fixpoint sanitize (s : string) : string :=
  match s with
  | EmptyString => EmptyString
  | String c rest =>
      String (if isAlphanumeric c then c else Ascii.ascii_of_nat 95) (sanitize rest)
  end.

Definition fileIdOf (filePath : string) : string := "file_" +:+ sanitize filePath.

Definition addFile (g : Graph) (file : ProjectFile) : Graph :=
  pushNode (mkFlowNode (fileIdOf (file_path file)) (file_name file) t_component
              (Some [("fileType", file_type file); ("size", file_size file)]))
           g.

Definition addDependency (g : Graph) (dep : ProjectDependency) : Graph :=
  let depId := "dep_" +:+ dep_name dep in
  let g := pushNode (mkFlowNode depId (dep_name dep) t_data
                       (Some [("version", dep_version dep); ("type", dep_type dep)]))
                    g in
  fold_left (λ g filePath,
               pushEdge (mkFlowEdge depId (fileIdOf filePath) (Some e_dependency) None) g)
            (usedIn dep) g.

(** [generateDependencyGraph] *)
Definition generateDependencyGraph (projectInfo : Project) : FlowDiagram :=
  let g := fold_left addFile (project_files projectInfo) (mkGraph [] []) in
  let g := fold_left addDependency (project_dependencies projectInfo) g in
  {| nodes := g_nodes g;
     edges := g_edges g;
     metadata := mkMetadata dependency_graph "Dependency Graph" "项目依赖关系图" |}.

(** Every path in a [usedIn] list is the path of a listed file, up to the
    replacement of the characters that are not alphanumeric. *)
Definition usedFilesListed (projectInfo : Project) : Prop :=
  ∀ dep filePath,
    dep ∈ project_dependencies projectInfo → filePath ∈ usedIn dep →
    ∃ file, file ∈ project_files projectInfo
            ∧ sanitize (file_path file) = sanitize filePath.

(** *** Graph properties *)

(** The ids of the node list. *)
Definition nodeIds (d : FlowDiagram) : list string := id <$> nodes d.

(** Every edge starts and ends at a node of the diagram. *)
Definition edgesClosed (d : FlowDiagram) : Prop :=
  ∀ e, e ∈ edges d → from e ∈ nodeIds d ∧ to e ∈ nodeIds d.

(** One step along an emitted edge, and paths of such steps. *)
Definition step (d : FlowDiagram) (a b : string) : Prop :=
  ∃ e, e ∈ edges d ∧ from e = a ∧ to e = b.
Definition reachable (d : FlowDiagram) : string → string → Prop := rtc (step d).

Definition nodesOfType (ty : FlowNodeType) (d : FlowDiagram) : list FlowNode :=
  filter (λ n, nodeType n = ty) (nodes d).

(** The diagram with the ids of the assignment nodes blanked. *)
Definition blankNode (n : FlowNode) : FlowNode :=
  if bool_decide (nodeType n = t_process)
  then mkFlowNode "" (label n) (nodeType n) (properties n) else n.
Definition blankEdge (e : FlowEdge) : FlowEdge :=
  mkFlowEdge (from e) "" (edgeType e) (condition e).
Definition forgetAssignmentIds (d : FlowDiagram) : FlowDiagram :=
  {| nodes := blankNode <$> nodes d;
     edges := blankEdge <$> edges d;
     metadata := metadata d |}.

(** *** Invariants of the synthesis *)

Definition ids (g : Graph) : list string := id <$> g_nodes g.

(** [g'] has the nodes of [g] and possibly more. *)
Definition Graph_le (g g' : Graph) : Prop := g_nodes g `prefix_of` g_nodes g'.

(** An id of a node of the graph other than the end node. *)
Definition known (g : Graph) (x : string) : Prop := x ∈ ids g ∧ x ≠ "end".

Definition closed (g : Graph) : Prop :=
  ∀ e, e ∈ g_edges g → from e ∈ ids g ∧ to e ∈ ids g.

(** The state of the control-flow synthesis before the end node is
    added. *)
Definition controlFlowInvariant (g : Graph) : Prop :=
  (∀ e, e ∈ g_edges g → known g (from e) ∧ known g (to e))
  ∧ filter (λ n, nodeType n = t_start) (g_nodes g)
    = [mkFlowNode "start" "Start" t_start None]
  ∧ filter (λ n, nodeType n = t_end) (g_nodes g) = [].

Definition dataFlowInvariant (s : DataFlowState) : Prop :=
  closed (df_graph s)
  ∧ ∀ nm varId, df_variableMap s !! nm = Some varId → varId ∈ ids (df_graph s).

(** Two states of the data-flow synthesis that differ in the ids drawn
    for the assignment nodes only. *)
Definition sameShape (s1 s2 : DataFlowState) : Prop :=
  df_variableMap s1 = df_variableMap s2
  ∧ df_draws s1 = df_draws s2
  ∧ blankNode <$> g_nodes (df_graph s1) = blankNode <$> g_nodes (df_graph s2)
  ∧ blankEdge <$> g_edges (df_graph s1) = blankEdge <$> g_edges (df_graph s2).

End FlowDiagramGenerator.

(** ** ComponentAnalyzer: state bindings

    The analyzer walks the component with its own walker [traverseAST],
    which calls the visitor on the root as well and then on every child
    object, in property order.  Holes of array patterns are not
    represented in [kids], so the trees considered have none. *)

Module ComponentAnalyzer.
Import Babel.

(** [traverseAST(ast, visitors)]: the paths handed to the visitors. *)
Definition traverseAST (ast : Node) : list NodePath := visit None None ast.

(** What [extractDefaultValue] returns. *)
Inductive DefaultValue :=
| Scalar (v : JsValue)
| EmptyArray
| EmptyObject.

#[global] Instance DefaultValue_eq_dec : EqDecision DefaultValue.
Proof. solve_decision. Defined.

Record StateDefinition := mkStateDefinition {
  name : string;
  stateType : string;                    (* [type] *)
  initialValue : DefaultValue;
  isPrivate : bool;
  isReadonly : bool;
  location : Position
}.

Record ComponentState := mkComponentState {
  definitions : list StateDefinition;
  types : gmap string string;
  initialValues : gmap string DefaultValue;
  updaters : list string;
  subscribers : list string
}.

(** [inferValueType] *)
Definition inferValueType (n : option Node) : string :=
  if isStringLiteral n then "string"
  else if isNumericLiteral n then "number"
  else if isBooleanLiteral n then "boolean"
  else if isArrayExpression n then "array"
  else if isObjectExpression n then "object"
  else if isFunctionExpression n || isArrowFunctionExpression n then "function"
  else "any".

(** [extractDefaultValue] *)
Definition extractDefaultValue (n : option Node) : DefaultValue :=
  if isLiteral n then
    match n with Some x => Scalar (attr "value" x) | None => Scalar VUndefined end
  else if isArrayExpression n then EmptyArray
  else if isObjectExpression n then EmptyObject
  else Scalar VUndefined.

(** The test of the [VariableDeclarator] visitor of [analyzeState]: the
    identifier that names the state and the initial-state argument. *)
Definition stateBinding (declarator : Node) : option (Node * option Node) :=
  match get "init" declarator, get "id" declarator with
  | Some init, Some pattern =>
      if isCallExpression (Some init)
         && isIdentifier (get "callee" init)
         && match get "callee" init with
            | Some c => String.eqb (name_of c) "useState"
            | None => false
            end
         && isArrayPattern (Some pattern)
         && (0 <? length (get_all "elements" pattern))
      then
        match head (get_all "elements" pattern) with
        | Some stateName =>
            if isIdentifier (Some stateName)
            then Some (stateName, head (get_all "arguments" init))
            else None
        | None => None
        end
      else None
  | _, _ => None
  end.

Definition stateVisitor (path : NodePath) (s : ComponentState) : ComponentState :=
  if isVariableDeclarator (Some (node path)) then
    let declarator := node path in
    match stateBinding declarator with
    | Some (stateName, initialState) =>
        {| definitions :=
             definitions s ++
             [{| name := name_of stateName;
                 stateType := inferValueType initialState;
                 initialValue := extractDefaultValue initialState;
                 isPrivate := false;
                 isReadonly := false;
                 location := mkPos (start_line declarator) (start_column declarator) |}];
           types := setOwn (name_of stateName) (inferValueType initialState) (types s);
           initialValues :=
             setOwn (name_of stateName) (extractDefaultValue initialState)
                    (initialValues s);
           updaters := updaters s;
           subscribers := subscribers s |}
    | None => s
    end
  else s.

(** [analyzeState] *)
Definition analyzeState (node : Node) : ComponentState :=
  run stateVisitor (traverseAST node) (mkComponentState [] ∅ ∅ [] []).

(** The shape that the visitor tests, [[x, ...] = useState(initial)]
    for a declarator: the first element of the pattern is the identifier
    [x], and [initial] is the first argument of the call, if any.  The
    keyword of the declaration and the other elements of the pattern
    take no part. *)
Definition isStateBindingShape (declarator x : Node) (initial : option Node) : Prop :=
  ∃ init pattern callee,
    get "init" declarator = Some init
    ∧ Babel.type init = "CallExpression"
    ∧ get "callee" init = Some callee
    ∧ Babel.type callee = "Identifier"
    ∧ name_of callee = "useState"
    ∧ get "id" declarator = Some pattern
    ∧ Babel.type pattern = "ArrayPattern"
    ∧ head (get_all "elements" pattern) = Some x
    ∧ Babel.type x = "Identifier"
    ∧ initial = head (get_all "arguments" init).

(** The definition recorded for such a declarator. *)
Definition definitionOf (declarator x : Node) (initial : option Node) : StateDefinition :=
  {| name := name_of x;
     stateType := inferValueType initial;
     initialValue := extractDefaultValue initial;
     isPrivate := false;
     isReadonly := false;
     location := mkPos (start_line declarator) (start_column declarator) |}.

End ComponentAnalyzer.

(** The file of the component analyzer holds an earlier version of the
    class as well.  Its [analyzeState] looks for the calls of [useState]
    with a walker of its own and asks [extractStateNameFromCall] for the
    name, which that version leaves unimplemented. *)

Module ComponentAnalyzerEarlier.
Import Babel.

Definition collect_over (f : Node -> list Node) (k : string)
  : list (string * Node) -> list Node :=
  fix go l :=
    match l with
    | [] => []
    | (k', c) :: r => (if String.eqb k k' then f c else []) ++ go r
    end.

Definition collect_at (f : Node -> list Node) (k : string)
  : list (string * Node) -> list Node :=
  fix go l :=
    match l with
    | [] => []
    | (k', c) :: r => if String.eqb k k' then f c else go r
    end.

(** [findUseStateCalls]: the calls handed to the callback, in order. *)
Fixpoint findUseStateCalls (node : Node) : list Node :=
  let n := Some node in
  (if isCallExpression n
      && isIdentifier (get "callee" node)
      && match get "callee" node with
         | Some c => String.eqb (name_of c) "useState"
         | None => false
         end
   then [node] else [])
  ++
  (if isBlockStatement n then
     collect_over findUseStateCalls "body" (kids node)
   else if isIfStatement n then
     collect_at findUseStateCalls "consequent" (kids node)
     ++ collect_at findUseStateCalls "alternate" (kids node)
   else if isForStatement n || isWhileStatement n || isDoWhileStatement n then
     collect_at findUseStateCalls "body" (kids node)
   else if isReturnStatement n then
     collect_at findUseStateCalls "argument" (kids node)
   else if isConditionalExpression n then
     collect_at findUseStateCalls "consequent" (kids node)
     ++ collect_at findUseStateCalls "alternate" (kids node)
   else []).

(** [extractStateNameFromCall]: always [undefined]. *)
Definition extractStateNameFromCall (callNode : Node) : option string := None.

(** [analyzeState]: the definitions pushed by the callback. *)
Definition analyzeState (node : Node) : list ComponentAnalyzer.StateDefinition :=
  fold_left
    (λ definitions callNode,
       match extractStateNameFromCall callNode with
       | Some stateName =>
           definitions ++
           [{| ComponentAnalyzer.name := stateName;
               ComponentAnalyzer.stateType :=
                 ComponentAnalyzer.inferValueType (head (get_all "arguments" callNode));
               ComponentAnalyzer.initialValue :=
                 ComponentAnalyzer.extractDefaultValue (head (get_all "arguments" callNode));
               ComponentAnalyzer.isPrivate := false;
               ComponentAnalyzer.isReadonly := false;
               ComponentAnalyzer.location :=
                 mkPos (start_line callNode) (start_column callNode) |}]
       | None => definitions
       end)
    (findUseStateCalls node) [].

End ComponentAnalyzerEarlier.

(** ** FrontendCodeAnalyzer

    The file system, the parser, the directory scan and the reading of the
    package manifest are collaborators of the analyzer; they are the
    variables of the section.  [detectFramework], [analyzeDependencies]
    and [getSourceFiles] catch every exception themselves, so they are
    total here. *)

Module FrontendCodeAnalyzer.
Import Babel.

(** [haystack.includes(needle)] *)
Fixpoint includes (needle haystack : string) : bool :=
  String.prefix needle haystack
  || match haystack with
     | EmptyString => false
     | String _ rest => includes needle rest
     end.

Definition message (e : Exn) : string :=
  match e with
  | Error m => m
  | ParseError m => m
  end.

(** [try { body } catch (error) { handler(error) }] *)
Definition try_catch {A} (body : Result A) (handler : Exn -> Result A) : Result A :=
  match body with
  | Ok a => Ok a
  | Throw e => handler e
  end.

Section Analyzer.
Context {FunctionInfo ComponentInfo ImportsExports DependencyInfo : Type}.

Variable existsSync : string -> bool.
Variable readFileSync : string -> Result string.
Variable statSize : string -> Result nat.             (* [fs.statSync(p).size] *)
Variable parse : string -> Result Node.
Variable basename : string -> string.
Variable countLines : string -> nat.                  (* [content.split('\n').length] *)
Variable detectFileType : string -> string.
Variable analyzeFunctions : Node -> Result (list FunctionInfo).
Variable analyzeComponents : Node -> Result (list ComponentInfo).
Variable analyzeImportsExports : Node -> Result ImportsExports.
Variable getSourceFiles : string -> list string.
Variable readFramework : string -> string * string.   (* framework and name *)
Variable readDependencies : string -> list DependencyInfo.

Record FileInfo := mkFileInfo {
  path : string;
  fileType : string;                                  (* [type] *)
  size : nat;
  lines : nat;
  variables : list VariableTracker.VariableInfo;
  functions : list FunctionInfo;
  components : list ComponentInfo;
  importsExports : ImportsExports
}.

Record ProjectStats := mkProjectStats {
  totalFiles : nat;
  totalLines : nat;
  totalVariables : nat;
  totalFunctions : nat;
  totalComponents : nat
}.

Record ProjectInfo := mkProjectInfo {
  name : string;
  rootPath : string;
  framework : string;
  files : list FileInfo;
  dependencies : list DependencyInfo;
  stats : option ProjectStats
}.

(** The object literal returned for a project path that does not
    exist: no files, no dependencies, no statistics (its empty
    [components], [functions] and [variables] arrays have no
    counterpart in a populated project and are left out). *)
Definition emptyProject (projectPath : string) : ProjectInfo :=
  {| name := basename projectPath;
     rootPath := projectPath;
     framework := "unknown";
     files := [];
     dependencies := [];
     stats := None |}.

(** [analyzeFile] *)
Definition analyzeFile (filePath : string) : Result FileInfo :=
  content <- readFileSync filePath ;;
  sz <- statSize filePath ;;
  try_catch
    (ast <- parse content ;;
     vars <- VariableTracker.analyzeVariables ast ;;
     funs <- analyzeFunctions ast ;;
     comps <- analyzeComponents ast ;;
     ie <- analyzeImportsExports ast ;;
     Ok {| path := filePath;
           fileType := detectFileType filePath;
           size := sz;
           lines := countLines content;
           variables := vars;
           functions := funs;
           components := comps;
           importsExports := ie |})
    (fun error => Throw (ParseError ("文件解析失败: " +:+ filePath))).

(** [analyzeFiles]: a file whose analysis throws is reported on the
    console and skipped. *)
Definition analyzeFiles (projectPath : string) : list FileInfo :=
  omap (fun filePath =>
          match analyzeFile filePath with
          | Ok fileInfo => Some fileInfo
          | Throw _ => None
          end)
       (getSourceFiles projectPath).

(** [calculateProjectStats] *)
Definition calculateProjectStats (fs : list FileInfo) : ProjectStats :=
  {| totalFiles := length fs;
     totalLines := fold_left (fun sum f => sum + lines f) fs 0;
     totalVariables := fold_left (fun sum f => sum + length (variables f)) fs 0;
     totalFunctions := fold_left (fun sum f => sum + length (functions f)) fs 0;
     totalComponents := fold_left (fun sum f => sum + length (components f)) fs 0 |}.

(** [analyzeProject] *)
Definition analyzeProject (projectPath : string) : Result ProjectInfo :=
  try_catch
    (if negb (existsSync projectPath) then
       Ok (emptyProject projectPath)
     else
       let fs := analyzeFiles projectPath in
       Ok {| name := snd (readFramework projectPath);
             rootPath := projectPath;
             framework := fst (readFramework projectPath);
             files := fs;
             dependencies := readDependencies projectPath;
             stats := Some (calculateProjectStats fs) |})
    (fun error =>
       if includes "ENOENT" (message error) then Ok (emptyProject projectPath)
       else Throw (ParseError ("项目分析失败: " +:+ message error))).

End Analyzer.

End FrontendCodeAnalyzer.

(** ** Sample trees

    The trees that the parser builds for the programs used in the
    repository's tests and in the scenarios of the specification. *)

Module Samples.
Import Babel.

Definition at_ (l c : nat) : option Position := Some (mkPos l c).

Definition ident (p : option Position) (x : string) : Node :=
  mkNode "Identifier" p [("name", VStr x)] [].
Definition num (p : option Position) (z : Z) : Node :=
  mkNode "NumericLiteral" p [("value", VNum z)] [].
Definition str (p : option Position) (s : string) : Node :=
  mkNode "StringLiteral" p [("value", VStr s)] [].
Definition binary (p : option Position) (op : string) (l r : Node) : Node :=
  mkNode "BinaryExpression" p [("operator", VStr op)] [("left", l); ("right", r)].
Definition ret (p : option Position) (e : Node) : Node :=
  mkNode "ReturnStatement" p [] [("argument", e)].
Definition exprStmt (p : option Position) (e : Node) : Node :=
  mkNode "ExpressionStatement" p [] [("expression", e)].
Definition block (p : option Position) (body : list Node) : Node :=
  mkNode "BlockStatement" p [] ((λ s, ("body", s)) <$> body).
Definition ifElse (p : option Position) (test cons alt : Node) : Node :=
  mkNode "IfStatement" p [] [("test", test); ("consequent", cons); ("alternate", alt)].
Definition funDecl (p : option Position) (f : Node) (params : list Node) (body : Node)
  : Node :=
  mkNode "FunctionDeclaration" p []
         ([("id", f)] ++ ((λ x, ("params", x)) <$> params) ++ [("body", body)]).
Definition declarator (p : option Position) (i : Node) (init : Node) : Node :=
  mkNode "VariableDeclarator" p [] [("id", i); ("init", init)].
Definition declaration (p : option Position) (kind : string) (ds : list Node) : Node :=
  mkNode "VariableDeclaration" p [("kind", VStr kind)]
         ((λ d, ("declarations", d)) <$> ds).
Definition call (p : option Position) (callee : Node) (args : list Node) : Node :=
  mkNode "CallExpression" p []
         (("callee", callee) :: ((λ a, ("arguments", a)) <$> args)).
Definition assign (p : option Position) (l r : Node) : Node :=
  mkNode "AssignmentExpression" p [("operator", VStr "=")] [("left", l); ("right", r)].
Definition arrayPattern (p : option Position) (els : list Node) : Node :=
  mkNode "ArrayPattern" p [] ((λ x, ("elements", x)) <$> els).
Definition program (body : list Node) : Node :=
  mkNode "Program" (at_ 1 0) [("sourceType", VStr "module")]
         ((λ s, ("body", s)) <$> body).
Definition file (prog : Node) : Node :=
  mkNode "File" (at_ 1 0) [] [("program", prog)].

(** [function f(x){ if (x>0) { if (x>10) return "a"; else return "b"; }
                    else if (x<0) return "c"; else return "d"; }] *)
Definition nestedIfFunction : Node :=
  funDecl (at_ 1 0) (ident (at_ 1 9) "f") [ident (at_ 1 11) "x"]
    (block (at_ 1 13)
       [ifElse (at_ 1 15) (binary (at_ 1 19) ">" (ident (at_ 1 19) "x") (num (at_ 1 21) 0))
          (block (at_ 1 24)
             [ifElse (at_ 1 26)
                (binary (at_ 1 30) ">" (ident (at_ 1 30) "x") (num (at_ 1 32) 10))
                (ret (at_ 1 36) (str (at_ 1 43) "a"))
                (ret (at_ 1 53) (str (at_ 1 60) "b"))])
          (ifElse (at_ 1 72)
             (binary (at_ 1 76) "<" (ident (at_ 1 76) "x") (num (at_ 1 78) 0))
             (ret (at_ 1 81) (str (at_ 1 88) "c"))
             (ret (at_ 1 98) (str (at_ 1 105) "d")))]).

Definition member (p : option Position) (o prop : Node) : Node :=
  mkNode "MemberExpression" p [("computed", VBool false)]
         [("object", o); ("property", prop)].
Definition classMethod (p : option Position) (kind : string) (key : Node) (body : Node)
  : Node :=
  mkNode "ClassMethod" p [("kind", VStr kind); ("static", VBool false)]
         [("key", key); ("body", body)].
Definition classDecl (p : option Position) (c : Node) (members : list Node) : Node :=
  mkNode "ClassDeclaration" p []
         [("id", c);
          ("body", mkNode "ClassBody" p [] ((λ m, ("body", m)) <$> members))].
Definition jsxElement (p : option Position) (tag : string) : Node :=
  mkNode "JSXElement" p []
         [("openingElement",
           mkNode "JSXOpeningElement" p [("selfClosing", VBool true)]
                  [("name", mkNode "JSXIdentifier" p [("name", VStr tag)] [])])].

(** The program of the repository's test of scopes:
<<
const globalVar = "global";
function testFunction() {
const functionVar = "function";
class TestClass {
  constructor() {
    const constructorVar = "constructor";
  }
}
}
>> *)
Definition constructorVarDeclarator : Node :=
  declarator (at_ 6 12) (ident (at_ 6 12) "constructorVar") (str (at_ 6 29) "constructor").

Definition scopesProgram : Node :=
  file (program
    [declaration (at_ 1 0) "const"
       [declarator (at_ 1 6) (ident (at_ 1 6) "globalVar") (str (at_ 1 18) "global")];
     funDecl (at_ 2 0) (ident (at_ 2 9) "testFunction") []
       (block (at_ 2 24)
          [declaration (at_ 3 2) "const"
             [declarator (at_ 3 8) (ident (at_ 3 8) "functionVar")
                         (str (at_ 3 22) "function")];
           classDecl (at_ 4 2) (ident (at_ 4 8) "TestClass")
             [classMethod (at_ 5 4) "constructor" (ident (at_ 5 4) "constructor")
                (block (at_ 5 18)
                   [declaration (at_ 6 6) "const" [constructorVarDeclarator]])]])]).

(** [a; b;] *)
Definition twoStatements : Node :=
  file (program [exprStmt (at_ 1 0) (ident (at_ 1 0) "a");
                 exprStmt (at_ 1 3) (ident (at_ 1 3) "b")]).

(** The empty program. *)
Definition emptyProgram : Node := file (program []).

(** [let x = 1; x = 2;] *)
Definition assignedVariable : Node :=
  file (program
    [declaration (at_ 1 0) "let"
       [declarator (at_ 1 4) (ident (at_ 1 4) "x") (num (at_ 1 8) 1)];
     exprStmt (at_ 1 11) (assign (at_ 1 11) (ident (at_ 1 11) "x") (num (at_ 1 15) 2))]).

(** The program of the repository's test of usages:
<<
const name = "test";
console.log(name);
name = "updated";
>> *)
Definition nameDeclarator : Node :=
  declarator (at_ 1 6) (ident (at_ 1 6) "name") (str (at_ 1 13) "test").

Definition usageProgram : Node :=
  file (program
    [declaration (at_ 1 0) "const" [nameDeclarator];
     exprStmt (at_ 2 0)
       (call (at_ 2 0)
          (member (at_ 2 0) (ident (at_ 2 0) "console") (ident (at_ 2 8) "log"))
          [ident (at_ 2 12) "name"]);
     exprStmt (at_ 3 0)
       (assign (at_ 3 0) (ident (at_ 3 0) "name") (str (at_ 3 7) "updated"))]).

(** [function Counter() { const [count, setCount] = useState(0);
                          return <div/>; }] *)
Definition counterComponent : Node :=
  funDecl (at_ 1 0) (ident (at_ 1 9) "Counter") []
    (block (at_ 1 19)
       [declaration (at_ 2 2) "const"
          [declarator (at_ 2 8)
             (arrayPattern (at_ 2 8) [ident (at_ 2 9) "count"; ident (at_ 2 16) "setCount"])
             (call (at_ 2 28) (ident (at_ 2 28) "useState") [num (at_ 2 37) 0])];
        ret (at_ 3 2) (jsxElement (at_ 3 9) "div")]).

(** Two environments that differ in their first random number. *)
Definition env1 : FlowDiagramGenerator.Env :=
  FlowDiagramGenerator.mkEnv (λ _, 1700000000000%Z) (λ _, "0.25").
Definition env2 : FlowDiagramGenerator.Env :=
  FlowDiagramGenerator.mkEnv (λ _, 1700000000000%Z) (λ _, "0.75").

(** A project directory that does not exist. *)
Definition analyzeMissingProject
  : Result (FrontendCodeAnalyzer.ProjectInfo (FunctionInfo := unit)
              (ComponentInfo := unit) (ImportsExports := unit) (DependencyInfo := unit)) :=
  FrontendCodeAnalyzer.analyzeProject
    (λ _, false)
    (λ _, Throw (Error "ENOENT: no such file or directory"))
    (λ _, Throw (Error "ENOENT: no such file or directory"))
    (λ _, Throw (Error "Unexpected token"))
    (λ _, "path")
    (λ _, 1)
    (λ _, "other")
    (λ _, Ok [])
    (λ _, Ok [])
    (λ _, Ok ())
    (λ _, [])
    (λ _, ("unknown", "path"))
    (λ _, [])
    "/invalid/path".

(** A file whose text the parser rejects. *)
Definition analyzeBrokenFile
  : Result (FrontendCodeAnalyzer.FileInfo (FunctionInfo := unit)
              (ComponentInfo := unit) (ImportsExports := unit)) :=
  FrontendCodeAnalyzer.analyzeFile
    (λ _, Ok "const name = ;")
    (λ _, Ok 14)
    (λ _, Throw (Error "Unexpected token (1:13)"))
    (λ _, 1)
    (λ _, "other")
    (λ _, Ok [])
    (λ _, Ok [])
    (λ _, Ok ())
    "broken.js".

End Samples.

(** ** Views of the variable tracker's result *)

Module VariableTrackerViews.
Import Babel VariableTracker.

(** A descriptor with its usage fields as they are at creation. *)
Definition resetUsage (v : VariableInfo) : VariableInfo :=
  {| name := name v;
     varType := varType v;
     scope := scope v;
     declarationType := declarationType v;
     usage := [];
     dependencies := dependencies v;
     isExportedFlag := isExportedFlag v;
     isImportedFlag := isImportedFlag v;
     declLine := declLine v;
     declColumn := declColumn v;
     value := value v;
     isOptional := isOptional v;
     isReadonly := isReadonly v;
     isPrivateFlag := isPrivateFlag v;
     isStatic := isStatic v;
     complexity := complexity v;
     usageCount := 0;
     lastUsedAt := None |}.

(** The descriptor that the first traversal builds at a path, if it
    builds one. *)
Definition declarationOf (p : NodePath) : option VariableInfo :=
  let n := Some (node p) in
  if isVariableDeclarator n then
    if isIdentifier (get "id" (node p))
    then Some (createVariableInfo p "variable") else None
  else if isFunctionDeclaration n then
    if bool_decide (is_Some (get "id" (node p)))
    then Some (createVariableInfo p "function") else None
  else if isClassDeclaration n then
    if bool_decide (is_Some (get "id" (node p)))
    then Some (createVariableInfo p "class") else None
  else if isArrowFunctionExpression n then
    if isVariableDeclarator (parent p)
       && isIdentifier (match parent p with Some d => get "id" d | None => None end)
    then Some (createVariableInfo p "arrow") else None
  else None.

(** An identifier whose name is one of [names]. *)
Definition isTrackedIdentifier (names : list string) (p : NodePath) : bool :=
  isIdentifier (Some (node p)) && bool_decide (name_of (node p) ∈ names).

(** The sum of the usage counts. *)
Definition totalUsageCount (vars : list VariableInfo) : nat :=
  sum_list (usageCount <$> vars).

(** The map points to the last descriptor of each name. *)
Definition mapLast (s : Store) : Prop :=
  ∀ nm j, variableMap s !! nm = Some j →
    ∀ k v, variables s !! k = Some v → name v = nm → k ≤ j.

(** A descriptor followed by another of the same name has no usage. *)
Definition shadowedUnused (vars : list VariableInfo) : Prop :=
  ∀ k k' v v', k < k' → vars !! k = Some v → vars !! k' = Some v' →
    name v = name v' → usage v = [].

(** The loop statements, as [isLoopVariable] and [getUsageType] list them. *)
Definition isLoopStatement (n : option Node) : bool :=
  isForStatement n || isForInStatement n || isForOfStatement n
  || isWhileStatement n || isDoWhileStatement n.

End VariableTrackerViews.

(** ** FlowDiagramGenerator: the Mermaid text, and views of the graphs *)

Module FlowDiagramMermaid.
Import Babel FlowDiagramGenerator.

Definition quote : Ascii.ascii := Ascii.ascii_of_nat 34.
Definition lineBreak : Ascii.ascii := Ascii.ascii_of_nat 10.
Definition quoteString : string := String quote EmptyString.
Definition lineBreakString : string := String lineBreak EmptyString.

(** [s.replace(/c/g, by)] for one character [c]. *)
Fixpoint replaceAll (c : Ascii.ascii) (by_ : string) (s : string) : string :=
  match s with
  | EmptyString => EmptyString
  | String x rest =>
      if Ascii.eqb x c then by_ +:+ replaceAll c by_ rest
      else String x (replaceAll c by_ rest)
  end.

(** [escapeMermaidLabel] *)
Definition escapeMermaidLabel (label : string) : string :=
  replaceAll lineBreak "<br/>" (replaceAll quote "&quot;" label).

(** [getMermaidDirection] *)
Definition getMermaidDirection (diagramType : DiagramType) : string :=
  match diagramType with
  | component_tree | dependency_graph => "TD"
  | control_flow | data_flow => "TD"
  end.

(** [getMermaidNodeStyle] *)
Definition getMermaidNodeStyle (nodeType : FlowNodeType) : string :=
  match nodeType with
  | t_start => ":::start"
  | t_end => ":::end"
  | t_decision => ":::decision"
  | t_loop => ":::loop"
  | t_function => ":::function"
  | t_component => ":::component"
  | t_variable => ":::variable"
  | t_process | t_data => ""
  end.

(** [getMermaidEdgeStyle] *)
Definition getMermaidEdgeStyle (edgeType : option FlowEdgeType) : string :=
  match edgeType with
  | Some e_conditional => ":::conditional"
  | Some e_loop => ":::loop"
  | Some e_data => ":::data"
  | Some e_dependency => ":::dependency"
  | Some e_normal | None => ""
  end.

(** The line of a node and the line of an edge; an edge comes with its
    optional [label], which none of the generators sets. *)
Definition nodeLine (n : FlowNode) : string :=
  let nodeLabel := escapeMermaidLabel (label n) in
  let nodeStyle := getMermaidNodeStyle (nodeType n) in
  "  " +:+ id n +:+ "[" +:+ quoteString +:+ nodeLabel +:+ quoteString +:+ "]"
  +:+ nodeStyle +:+ lineBreakString.

Definition hasLabel (l : option string) : bool :=
  match l with
  | Some x => negb (String.eqb x "")
  | None => false
  end.

Definition edgeLine (el : FlowEdge * option string) : string :=
  let '(edge, l) := el in
  let edgeLabel :=
    match l with
    | Some x =>
        if negb (String.eqb x "")
        then "|" +:+ quoteString +:+ escapeMermaidLabel x +:+ quoteString +:+ "|"
        else ""
    | None => ""
    end in
  let edgeStyle := getMermaidEdgeStyle (edgeType edge) in
  "  " +:+ from edge +:+ " -->" +:+ edgeLabel +:+ " " +:+ to edge
  +:+ edgeStyle +:+ lineBreakString.

(** [generateMermaidDiagram] *)
Definition generateMermaidDiagram (diagramType : DiagramType)
    (nodes : list FlowNode) (edges : list (FlowEdge * option string)) : string :=
  let mermaid := "graph " +:+ getMermaidDirection diagramType +:+ lineBreakString in
  let mermaid := fold_left (λ mermaid n, mermaid +:+ nodeLine n) nodes mermaid in
  fold_left (λ mermaid el, mermaid +:+ edgeLine el) edges mermaid.

(** The number of times a character occurs in a text. *)
Fixpoint occurrences (c : Ascii.ascii) (s : string) : nat :=
  match s with
  | EmptyString => 0
  | String x rest => (if Ascii.eqb x c then 1 else 0) + occurrences c rest
  end.

(** A text without a double quote and without a line break. *)
Definition isPlain (s : string) : Prop :=
  occurrences quote s = 0 ∧ occurrences lineBreak s = 0.

End FlowDiagramMermaid.

Module FlowDiagramViews.
Import Babel FlowDiagramGenerator.

(** The paths at which [generateComponentTree] adds a component. *)
Definition isComponentPath (path : NodePath) : bool :=
  let n := Some (node path) in
  if isFunctionDeclaration n then isReactComponent path
  else if isArrowFunctionExpression n then isReactComponent path
  else if isClassDeclaration n then isReactClassComponent path
  else false.

(** The name is empty or starts with an ASCII character, the ones on
    which [toUpperCase] is the upper-casing of the language. *)
Definition startsAscii (name : string) : bool :=
  match name with
  | EmptyString => true
  | String c _ => Nat.ltb (Ascii.nat_of_ascii c) 128
  end.

(** The paths at which [generateControlFlow] calls
    [analyzeFunctionControlFlow]. *)
Definition isFunctionPath (path : NodePath) : bool :=
  let n := Some (node path) in
  negb (isProgram n) && (isFunctionDeclaration n || isArrowFunctionExpression n).

(** The state of the control-flow synthesis, seen from the function
    nodes: [c] of them, each with an id that starts with [func_], and no
    edge to such an id. *)
Definition functionsApart (g : Graph) (c : nat) : Prop :=
  length (filter (λ n, nodeType n = t_function) (g_nodes g)) = c
  ∧ Forall (λ n, nodeType n = t_function → String.prefix "func_" (id n) = true)
           (g_nodes g)
  ∧ Forall (λ e, String.prefix "func_" (to e) = false) (g_edges g).

(** The id that the [k]-th assignment node of a data-flow synthesis
    gets: [`assign_${Date.now()}_${Math.random()}`]. *)
Definition assignmentIdOf (env : Env) (k : nat) : string :=
  "assign_" +:+ pretty (Date_now env k) +:+ "_" +:+ Math_random env k.

(** The ids of the assignment nodes added so far, in order. *)
Definition assignmentIds (s : DataFlowState) : list string :=
  id <$> filter (λ n, nodeType n = t_process) (g_nodes (df_graph s)).

(** The state of the data-flow synthesis, seen from the edges: each is a
    [data] edge from a [var_] id to an [assign_] id, there is one for
    each [process] node, and the map holds [var_] ids only. *)
Definition flowsOneStep (s : DataFlowState) : Prop :=
  Forall (λ e, edgeType e = Some e_data
               ∧ String.prefix "var_" (from e) = true
               ∧ String.prefix "assign_" (to e) = true)
         (g_edges (df_graph s))
  ∧ length (g_edges (df_graph s))
    = length (filter (λ n, nodeType n = t_process) (g_nodes (df_graph s)))
  ∧ ∀ nm varId, df_variableMap s !! nm = Some varId → varId = "var_" +:+ nm.

(** Every character of the text passes the test. *)
Fixpoint allCharacters (test : Ascii.ascii → bool) (s : string) : bool :=
  match s with
  | EmptyString => true
  | String c rest => test c && allCharacters test rest
  end.

(** A character that [/[^a-zA-Z0-9]/] leaves alone, or the underscore. *)
Definition isIdCharacter (c : Ascii.ascii) : bool :=
  isAlphanumeric c || Ascii.eqb c (Ascii.ascii_of_nat 95).

End FlowDiagramViews.

(** ** FunctionAnalyzer: the descriptors of functions

    The rest of the function analyzer.  The aliases [Statement] and
    [Expression] of the Babel type definitions are long tables that the
    sources do not contain; the tests [t.isStatement] and [t.isExpression]
    are variables of the section. *)

Module FunctionAnalysis.
Import Babel.

(** Access to children for walkers that return lists or other values. *)
Definition on_child {A} (f : Node -> A) (d : A) (k : string)
  : list (string * Node) -> A :=
  fix go l :=
    match l with
    | [] => d
    | (k', c) :: r => if String.eqb k k' then f c else go r
    end.

Definition gather_over {A} (f : Node -> list A) (k : string)
  : list (string * Node) -> list A :=
  fix go l :=
    match l with
    | [] => []
    | (k', c) :: r => (if String.eqb k k' then f c else []) ++ go r
    end.

Definition gather_at {A} (f : Node -> list A) (k : string)
  : list (string * Node) -> list A :=
  fix go l :=
    match l with
    | [] => []
    | (k', c) :: r => if String.eqb k k' then f c else go r
    end.

Definition newline : string := String (Ascii.ascii_of_nat 10) EmptyString.

(** [strings.join('\n')] *)
Definition joinLines (l : list string) : string := String.concat newline l.

(** [typeof v] *)
Definition typeofValue (v : JsValue) : string :=
  match v with
  | VUndefined => "undefined"
  | VNull => "object"
  | VBool _ => "boolean"
  | VNum _ => "number"
  | VDouble _ => "number"
  | VStr _ => "string"
  end.

Definition isMethod := is_one_of ["ObjectMethod"; "ClassMethod"; "ClassPrivateMethod"].
Definition isAssignmentPattern := is_a "AssignmentPattern".
Definition isRestElement := is_a "RestElement".
Definition isBinaryExpression := is_a "BinaryExpression".
Definition isTemplateLiteral := is_a "TemplateLiteral".

Record ParameterInfo := mkParameterInfo {
  paramName : string;                               (* [name] *)
  paramType : string;                               (* [type] *)
  optional : bool;
  defaultValue : option ComponentAnalyzer.DefaultValue;
  isRest : bool
}.

Record PerformanceMetrics := mkPerformanceMetrics {
  cyclomaticComplexity : nat;
  cognitiveComplexity : nat;
  nestingDepth : nat;
  parameterCount : nat;
  localVariableCount : nat;
  statementCount : nat;
  expressionCount : nat;
  conditionCount : nat;
  loopCount : nat;
  recursiveCallCount : nat;
  maxCallDepth : nat;
  avgCallDepth : nat
}.

Record FunctionInfo := mkFunctionInfo {
  name : string;
  functionType : string;                            (* [type] *)
  parameters : list ParameterInfo;
  returnType : string;
  body : string;
  isAsync : JsValue;
  isGenerator : JsValue;
  isArrow : bool;
  isMethodFlag : bool;                              (* [isMethod] *)
  isStatic : JsValue;
  isPrivate : bool;
  isExportedFlag : bool;                            (* [isExported] *)
  isImported : bool;
  line : nat;
  column : nat;
  complexity : nat;
  callCount : nat;
  callers : list string;
  performance : PerformanceMetrics
}.

(** [getFunctionName] *)
Definition getFunctionName (node : Node) (path : NodePath) : string :=
  let idName (x : option Node) :=
    match x with Some i => name_of i | None => "anonymous" end in
  if isFunctionDeclaration (Some node) && bool_decide (is_Some (get "id" node)) then
    idName (get "id" node)
  else if isArrowFunctionExpression (Some node) || isFunctionExpression (Some node) then
    match parent path with
    | Some d =>
        if isVariableDeclarator (Some d) && isIdentifier (get "id" d) then
          idName (get "id" d)
        else if isAssignmentExpression (Some d) && isIdentifier (get "left" d) then
          idName (get "left" d)
        else "anonymous"
    | None => "anonymous"
    end
  else if isMethod (Some node) && isIdentifier (get "key" node) then
    idName (get "key" node)
  else "anonymous".

(** [inferParameterType] *)
Fixpoint inferParameterType (param : Node) : string :=
  if isIdentifier (Some param) then "any"
  else if isAssignmentPattern (Some param) then
    on_child inferParameterType "any" "left" (kids param)
  else if isRestElement (Some param) then "array"
  else "any".

(** [extractDefaultValue] *)
Definition extractDefaultValue (n : option Node) : ComponentAnalyzer.DefaultValue :=
  if isLiteral n then
    match n with
    | Some x => ComponentAnalyzer.Scalar (attr "value" x)
    | None => ComponentAnalyzer.Scalar VUndefined
    end
  else if isArrayExpression n then ComponentAnalyzer.EmptyArray
  else if isObjectExpression n then ComponentAnalyzer.EmptyObject
  else ComponentAnalyzer.Scalar VUndefined.

(** One round of the loop of [analyzeParameters]. *)
Definition parameterOf (param : Node) : option ParameterInfo :=
  if isIdentifier (Some param) then
    Some {| paramName := name_of param;
            paramType := inferParameterType param;
            optional := false;
            defaultValue := None;
            isRest := false |}
  else if isAssignmentPattern (Some param) then
    Some {| paramName :=
              match get "left" param with
              | Some l => if isIdentifier (Some l) then name_of l else "destructured"
              | None => "destructured"
              end;
            paramType :=
              match get "left" param with
              | Some l => inferParameterType l
              | None => "any"
              end;
            optional := true;
            defaultValue := Some (extractDefaultValue (get "right" param));
            isRest := false |}
  else if isRestElement (Some param) then
    Some {| paramName :=
              match get "argument" param with
              | Some x => if isIdentifier (Some x) then name_of x else "rest"
              | None => "rest"
              end;
            paramType := "array";
            optional := false;
            defaultValue := None;
            isRest := true |}
  else None.

(** [analyzeParameters] *)
Definition analyzeParameters (node : Node) : list ParameterInfo :=
  omap parameterOf (get_all "params" node).

(** [inferExpressionType] *)
Fixpoint inferExpressionType (node : Node) : string :=
  let n := Some node in
  if isLiteral n then typeofValue (attr "value" node)
  else if isStringLiteral n then "string"
  else if isNumericLiteral n then "number"
  else if isBooleanLiteral n then "boolean"
  else if isArrayExpression n then "array"
  else if isObjectExpression n then "object"
  else if isFunctionExpression n || isArrowFunctionExpression n then "function"
  else if isBinaryExpression n then
    if bool_decide (attr "operator" node = VStr "+") then
      let leftType := on_child inferExpressionType "any" "left" (kids node) in
      let rightType := on_child inferExpressionType "any" "right" (kids node) in
      if String.eqb leftType "string" || String.eqb rightType "string" then "string"
      else if String.eqb leftType "number" && String.eqb rightType "number" then "number"
      else "any"
    else "any"
  else if isTemplateLiteral n then "string"
  else if isCallExpression n then
    match get "callee" node with
    | Some callee =>
        if isMemberExpression (Some callee) then
          match get "property" callee with
          | Some property =>
              if isIdentifier (Some property) then
                if String.eqb (name_of property) "json" then "object"
                else if String.eqb (name_of property) "toString" then "string"
                else "any"
              else "any"
          | None => "any"
          end
        else "any"
    | None => "any"
    end
  else "any".

(** [findReturnStatements]: the statements handed to the callback. *)
Fixpoint findReturnStatements (node : Node) : list Node :=
  let n := Some node in
  if isReturnStatement n then [node]
  else if isBlockStatement n then gather_over findReturnStatements "body" (kids node)
  else if isIfStatement n then
    gather_at findReturnStatements "consequent" (kids node)
    ++ gather_at findReturnStatements "alternate" (kids node)
  else if isForStatement n || isWhileStatement n || isDoWhileStatement n then
    gather_at findReturnStatements "body" (kids node)
  else [].

(** [inferReturnType]: each return statement found overwrites the type. *)
Definition inferReturnType (node : Node) : string :=
  match get "body" node with
  | None => "void"
  | Some body =>
      fold_left
        (λ returnType returnNode,
           match get "argument" returnNode with
           | Some argument => inferExpressionType argument
           | None => inferExpressionType body
           end)
        (findReturnStatements body) "void"
  end.

(** [extractFunctionBody]; a node without a body makes [nodeToString]
    read [type] of [undefined]. *)
Definition extractFunctionBody (node : Node) : Result string :=
  match get "body" node with
  | Some body =>
      if isBlockStatement (Some body)
      then Ok (joinLines (type <$> get_all "body" body))
      else Ok (type body)
  | None => Throw (Error "Cannot read properties of undefined (reading 'type')")
  end.

Definition isTopLevelArrowFunction (path : NodePath) : bool :=
  isVariableDeclarator (parent path) || isAssignmentExpression (parent path).

Definition isTopLevelFunctionExpression (path : NodePath) : bool :=
  isVariableDeclarator (parent path) || isAssignmentExpression (parent path).

(** [isStaticMethod]: [t.isMethod(path.node) && path.node.static] *)
Definition isStaticMethod (path : NodePath) : JsValue :=
  if isMethod (Some (node path)) then attr "static" (node path) else VBool false.

Definition isPrivateMethod (name : string) : bool :=
  String.prefix "_" name || String.prefix "#" name.

(** [isExported]: the loop starts at [path.parent]. *)
Definition isExported (path : NodePath) : bool :=
  match climb (fun currentPath =>
                 if isExportNamedDeclaration (dot_node currentPath)
                    || isExportDefaultDeclaration (dot_node currentPath)
                 then Some true else None)
              (RNode <$> parent path) with
  | Some b => b
  | None => false
  end.

(** [findCallerFunction]: the loop starts at [path.parent]. *)
Definition findCallerFunction (path : NodePath) : option string :=
  climb (fun currentPath =>
           match dot_node currentPath with
           | Some n =>
               if isFunctionDeclaration (Some n) && bool_decide (is_Some (get "id" n)) then
                 match get "id" n with
                 | Some i => Some (name_of i)
                 | None => None
                 end
               else if isFunctionExpression (Some n)
                       || isArrowFunctionExpression (Some n) then
                 match as_node <$> dot_parent currentPath with
                 | Some d =>
                     if isVariableDeclarator (Some d) && isIdentifier (get "id" d) then
                       match get "id" d with
                       | Some i => Some (name_of i)
                       | None => None
                       end
                     else None
                 | None => None
                 end
               else None
           | None => None
           end)
        (RNode <$> parent path).

(** The callbacks of [analyzePerformanceNodes]. *)
Inductive PerformanceEvent :=
| onIfStatement | onConditionalExpression | onSwitchStatement
| onForStatement | onForInStatement | onForOfStatement
| onWhileStatement | onDoWhileStatement | onCatchClause
| onVariableDeclarator | onStatement | onExpression.

Section Aliases.
Variable isStatement : Node -> bool.
Variable isExpression : Node -> bool.

(** [analyzePerformanceNodes]: the callbacks invoked, in order. *)
Fixpoint analyzePerformanceNodes (node : Node) : list PerformanceEvent :=
  let n := Some node in
  (if isIfStatement n then [onIfStatement]
   else if isConditionalExpression n then [onConditionalExpression]
   else if isSwitchStatement n then [onSwitchStatement]
   else if isForStatement n then [onForStatement]
   else if isForInStatement n then [onForInStatement]
   else if isForOfStatement n then [onForOfStatement]
   else if isWhileStatement n then [onWhileStatement]
   else if isDoWhileStatement n then [onDoWhileStatement]
   else if isCatchClause n then [onCatchClause]
   else if isVariableDeclarator n then [onVariableDeclarator]
   else if isStatement node then [onStatement]
   else if isExpression node then [onExpression]
   else [])
  ++
  (if isBlockStatement n then gather_over analyzePerformanceNodes "body" (kids node)
   else if isIfStatement n then
     gather_at analyzePerformanceNodes "consequent" (kids node)
     ++ gather_at analyzePerformanceNodes "alternate" (kids node)
   else if isForStatement n || isWhileStatement n || isDoWhileStatement n then
     gather_at analyzePerformanceNodes "body" (kids node)
   else if isSwitchStatement n then
     gather_over analyzePerformanceNodes "cases" (kids node)
   else []).

(** What a callback does to the counters. *)
Definition count (m : PerformanceMetrics) (e : PerformanceEvent) : PerformanceMetrics :=
  let bump (cyclomatic local statements expressions conditions loops : nat) :=
    {| cyclomaticComplexity := cyclomaticComplexity m + cyclomatic;
       cognitiveComplexity := cognitiveComplexity m;
       nestingDepth := nestingDepth m;
       parameterCount := parameterCount m;
       localVariableCount := localVariableCount m + local;
       statementCount := statementCount m + statements;
       expressionCount := expressionCount m + expressions;
       conditionCount := conditionCount m + conditions;
       loopCount := loopCount m + loops;
       recursiveCallCount := recursiveCallCount m;
       maxCallDepth := maxCallDepth m;
       avgCallDepth := avgCallDepth m |} in
  match e with
  | onIfStatement | onConditionalExpression | onSwitchStatement => bump 1 0 0 0 1 0
  | onForStatement | onForInStatement | onForOfStatement
  | onWhileStatement | onDoWhileStatement => bump 1 0 0 0 0 1
  | onCatchClause => bump 1 0 0 0 0 0
  | onVariableDeclarator => bump 0 1 0 0 0 0
  | onStatement => bump 0 0 1 0 0 0
  | onExpression => bump 0 0 0 1 0 0
  end.

(** [calculatePerformanceMetrics] *)
Definition calculatePerformanceMetrics (node : Node) : PerformanceMetrics :=
  fold_left count (analyzePerformanceNodes node)
    {| cyclomaticComplexity := 1;
       cognitiveComplexity := 0;
       nestingDepth := 0;
       parameterCount := length (get_all "params" node);
       localVariableCount := 0;
       statementCount := 0;
       expressionCount := 0;
       conditionCount := 0;
       loopCount := 0;
       recursiveCallCount := 0;
       maxCallDepth := 0;
       avgCallDepth := 0 |}.

(** [createFunctionInfo] *)
Definition createFunctionInfo (path : NodePath) (ty : string) : Result FunctionInfo :=
  let node := node path in
  let name := getFunctionName node path in
  body <- extractFunctionBody node ;;
  Ok {| name := name;
        functionType := ty;
        parameters := analyzeParameters node;
        returnType := inferReturnType node;
        body := body;
        isAsync := js_or (attr "async" node) (VBool false);
        isGenerator := js_or (attr "generator" node) (VBool false);
        isArrow := isArrowFunctionExpression (Some node);
        isMethodFlag := isMethod (Some node);
        isStatic := isStaticMethod path;
        isPrivate := isPrivateMethod name;
        isExportedFlag := isExported path;
        isImported := false;
        line := start_line node;
        column := start_column node;
        complexity := FunctionAnalyzer.calculateComplexity node;
        callCount := 0;
        callers := [];
        performance := calculatePerformanceMetrics node |}.

(** The visitors of the first traversal of [analyzeFunctions]; [None]
    when the node is not recorded. *)
Definition functionKind (path : NodePath) : option string :=
  let n := Some (node path) in
  if isFunctionDeclaration n then Some "function"
  else if isArrowFunctionExpression n then
    if isTopLevelArrowFunction path then Some "arrow" else None
  else if isFunctionExpression n then
    if isTopLevelFunctionExpression path then Some "function" else None
  else if isMethod n then Some "method"
  else None.

Definition functionVisitor (path : NodePath) (functions : list FunctionInfo)
  : Result (list FunctionInfo) :=
  match functionKind path with
  | Some ty =>
      functionInfo <- createFunctionInfo path ty ;;
      Ok (functions ++ [functionInfo])
  | None => Ok functions
  end.

(** [new Map(functions.map(f => [f.name, f]))]: the map holds the index
    of the descriptor it refers to; a later entry replaces an earlier one
    of the same name. *)
Definition functionMapOf (functions : list FunctionInfo) : gmap string nat :=
  fold_left (λ m '(i, f), <[name f := i]> m) (imap (λ i f, (i, f)) functions) ∅.

(** The name under which a call looks its function up. *)
Definition calleeName (callNode : Node) : option string :=
  match get "callee" callNode with
  | Some callee =>
      if isIdentifier (Some callee) then Some (name_of callee)
      else if isMemberExpression (Some callee) && isIdentifier (get "property" callee) then
        match get "property" callee with
        | Some property => Some (name_of property)
        | None => None
        end
      else None
  | None => None
  end.

(** [func.callCount++] and the recording of the caller. *)
Definition recordCall (caller : option string) (f : FunctionInfo) : FunctionInfo :=
  {| name := name f;
     functionType := functionType f;
     parameters := parameters f;
     returnType := returnType f;
     body := body f;
     isAsync := isAsync f;
     isGenerator := isGenerator f;
     isArrow := isArrow f;
     isMethodFlag := isMethodFlag f;
     isStatic := isStatic f;
     isPrivate := isPrivate f;
     isExportedFlag := isExportedFlag f;
     isImported := isImported f;
     line := line f;
     column := column f;
     complexity := complexity f;
     callCount := S (callCount f);
     callers :=
       match caller with
       | Some c =>
           if negb (String.eqb c "") && negb (bool_decide (c ∈ callers f))
           then callers f ++ [c] else callers f
       | None => callers f
       end;
     performance := performance f |}.

Definition callVisitor (functionMap : gmap string nat) (path : NodePath)
    (functions : list FunctionInfo) : list FunctionInfo :=
  if isCallExpression (Some (node path)) then
    match calleeName (node path) with
    | Some functionName =>
        if negb (String.eqb functionName "") then
          match functionMap !! functionName with
          | Some i => alter (recordCall (findCallerFunction path)) i functions
          | None => functions
          end
        else functions
    | None => functions
    end
  else functions.

(** [analyzeFunctionUsage] *)
Definition analyzeFunctionUsage (ast : Node) (functions : list FunctionInfo)
  : Result (list FunctionInfo) :=
  paths <- traverse ast ;;
  Ok (run (callVisitor (functionMapOf functions)) paths functions).

(** [analyzeFunctions] *)
Definition analyzeFunctions (ast : Node) : Result (list FunctionInfo) :=
  paths <- traverse ast ;;
  functions <- run_throwing functionVisitor paths [] ;;
  analyzeFunctionUsage ast functions.

End Aliases.

(** A call that looks the name [functionName] up. *)
Definition callsNamed (functionName : string) (p : NodePath) : bool :=
  isCallExpression (Some (node p))
  && bool_decide (calleeName (node p) = Some functionName)
  && negb (String.eqb functionName "").

Definition callsOf (functionName : string) (paths : list NodePath) : nat :=
  length (filter (λ p, callsNamed functionName p = true) paths).

End FunctionAnalysis.

(** ** ComponentAnalyzer: the descriptors of components

    The current version of the component analyzer, around its
    [analyzeState].  The fields of a descriptor that are constants
    ([children], [performance], ...) or functions of the name and the
    file path alone ([isPage], [isSFC], ...) are left out. *)

Module ComponentAnalysis.
Import Babel.

Definition isJSXElement := is_a "JSXElement".
Definition isJSXFragment := is_a "JSXFragment".
Definition isJSXExpressionContainer := is_a "JSXExpressionContainer".
Definition isObjectProperty := is_a "ObjectProperty".
Definition isExpressionStatement := is_a "ExpressionStatement".
Definition isImportDeclaration := is_a "ImportDeclaration".
Definition isAssignmentPattern := is_a "AssignmentPattern".
Definition isMethod := is_one_of ["ObjectMethod"; "ClassMethod"; "ClassPrivateMethod"].

(** What [table[key] || fallback] gives for an object literal [table]:
    an entry of the table or the fallback, or, when [key] names a member
    that every object inherits, that member. *)
Inductive Looked :=
| Entry (s : string)
| Inherited (member : string).

#[global] Instance Looked_eq_dec : EqDecision Looked.
Proof. solve_decision. Defined.

Definition objectPrototypeMembers : list string :=
  ["constructor"; "hasOwnProperty"; "isPrototypeOf"; "propertyIsEnumerable";
   "toLocaleString"; "toString"; "valueOf"; "__proto__";
   "__defineGetter__"; "__defineSetter__"; "__lookupGetter__"; "__lookupSetter__"].

(** The statements of [node.body.body] when [node.body] is a block, for
    a walker [f]. *)
Definition gather_block {A} (f : Node -> list A) (ks : list (string * Node)) : list A :=
  FunctionAnalysis.gather_at
    (fun b => if isBlockStatement (Some b)
              then FunctionAnalysis.gather_over f "body" (kids b) else [])
    "body" ks.

(** The same for an arrow function, whose body may be an expression. *)
Definition gather_arrow {A} (f : Node -> list A) (ks : list (string * Node)) : list A :=
  FunctionAnalysis.gather_at
    (fun b => if isBlockStatement (Some b)
              then FunctionAnalysis.gather_over f "body" (kids b) else f b)
    "body" ks.

(** [for (const declarator of node.declarations)
      if (declarator.init) f(declarator.init)] *)
Definition gather_inits {A} (f : Node -> list A) (ks : list (string * Node)) : list A :=
  FunctionAnalysis.gather_over
    (fun declarator => FunctionAnalysis.gather_at f "init" (kids declarator))
    "declarations" ks.

(** [x && x.length > 0 && x[0] === x[0]?.toUpperCase()] *)
Definition startsUpperCase (x : JsValue) : bool :=
  match x with
  | VStr s => negb (String.eqb s "") && FlowDiagramGenerator.firstIsUpperCase s
  | _ => false
  end.

(** [getComponentName] *)
Definition getComponentName (node : Node) (path : NodePath) : string :=
  let idName (x : option Node) :=
    match x with Some i => name_of i | None => "Anonymous" end in
  if isFunctionDeclaration (Some node) && bool_decide (is_Some (get "id" node)) then
    idName (get "id" node)
  else if isArrowFunctionExpression (Some node) || isFunctionExpression (Some node) then
    match parent path with
    | Some d =>
        if isVariableDeclarator (Some d) && isIdentifier (get "id" d) then
          idName (get "id" d)
        else if isAssignmentExpression (Some d) && isIdentifier (get "left" d) then
          idName (get "left" d)
        else "Anonymous"
    | None => "Anonymous"
    end
  else if isClassDeclaration (Some node) && bool_decide (is_Some (get "id" node)) then
    idName (get "id" node)
  else if isVariableDeclarator (Some node) && isIdentifier (get "id" node) then
    idName (get "id" node)
  else "Anonymous".

(** [findJSXNodes]: one entry for each call of the callback. *)
Fixpoint findJSXNodes (node : Node) : list unit :=
  let n := Some node in
  if isJSXElement n || isJSXFragment n then [()]
  else if isBlockStatement n then
    FunctionAnalysis.gather_over findJSXNodes "body" (kids node)
  else if isIfStatement n then
    FunctionAnalysis.gather_at findJSXNodes "consequent" (kids node)
    ++ FunctionAnalysis.gather_at findJSXNodes "alternate" (kids node)
  else if isForStatement n || isWhileStatement n || isDoWhileStatement n then
    FunctionAnalysis.gather_at findJSXNodes "body" (kids node)
  else if isReturnStatement n && bool_decide (is_Some (get "argument" node)) then
    FunctionAnalysis.gather_at findJSXNodes "argument" (kids node)
  else if isConditionalExpression n then
    FunctionAnalysis.gather_at findJSXNodes "consequent" (kids node)
    ++ FunctionAnalysis.gather_at findJSXNodes "alternate" (kids node)
  else if isArrowFunctionExpression n then gather_arrow findJSXNodes (kids node)
  else if isFunctionExpression n then gather_block findJSXNodes (kids node)
  else [].

(** [returnsJSX] *)
Definition returnsJSX (node : Node) : bool :=
  match findJSXNodes node with [] => false | _ => true end.

(** [isReactComponent] *)
Definition isReactComponent (path : NodePath) : bool :=
  let node := node path in
  if isArrowFunctionExpression (Some node) then
    if isJSXExpressionContainer (parent path) then false
    else if isVariableDeclarator (parent path) then
      let varName :=
        match parent path with
        | Some d => match get "id" d with Some i => attr "name" i | None => VUndefined end
        | None => VUndefined
        end in
      startsUpperCase varName
    else returnsJSX node
  else
    let name := getComponentName node path in
    if startsUpperCase (VStr name) then true else returnsJSX node.

(** [isCustomHook] *)
Definition isCustomHook (name : string) : bool :=
  String.prefix "use" name && (3 <? String.length name).

(** [isCustomHookComponent] *)
Definition isCustomHookComponent (path : NodePath) : bool :=
  isCustomHook (getComponentName (node path) path).

(** [isReactClassComponent] *)
Definition isReactClassComponent (path : NodePath) : bool :=
  let node := node path in
  if isClassDeclaration (Some node) then
    match get "superClass" node with
    | Some sup =>
        if isMemberExpression (Some sup) then
          isIdentifier (get "object" sup)
          && match get "object" sup with
             | Some o => bool_decide (attr "name" o = VStr "React")
             | None => false
             end
          && isIdentifier (get "property" sup)
          && match get "property" sup with
             | Some q => bool_decide (attr "name" q = VStr "Component")
             | None => false
             end
        else if isIdentifier (Some sup) then
          bool_decide (attr "name" sup = VStr "Component")
        else false
    | None => false
    end
  else false.

(** [findReturnStatements]: the statements handed to the callback. *)
Fixpoint findReturnStatements (node : Node) : list Node :=
  let n := Some node in
  if isReturnStatement n then [node]
  else if isBlockStatement n then
    FunctionAnalysis.gather_over findReturnStatements "body" (kids node)
  else if isIfStatement n then
    FunctionAnalysis.gather_at findReturnStatements "consequent" (kids node)
    ++ FunctionAnalysis.gather_at findReturnStatements "alternate" (kids node)
  else if isForStatement n || isWhileStatement n || isDoWhileStatement n then
    FunctionAnalysis.gather_at findReturnStatements "body" (kids node)
  else if isArrowFunctionExpression n then gather_arrow findReturnStatements (kids node)
  else if isFunctionExpression n then gather_block findReturnStatements (kids node)
  else if isFunctionDeclaration n then gather_block findReturnStatements (kids node)
  else [].

(** [isHigherOrderComponent] *)
Definition isHigherOrderComponent (node : Node) : bool :=
  existsb
    (fun returnNode =>
       let argument := get "argument" returnNode in
       isJSXElement argument || isJSXFragment argument
       || isCallExpression argument
       || isFunctionExpression argument || isArrowFunctionExpression argument)
    (findReturnStatements node).

(** [isExported] and [isDefaultExport]: both follow [parentPath]. *)
Fixpoint isExported (path : NodePath) : bool :=
  match path with
  | mkPath n _ pp =>
      if isExportNamedDeclaration (Some n) || isExportDefaultDeclaration (Some n)
      then true
      else match pp with
           | Some q => isExported q
           | None => false
           end
  end.

Fixpoint isDefaultExport (path : NodePath) : bool :=
  match path with
  | mkPath n _ pp =>
      if isExportDefaultDeclaration (Some n) then true
      else match pp with
           | Some q => isDefaultExport q
           | None => false
           end
  end.

(** [detectFramework]; the source of an import is a string literal. *)
Definition frameworkVisitor (path : NodePath) (framework : string) : string :=
  if isImportDeclaration (Some (node path)) then
    let source :=
      match get "source" (node path) with
      | Some src => to_string (attr "value" src)
      | None => "undefined"
      end in
    if String.eqb source "react" || String.prefix "react/" source then "react"
    else if String.eqb source "vue" || String.prefix "vue/" source then "vue"
    else if String.prefix "@angular/" source then "angular"
    else framework
  else framework.

Definition detectFramework (ast : Node) : string :=
  run frameworkVisitor (ComponentAnalyzer.traverseAST ast) "other".

(** *** Props *)

Record PropDefinition := mkPropDefinition {
  propName : string;                                (* [name] *)
  propType : string;                                (* [type] *)
  required : bool;
  propLocation : Position;                          (* [location] *)
  propDefault : option ComponentAnalyzer.DefaultValue  (* [defaultValue] *)
}.

Record ComponentProps := mkComponentProps {
  propDefinitions : list PropDefinition;            (* [definitions] *)
  requiredNames : list string;                      (* [required] *)
  optionalNames : list string;                      (* [optional] *)
  propTypes : gmap string string                    (* [types] *)
}.

(** [inferPropType] *)
Definition inferPropType (prop : Node) : string :=
  let value := get "value" prop in
  if isAssignmentPattern value then
    ComponentAnalyzer.inferValueType
      (match value with Some v => get "right" v | None => None end)
  else if isFunctionExpression value || isArrowFunctionExpression value then "function"
  else if isIdentifier value then
    let valueName := match value with Some v => name_of v | None => "" end in
    if String.prefix "on" valueName || String.prefix "handle" valueName
    then "function" else "any"
  else "any".

(** One round of the loop over [propsParam.properties]. *)
Definition addProp (s : ComponentProps) (prop : Node) : ComponentProps :=
  if isObjectProperty (Some prop) && isIdentifier (get "key" prop) then
    let propName := match get "key" prop with Some k => name_of k | None => "" end in
    let propType := inferPropType prop in
    let value := get "value" prop in
    let propDef :=
      {| propName := propName;
         propType := propType;
         required := negb (truthy (attr "optional" prop)) && negb (isAssignmentPattern value);
         propLocation := mkPos (start_line prop) (start_column prop);
         propDefault :=
           if isAssignmentPattern value then
             Some (ComponentAnalyzer.extractDefaultValue
                     (match value with Some v => get "right" v | None => None end))
           else None |} in
    {| propDefinitions := propDefinitions s ++ [propDef];
       requiredNames :=
         if truthy (attr "optional" prop) then requiredNames s
         else requiredNames s ++ [propName];
       optionalNames :=
         if truthy (attr "optional" prop) then optionalNames s ++ [propName]
         else optionalNames s;
       propTypes := setOwn propName propType (propTypes s) |}
  else s.

(** [analyzeProps] *)
Definition analyzeProps (node : Node) : ComponentProps :=
  let empty := mkComponentProps [] [] [] ∅ in
  match get_all "params" node with
  | propsParam :: _ =>
      if isObjectPattern (Some propsParam)
      then fold_left addProp (get_all "properties" propsParam) empty
      else empty
  | [] => empty
  end.

(** *** Lifecycle *)

Record LifecycleMethod := mkLifecycleMethod {
  methodName : string;                              (* [name] *)
  phase : Looked;
  methodBody : string;                              (* [body] *)
  methodIsAsync : JsValue;                          (* [isAsync] *)
  methodLocation : Position                         (* [location] *)
}.

(** [findLifecycleMethods]: the nodes handed to the callback. *)
Fixpoint findLifecycleMethods (node : Node) : list Node :=
  let n := Some node in
  (if isMethod n then [node] else [])
  ++
  (if isBlockStatement n then
     FunctionAnalysis.gather_over findLifecycleMethods "body" (kids node)
   else if isIfStatement n then
     FunctionAnalysis.gather_at findLifecycleMethods "consequent" (kids node)
     ++ FunctionAnalysis.gather_at findLifecycleMethods "alternate" (kids node)
   else if isForStatement n || isWhileStatement n || isDoWhileStatement n then
     FunctionAnalysis.gather_at findLifecycleMethods "body" (kids node)
   else []).

(** [getLifecyclePhase] *)
Definition getLifecyclePhase (methodName : string) : Looked :=
  if String.eqb methodName "componentDidMount" then Entry "mounting"
  else if String.eqb methodName "componentDidUpdate" then Entry "updating"
  else if String.eqb methodName "componentWillUnmount" then Entry "unmounting"
  else if String.eqb methodName "componentDidCatch" then Entry "error"
  else if String.eqb methodName "getDerivedStateFromProps" then Entry "updating"
  else if String.eqb methodName "shouldComponentUpdate" then Entry "updating"
  else if String.eqb methodName "getSnapshotBeforeUpdate" then Entry "updating"
  else if bool_decide (methodName ∈ objectPrototypeMembers) then Inherited methodName
  else Entry "other".

(** [extractMethodBody]; a node without a body makes it read [type] of
    [undefined]. *)
Definition extractMethodBody (node : Node) : Result string :=
  match get "body" node with
  | Some body =>
      if isBlockStatement (Some body)
      then Ok (FunctionAnalysis.joinLines (type <$> get_all "body" body))
      else Ok (type body)
  | None => Throw (Error "Cannot read properties of undefined (reading 'type')")
  end.

Definition lifecycleCallback (methodNode : Node) (lifecycle : list LifecycleMethod)
  : Result (list LifecycleMethod) :=
  let methodName :=
    match get "key" methodNode with
    | Some k => if isIdentifier (Some k) then name_of k else ""
    | None => ""
    end in
  let phase := getLifecyclePhase methodName in
  if negb (bool_decide (phase = Entry "other")) then
    body <- extractMethodBody methodNode ;;
    Ok (lifecycle ++
        [{| methodName := methodName;
            phase := phase;
            methodBody := body;
            methodIsAsync := js_or (attr "async" methodNode) (VBool false);
            methodLocation := mkPos (start_line methodNode) (start_column methodNode) |}])
  else Ok lifecycle.

(** A callback that may throw, over the nodes a walker hands to it. *)
Fixpoint each {S} (callback : Node -> S -> Result S) (found : list Node) (s : S)
  : Result S :=
  match found with
  | [] => Ok s
  | x :: rest => s' <- callback x s ;; each callback rest s'
  end.

(** [analyzeLifecycle] *)
Definition analyzeLifecycle (node : Node) : Result (list LifecycleMethod) :=
  each lifecycleCallback (findLifecycleMethods node) [].

(** *** Hooks *)

(** What [extractArgumentValue] returns. *)
Inductive ArgumentValue :=
| ArgScalar (v : JsValue)
| ArgArray (elements : list ArgumentValue)
| ArgObject.

Definition map_over {A} (f : Node -> A) (k : string) : list (string * Node) -> list A :=
  fix go l :=
    match l with
    | [] => []
    | (k', c) :: r => if String.eqb k k' then f c :: go r else go r
    end.

(** [extractArgumentValue] *)
Fixpoint extractArgumentValue (arg : Node) : ArgumentValue :=
  if isLiteral (Some arg) then ArgScalar (attr "value" arg)
  else if isArrayExpression (Some arg) then
    ArgArray (map_over extractArgumentValue "elements" (kids arg))
  else if isObjectExpression (Some arg) then ArgObject
  else ArgScalar VUndefined.

(** [extractHookDependencies] *)
Definition extractHookDependencies (args : list Node) : list string :=
  match args with
  | _ :: second :: _ =>
      if isArrayExpression (Some second)
      then name_of <$> filter (fun el => isIdentifier (Some el) = true)
                              (get_all "elements" second)
      else []
  | _ => []
  end.

Record HookUsage := mkHookUsage {
  hookName : string;                                (* [name] *)
  hookType : Looked;                                (* [type] *)
  hookParameters : list ArgumentValue;              (* [parameters] *)
  hookLocation : Position;                          (* [location] *)
  hookDependencies : list string;                   (* [dependencies] *)
  isCustom : bool
}.

Definition builtInHooks : list string :=
  ["useState"; "useEffect"; "useContext"; "useReducer"; "useCallback"; "useMemo";
   "useRef"; "useImperativeHandle"; "useLayoutEffect"; "useDebugValue"].

(** [isReactHook] *)
Definition isReactHook (name : string) : bool :=
  String.prefix "use" name && (3 <? String.length name).

(** [getHookType] *)
Definition getHookType (name : string) : Looked :=
  if String.eqb name "useState" then Entry "useState"
  else if String.eqb name "useEffect" then Entry "useEffect"
  else if String.eqb name "useContext" then Entry "useContext"
  else if String.eqb name "useReducer" then Entry "useReducer"
  else if String.eqb name "useCallback" then Entry "useCallback"
  else if String.eqb name "useMemo" then Entry "useMemo"
  else if String.eqb name "useRef" then Entry "useRef"
  else if String.eqb name "useImperativeHandle" then Entry "useImperativeHandle"
  else if String.eqb name "useLayoutEffect" then Entry "useLayoutEffect"
  else if String.eqb name "useDebugValue" then Entry "useDebugValue"
  else if bool_decide (name ∈ objectPrototypeMembers) then Inherited name
  else Entry "custom".

(** [isBuiltInHook] *)
Definition isBuiltInHook (name : string) : bool :=
  bool_decide (name ∈ builtInHooks).

(** [findHookCalls]: the calls handed to the callback. *)
Fixpoint findHookCalls (node : Node) : list Node :=
  let n := Some node in
  (if isCallExpression n && isIdentifier (get "callee" node) then [node] else [])
  ++
  (if isBlockStatement n then
     FunctionAnalysis.gather_over findHookCalls "body" (kids node)
   else if isIfStatement n then
     FunctionAnalysis.gather_at findHookCalls "consequent" (kids node)
     ++ FunctionAnalysis.gather_at findHookCalls "alternate" (kids node)
   else if isForStatement n || isWhileStatement n || isDoWhileStatement n then
     FunctionAnalysis.gather_at findHookCalls "body" (kids node)
   else if isReturnStatement n && bool_decide (is_Some (get "argument" node)) then
     FunctionAnalysis.gather_at findHookCalls "argument" (kids node)
   else if isConditionalExpression n then
     FunctionAnalysis.gather_at findHookCalls "consequent" (kids node)
     ++ FunctionAnalysis.gather_at findHookCalls "alternate" (kids node)
   else if isArrowFunctionExpression n then gather_arrow findHookCalls (kids node)
   else if isFunctionExpression n then gather_block findHookCalls (kids node)
   else if isFunctionDeclaration n then gather_block findHookCalls (kids node)
   else if isVariableDeclaration n then gather_inits findHookCalls (kids node)
   else if isVariableDeclarator n then
     FunctionAnalysis.gather_at findHookCalls "init" (kids node)
   else if isExpressionStatement n then
     FunctionAnalysis.gather_at findHookCalls "expression" (kids node)
   else []).

(** The callback of [analyzeHooks]. *)
Definition hookOf (callNode : Node) : option HookUsage :=
  match get "callee" callNode with
  | Some callee =>
      if isIdentifier (Some callee) then
        let hookName := name_of callee in
        if isReactHook hookName then
          Some {| hookName := hookName;
                  hookType := getHookType hookName;
                  hookParameters := extractArgumentValue <$> get_all "arguments" callNode;
                  hookLocation := mkPos (start_line callNode) (start_column callNode);
                  hookDependencies :=
                    extractHookDependencies (get_all "arguments" callNode);
                  isCustom := negb (isBuiltInHook hookName) |}
        else None
      else None
  | None => None
  end.

(** [analyzeHooks] *)
Definition analyzeHooks (node : option Node) : list HookUsage :=
  match node with
  | Some n => omap hookOf (findHookCalls n)
  | None => []
  end.

(** *** Event handlers *)

Record EventHandler := mkEventHandler {
  handlerName : string;                             (* [name] *)
  eventType : string;
  handler : string;
  handlerIsAsync : JsValue;                         (* [isAsync] *)
  handlerLocation : Position                        (* [location] *)
}.

(** [isEventHandler] *)
Definition isEventHandler (name : string) : bool :=
  String.prefix "handle" name || String.prefix "on" name
  || FrontendCodeAnalyzer.includes "Click" name
  || FrontendCodeAnalyzer.includes "Change" name
  || FrontendCodeAnalyzer.includes "Submit" name.

(** [extractEventType] *)
Definition extractEventType (name : string) : string :=
  if FrontendCodeAnalyzer.includes "Click" name then "click"
  else if FrontendCodeAnalyzer.includes "Change" name then "change"
  else if FrontendCodeAnalyzer.includes "Submit" name then "submit"
  else if FrontendCodeAnalyzer.includes "Focus" name then "focus"
  else if FrontendCodeAnalyzer.includes "Blur" name then "blur"
  else "unknown".

(** [funcNode.id?.name || ''], for an identifier. *)
Definition idNameOrEmpty (funcNode : Node) : string :=
  match get "id" funcNode with
  | Some i => to_string (js_or (attr "name" i) (VStr ""))
  | None => ""
  end.

Definition makeHandler (funcName : string) (func at_ : Node) : Result EventHandler :=
  body <- extractMethodBody func ;;
  Ok {| handlerName := funcName;
        eventType := extractEventType funcName;
        handler := body;
        handlerIsAsync := js_or (attr "async" func) (VBool false);
        handlerLocation := mkPos (start_line at_) (start_column at_) |}.

Definition handlerVisitor (path : NodePath) (handlers : list EventHandler)
  : Result (list EventHandler) :=
  let n := node path in
  if isFunctionDeclaration (Some n) then
    let funcName := idNameOrEmpty n in
    if isEventHandler funcName then
      h <- makeHandler funcName n n ;; Ok (handlers ++ [h])
    else Ok handlers
  else if isVariableDeclarator (Some n) then
    match get "init" n with
    | Some init =>
        if (isFunctionExpression (Some init) || isArrowFunctionExpression (Some init))
           && isIdentifier (get "id" n) then
          let funcName := match get "id" n with Some i => name_of i | None => "" end in
          if isEventHandler funcName then
            h <- makeHandler funcName init n ;; Ok (handlers ++ [h])
          else Ok handlers
        else Ok handlers
    | None => Ok handlers
    end
  else Ok handlers.

(** [analyzeEventHandlers] *)
Definition analyzeEventHandlers (node : Node) : Result (list EventHandler) :=
  run_throwing handlerVisitor (ComponentAnalyzer.traverseAST node) [].

(** *** Complexity *)

Record Complexity := mkComplexity {
  cyclomaticComplexity : nat;
  cognitiveComplexity : nat;
  nestingDepth : nat;
  propCount : nat;
  stateCount : nat;
  methodCount : nat;
  hookCount : nat;
  eventHandlerCount : nat;
  conditionalRenderCount : nat;
  loopRenderCount : nat
}.

(** The increments of the visitors of [calculateComplexity], in the
    order cyclomatic, state, method, hook, event handler, conditional
    render, loop render. *)
Definition bump (c : Complexity)
    (cyclomatic state method hook handler conditional loop : nat) : Complexity :=
  {| cyclomaticComplexity := cyclomaticComplexity c + cyclomatic;
     cognitiveComplexity := cognitiveComplexity c;
     nestingDepth := nestingDepth c;
     propCount := propCount c;
     stateCount := stateCount c + state;
     methodCount := methodCount c + method;
     hookCount := hookCount c + hook;
     eventHandlerCount := eventHandlerCount c + handler;
     conditionalRenderCount := conditionalRenderCount c + conditional;
     loopRenderCount := loopRenderCount c + loop |}.

(** The tests of the [CallExpression] and [VariableDeclarator]
    visitors. *)
Definition isHookCall (callNode : Node) : bool :=
  isIdentifier (get "callee" callNode)
  && match get "callee" callNode with
     | Some callee => isReactHook (name_of callee)
     | None => false
     end.

Definition isArrayMethodCall (callNode : Node) : bool :=
  match get "callee" callNode with
  | Some callee =>
      isMemberExpression (Some callee)
      && match get "property" callee with
         | Some property =>
             isIdentifier (Some property)
             && bool_decide (name_of property ∈ ["map"; "forEach"; "filter"; "reduce"])
         | None => false
         end
  | None => false
  end.

Definition isUseStateDeclarator (declarator : Node) : bool :=
  match get "init" declarator with
  | Some init =>
      isCallExpression (Some init)
      && isIdentifier (get "callee" init)
      && match get "callee" init with
         | Some callee => String.eqb (name_of callee) "useState"
         | None => false
         end
  | None => false
  end.

Definition complexityVisitor (path : NodePath) (c : Complexity) : Complexity :=
  let node := node path in
  let n := Some node in
  if isIfStatement n then bump c 1 0 0 0 0 1 0
  else if isConditionalExpression n then bump c 1 0 0 0 0 1 0
  else if isForStatement n then bump c 1 0 0 0 0 0 1
  else if isForInStatement n then bump c 1 0 0 0 0 0 1
  else if isForOfStatement n then bump c 1 0 0 0 0 0 1
  else if isWhileStatement n then bump c 1 0 0 0 0 0 1
  else if is_a "Method" n then bump c 0 0 1 0 0 0 0
  else if isCallExpression n then
    if isHookCall node then bump c 0 0 0 1 0 0 0
    else if isArrayMethodCall node then bump c 0 0 0 0 0 0 1
    else c
  else if isVariableDeclarator n then
    if isUseStateDeclarator node then bump c 0 1 0 0 0 0 0 else c
  else if isFunctionDeclaration n then
    if isEventHandler (idNameOrEmpty node) then bump c 0 0 0 0 1 0 0 else c
  else c.

(** [calculateComplexity] *)
Definition calculateComplexity (node : Node) : Complexity :=
  let c := run complexityVisitor (ComponentAnalyzer.traverseAST node)
               (mkComplexity 1 0 0 0 0 0 0 0 0 0) in
  {| cyclomaticComplexity := cyclomaticComplexity c;
     cognitiveComplexity := cognitiveComplexity c;
     nestingDepth := nestingDepth c;
     propCount :=
       match get_all "params" node with
       | propsParam :: _ =>
           if isObjectPattern (Some propsParam)
           then length (get_all "properties" propsParam) else 0
       | [] => 0
       end;
     stateCount := stateCount c;
     methodCount := methodCount c;
     hookCount := hookCount c;
     eventHandlerCount := eventHandlerCount c;
     conditionalRenderCount := conditionalRenderCount c;
     loopRenderCount := loopRenderCount c |}.

(** *** Descriptors *)

Record ComponentInfo := mkComponentInfo {
  name : string;
  componentType : string;                           (* [type] *)
  framework : string;
  path : string;
  isFunctional : bool;
  isClass : bool;
  isHOC : bool;
  isHook : bool;
  isExportedFlag : bool;                            (* [isExported] *)
  isDefaultExportFlag : bool;                       (* [isDefaultExport] *)
  line : nat;
  column : nat;
  props : ComponentProps;
  state : ComponentAnalyzer.ComponentState;
  lifecycle : list LifecycleMethod;
  hooks : list HookUsage;
  eventHandlers : list EventHandler;
  complexity : Complexity
}.

(** [createComponentInfo] *)
Definition createComponentInfo (componentPath : NodePath) (filePath ty : string)
    (ast : Node) : Result ComponentInfo :=
  let node := node componentPath in
  let name := getComponentName node componentPath in
  lifecycle <- analyzeLifecycle node ;;
  eventHandlers <- analyzeEventHandlers node ;;
  Ok {| name := name;
        componentType := ty;
        framework := detectFramework ast;
        path := filePath;
        isFunctional := String.eqb ty "functional";
        isClass := String.eqb ty "class";
        isHOC := isHigherOrderComponent node;
        isHook := isCustomHook name;
        isExportedFlag := isExported componentPath;
        isDefaultExportFlag := isDefaultExport componentPath;
        line := start_line node;
        column := start_column node;
        props := analyzeProps node;
        state := ComponentAnalyzer.analyzeState node;
        lifecycle := lifecycle;
        hooks := analyzeHooks (get "body" node);
        eventHandlers := eventHandlers;
        complexity := calculateComplexity node |}.

(** The visitors of [analyzeComponents]: the kind of component recorded
    at a path, if any. *)
Definition componentKind (path : NodePath) : option string :=
  let n := Some (node path) in
  if isFunctionDeclaration n then
    if isReactComponent path then Some "functional"
    else if isCustomHookComponent path then Some "functional"
    else if isHigherOrderComponent (node path) then Some "functional"
    else None
  else if isArrowFunctionExpression n then
    if negb (isVariableDeclarator (parent path))
       && negb (isJSXExpressionContainer (parent path))
       && negb (isCallExpression (parent path))
       && isReactComponent path
    then Some "functional" else None
  else if isClassDeclaration n then
    if isReactClassComponent path then Some "class" else None
  else if isVariableDeclarator n then
    if isArrowFunctionExpression (get "init" (node path)) then
      if isReactComponent path then Some "functional"
      else if isCustomHookComponent path then Some "functional"
      else None
    else None
  else None.

Definition componentVisitor (filePath : string) (ast : Node) (path : NodePath)
    (components : list ComponentInfo) : Result (list ComponentInfo) :=
  match componentKind path with
  | Some ty =>
      componentInfo <- createComponentInfo path filePath ty ast ;;
      Ok (components ++ [componentInfo])
  | None => Ok components
  end.

(** [analyzeComponents] *)
Definition analyzeComponents (ast : Node) (filePath : string)
  : Result (list ComponentInfo) :=
  run_throwing (componentVisitor filePath ast) (ComponentAnalyzer.traverseAST ast) [].

(** *** Views *)

(** The nodes at which the [VariableDeclarator] visitor and the
    [CallExpression] visitor of [calculateComplexity] count a state and a
    hook. *)
Definition isUseStateNode (n : Node) : bool :=
  isVariableDeclarator (Some n) && isUseStateDeclarator n.
Definition isHookCallNode (n : Node) : bool :=
  isCallExpression (Some n) && isHookCall n.

(** The number of nodes of a subtree that pass a test. *)
Fixpoint countNodes (test : Node -> bool) (n : Node) : nat :=
  (if test n then 1 else 0) + Spec.sum_kids (countNodes test) (kids n).

Definition countPaths (test : Node -> bool) (paths : list NodePath) : nat :=
  length (filter (fun p => test (node p) = true) paths).

(** What the loop of [analyzeProps] keeps true. *)
Definition propsAgree (s : ComponentProps) : Prop :=
  propName <$> propDefinitions s ≡ₚ requiredNames s ++ optionalNames s
  ∧ (∀ d, d ∈ propDefinitions s → required d = true → propName d ∈ requiredNames s)
  ∧ (∀ d, d ∈ propDefinitions s → is_Some (propDefault d) → required d = false)
  ∧ (∀ d, d ∈ propDefinitions s → propName d ≠ "__proto__" →
          is_Some (propTypes s !! propName d))
  ∧ propTypes s !! "__proto__" = None.

End ComponentAnalysis.

(** ** More sample trees *)

Module MoreSamples.
Import Babel Samples.

Definition arrow (p : option Position) (params : list Node) (body : Node) : Node :=
  mkNode "ArrowFunctionExpression" p [("async", VBool false)]
         (((λ x, ("params", x)) <$> params) ++ [("body", body)]).

(** [const add = (a, b) => a + b;] *)
Definition addDeclarator : Node :=
  declarator (at_ 1 6) (ident (at_ 1 6) "add")
    (arrow (at_ 1 12) [ident (at_ 1 13) "a"; ident (at_ 1 16) "b"]
       (binary (at_ 1 22) "+" (ident (at_ 1 22) "a") (ident (at_ 1 26) "b"))).

Definition arrowProgram : Node :=
  file (program [declaration (at_ 1 0) "const" [addDeclarator]]).

(** [var x = 1; var x = 2; x;] *)
Definition redeclaredProgram : Node :=
  file (program
    [declaration (at_ 1 0) "var"
       [declarator (at_ 1 4) (ident (at_ 1 4) "x") (num (at_ 1 8) 1)];
     declaration (at_ 2 0) "var"
       [declarator (at_ 2 4) (ident (at_ 2 4) "x") (num (at_ 2 8) 2)];
     exprStmt (at_ 3 0) (ident (at_ 3 0) "x")]).

(** Part of the aliases [Statement] and [Expression] of the Babel
    types, enough for the trees of this section. *)
Definition isStatement (n : Node) : bool :=
  is_one_of ["BlockStatement"; "ExpressionStatement"; "FunctionDeclaration";
             "IfStatement"; "ReturnStatement"; "VariableDeclaration";
             "ClassDeclaration"] (Some n).
Definition isExpression (n : Node) : bool :=
  is_one_of ["ArrowFunctionExpression"; "FunctionExpression"; "BinaryExpression";
             "CallExpression"; "Identifier"; "NumericLiteral"; "StringLiteral";
             "MemberExpression"; "AssignmentExpression"] (Some n).

Definition restElement (p : option Position) (x : Node) : Node :=
  mkNode "RestElement" p [] [("argument", x)].
Definition assignmentPattern (p : option Position) (l r : Node) : Node :=
  mkNode "AssignmentPattern" p [] [("left", l); ("right", r)].
Definition objectPattern (p : option Position) : Node :=
  mkNode "ObjectPattern" p [] [].

(** [function greet({ a }, name = "World", ...rest) {}] *)
Definition greetFunction : Node :=
  funDecl (at_ 2 0) (ident (at_ 2 9) "greet")
    [objectPattern (at_ 2 15);
     assignmentPattern (at_ 2 22) (ident (at_ 2 22) "name") (str (at_ 2 29) "World");
     restElement (at_ 2 38) (ident (at_ 2 41) "rest")]
    (block (at_ 2 47) []).

(** The function of the nested conditionals, [greet], and two calls
    [f(1); f(2);]. *)
Definition callsProgram : Node :=
  file (program
    [nestedIfFunction;
     greetFunction;
     exprStmt (at_ 3 0) (call (at_ 3 0) (ident (at_ 3 0) "f") [num (at_ 3 2) 1]);
     exprStmt (at_ 3 6) (call (at_ 3 6) (ident (at_ 3 6) "f") [num (at_ 3 8) 2])]).

(** [function g() {} function g() {} g();] *)
Definition twiceDeclaredProgram : Node :=
  file (program
    [funDecl (at_ 1 0) (ident (at_ 1 9) "g") [] (block (at_ 1 13) []);
     funDecl (at_ 2 0) (ident (at_ 2 9) "g") [] (block (at_ 2 13) []);
     exprStmt (at_ 3 0) (call (at_ 3 0) (ident (at_ 3 0) "g") [])]).

(** A node whose label holds a double quote and a line break, and an
    edge with a label. *)
Definition quotedNode : FlowDiagramGenerator.FlowNode :=
  FlowDiagramGenerator.mkFlowNode "n1"
    ("say " +:+ FlowDiagramMermaid.quoteString +:+ "hi" +:+ FlowDiagramMermaid.quoteString
     +:+ FlowDiagramMermaid.lineBreakString +:+ "twice")
    FlowDiagramGenerator.t_decision None.
Definition labelledEdge : FlowDiagramGenerator.FlowEdge * option string :=
  (FlowDiagramGenerator.mkFlowEdge "n1" "n2" (Some FlowDiagramGenerator.e_conditional)
     None,
   Some ("yes" +:+ FlowDiagramMermaid.lineBreakString)).

(** [class Clock extends React.Component {
      componentDidMount() {}
      render() { return <div/>; } }] *)
Definition clockClass : Node :=
  mkNode "ClassDeclaration" (at_ 1 0) []
    [("id", ident (at_ 1 6) "Clock");
     ("superClass",
      member (at_ 1 20) (ident (at_ 1 20) "React") (ident (at_ 1 26) "Component"));
     ("body",
      mkNode "ClassBody" (at_ 1 36) []
        [("body", classMethod (at_ 2 2) "method" (ident (at_ 2 2) "componentDidMount")
                    (block (at_ 2 22) []));
         ("body", classMethod (at_ 3 2) "method" (ident (at_ 3 2) "render")
                    (block (at_ 3 11) [ret (at_ 3 13) (jsxElement (at_ 3 20) "div")]))])].

Definition clockProgram : Node :=
  file (program [mkNode "ExportDefaultDeclaration" (at_ 1 0) []
                   [("declaration", clockClass)]]).

(** [const unknown = 1;
     const f = () => 2;] *)
Definition unknownProgram : Node :=
  file (program
    [declaration (at_ 1 0) "const"
       [declarator (at_ 1 6) (ident (at_ 1 6) "unknown") (num (at_ 1 16) 1)];
     declaration (at_ 2 0) "const"
       [declarator (at_ 2 6) (ident (at_ 2 6) "f")
          (arrow (at_ 2 10) [] (num (at_ 2 16) 2))]]).

(** [function Flag() {
       let [b] = useState();
       return <div/>;
     }] *)
Definition letStateComponent : Node :=
  funDecl (at_ 1 0) (ident (at_ 1 9) "Flag") []
    (block (at_ 1 16)
       [declaration (at_ 2 2) "let"
          [declarator (at_ 2 6)
             (arrayPattern (at_ 2 6) [ident (at_ 2 7) "b"])
             (call (at_ 2 12) (ident (at_ 2 12) "useState") [])];
        ret (at_ 3 2) (jsxElement (at_ 3 9) "div")]).

(** [function Only() {
       const [, setOnly] = useState(2);
       return <div/>;
     }] *)
Definition setterOnlyComponent : Node :=
  funDecl (at_ 1 0) (ident (at_ 1 9) "Only") []
    (block (at_ 1 16)
       [declaration (at_ 2 2) "const"
          [declarator (at_ 2 8)
             (arrayPattern (at_ 2 8) [hole; ident (at_ 2 11) "setOnly"])
             (call (at_ 2 22) (ident (at_ 2 22) "useState") [num (at_ 2 31) 2])];
        ret (at_ 3 2) (jsxElement (at_ 3 9) "div")]).

End MoreSamples.

(** * Properties *)

(** ** The syntax tree and its traversal *)

Section TreeFacts.
Import Babel.

(** Induction on nodes, with the hypothesis for every child. *)
Lemma Node_induction (P : Node → Prop) :
  (∀ ty l a ks, Forall (λ kc, P kc.2) ks → P (mkNode ty l a ks)) →
  ∀ n, P n.
Proof.
  intros step.
  fix IH 1.
  intros [ty l a ks]. apply step.
  induction ks as [|[k c] ks IHks]; constructor.
  - apply IH.
  - exact IHks.
Qed.

Lemma elem_of_flat_kids {A} (f : Node → list A) (ks : list (string * Node)) (x : A) :
  x ∈ flat_kids f ks ↔ ∃ kc, kc ∈ ks ∧ x ∈ f kc.2.
Proof.
  induction ks as [|[k c] ks IH]; simpl.
  - split; [intros H; inversion H | intros (kc & H & _); inversion H].
  - rewrite elem_of_app, IH. split.
    + intros [H | (kc & Hin & H)].
      * exists (k, c). split; [left | exact H].
      * exists kc. split; [right; exact Hin | exact H].
    + intros (kc & Hin & H). apply elem_of_cons in Hin as [-> | Hin].
      * left. exact H.
      * right. exists kc. split; assumption.
Qed.

Lemma visit_unfold pp par n :
  visit pp par n = mkPath n par pp :: flat_kids (visit (Some (mkPath n par pp)) (Some n)) (kids n).
Proof. destruct n; reflexivity. Qed.

(** The paths of the children of a visited node are visited too. *)
Lemma visit_child n : ∀ pp par p kc,
  p ∈ visit pp par n →
  kc ∈ kids (node p) →
  mkPath kc.2 (Some (node p)) (Some p) ∈ visit pp par n.
Proof.
  induction n as [ty l a ks IH] using Node_induction.
  intros pp par p kc Hp Hkc.
  rewrite visit_unfold in Hp |- *. simpl in *.
  apply elem_of_cons in Hp as [-> | Hp].
  - right. apply elem_of_flat_kids. exists kc. split; [exact Hkc|].
    simpl. rewrite visit_unfold. left.
  - right. apply elem_of_flat_kids in Hp as (kc' & Hin & Hp).
    apply elem_of_flat_kids. exists kc'. split; [exact Hin|].
    rewrite Forall_forall in IH. apply (IH kc' Hin); assumption.
Qed.

Lemma descendants_child root p kc :
  p ∈ descendants root →
  kc ∈ kids (node p) →
  mkPath kc.2 (Some (node p)) (Some p) ∈ descendants root.
Proof.
  unfold descendants. intros Hp Hkc.
  apply elem_of_flat_kids in Hp as (kc' & Hin & Hp).
  apply elem_of_flat_kids. exists kc'. split; [exact Hin|].
  by apply visit_child.
Qed.

Lemma lookup_kid_elem k ks c :
  lookup_kid k ks = Some c → (k, c) ∈ ks.
Proof.
  induction ks as [|[k' c'] ks IH]; simpl; [done|].
  destruct (String.eqb k k') eqn:E.
  - intros [= ->]. apply String.eqb_eq in E as ->. left.
  - intros H. right. by apply IH.
Qed.

Lemma get_elem k n c : get k n = Some c → (k, c) ∈ kids n.
Proof. apply lookup_kid_elem. Qed.

Lemma is_a_type ty n : is_a ty (Some n) = true → type n = ty.
Proof. simpl. apply String.eqb_eq. Qed.

(** A traversal that returns has visited the descendants of the root. *)
Lemma traverse_ok root paths :
  traverse root = Ok paths → paths = descendants root.
Proof.
  unfold traverse. destruct (_ || _); [by intros [= <-] | done].
Qed.

Lemma traverse_throws root :
  type root ≠ "Program" → type root ≠ "File" →
  ∃ e, traverse root = Throw e.
Proof.
  intros H1 H2. unfold traverse.
  apply String.eqb_neq in H1, H2. rewrite H1, H2. simpl. eauto.
Qed.

Lemma run_app {S} (visitor : NodePath → S → S) l1 l2 s :
  run visitor (l1 ++ l2) s = run visitor l2 (run visitor l1 s).
Proof. unfold run. apply fold_left_app. Qed.

(** An invariant of the state kept by every visit is kept by the run. *)
Lemma run_invariant {S} (I : S → Prop) (visitor : NodePath → S → S) paths s :
  (∀ p s, I s → I (visitor p s)) → I s → I (run visitor paths s).
Proof.
  intros Hstep. revert s. induction paths as [|p paths IH]; simpl; [done|].
  intros s Hs. apply IH. by apply Hstep.
Qed.

(** The same for a relation between two runs over the same paths. *)
Lemma run_related {S T} (R : S → T → Prop)
    (v1 : NodePath → S → S) (v2 : NodePath → T → T) paths s t :
  (∀ p s t, R s t → R (v1 p s) (v2 p t)) → R s t →
  R (run v1 paths s) (run v2 paths t).
Proof.
  intros Hstep. revert s t. induction paths as [|p paths IH]; simpl; [done|].
  intros s t Hst. apply IH. by apply Hstep.
Qed.

End TreeFacts.

(** ** Complexity *)

Section ComplexityFacts.
Import Babel.

(** The walker of the function analyzer has no case for a function node:
    on a declaration or an expression of a function it finds nothing. *)
Lemma findComplexityNodes_function (f : Node) :
  isFunction (Some f) = true → FunctionAnalyzer.findComplexityNodes f = 0.
Proof.
  destruct f as [ty l a ks].
  unfold isFunction, is_one_of, is_a. simpl. intros H.
  repeat (apply orb_true_iff in H as [H | H]);
    try (apply String.eqb_eq in H; subst ty; reflexivity).
  discriminate.
Qed.

Lemma calculateComplexity_function (f : Node) :
  isFunction (Some f) = true → FunctionAnalyzer.calculateComplexity f = 1.
Proof.
  intros H. unfold FunctionAnalyzer.calculateComplexity.
  by rewrite findComplexityNodes_function.
Qed.

Lemma calculateComplexity_positive (n : Node) :
  1 ≤ FunctionAnalyzer.calculateComplexity n.
Proof. unfold FunctionAnalyzer.calculateComplexity. lia. Qed.

(** C1. The complexity of the function analyzer is at least 1, but it is
    not 1 plus the number of decision points: for the function with the
    three nested [if] statements of the specification's scenario (and of
    the repository's test) the specification's count is 4, the variable
    tracker computes 4, and the function analyzer computes 1. *)
Theorem C1_nested_if_complexity :
  Spec.complexity Samples.nestedIfFunction = 4
  ∧ VariableTracker.calculateComplexity Samples.nestedIfFunction = 4
  ∧ FunctionAnalyzer.calculateComplexity Samples.nestedIfFunction = 1.
Proof. repeat split; vm_compute; reflexivity. Qed.

End ComplexityFacts.

(** ** The variable tracker *)

Section TrackerFacts.
Import Babel VariableTracker.

(** What a visit of the usage traversal does to the descriptors. *)
Lemma usageVisitor_variables p s :
  variables (usageVisitor p s) = variables s
  ∨ ∃ i, variableMap s !! name_of (node p) = Some i
         ∧ isIdentifier (Some (node p)) = true
         ∧ variables (usageVisitor p s)
           = alter (addUsage (makeUsage p)) i (variables s).
Proof.
  unfold usageVisitor.
  destruct (isIdentifier (Some (node p))); [|by left].
  destruct (variableMap s !! name_of (node p)) as [i|] eqn:E; [|by left].
  right. by exists i.
Qed.

Lemma usageVisitor_map p s : variableMap (usageVisitor p s) = variableMap s.
Proof.
  unfold usageVisitor.
  destruct (isIdentifier _); [|done]. by destruct (_ !! _).
Qed.

(** What a visit of the declaration traversal does to the store. *)
Lemma declarationVisitor_cases p s :
  declarationVisitor p s = s
  ∨ ∃ ty, declarationVisitor p s = declare (createVariableInfo p ty) s.
Proof.
  unfold declarationVisitor.
  repeat match goal with
         | |- context [if ?b then _ else _] => destruct b
         end; eauto.
Qed.

(** A property of descriptors that holds of every new descriptor and is
    kept when a usage is recorded holds of all the descriptors returned. *)
Lemma analyzeVariables_invariant (P : VariableInfo → Prop) ast vars :
  (∀ p ty, P (createVariableInfo p ty)) →
  (∀ p v, P v → P (addUsage (makeUsage p) v)) →
  analyzeVariables ast = Ok vars →
  Forall P vars.
Proof.
  intros Hnew Hadd. unfold analyzeVariables, analyzeVariableUsage.
  destruct (traverse ast) as [paths|e]; simpl; [|done].
  intros [= <-].
  apply (run_invariant (λ s, Forall P (variables s))).
  - intros p s Hs.
    destruct (usageVisitor_variables p s) as [-> | (i & _ & _ & ->)]; [done|].
    apply Forall_alter; [done|]. intros v _ Hv. by apply Hadd.
  - apply (run_invariant (λ s, Forall P (variables s))); [|constructor].
    intros p s Hs.
    destruct (declarationVisitor_cases p s) as [-> | (ty & ->)]; [done|].
    simpl. apply Forall_app. split; [done|]. constructor; [apply Hnew | constructor].
Qed.

End TrackerFacts.

Section TrackerTheorems.
Import Babel VariableTracker.

Lemma analyzeVariables_returns ast :
  type ast = "File" →
  ∃ vars, analyzeVariables ast = Ok vars.
Proof.
  intros H. unfold analyzeVariables, analyzeVariableUsage, traverse.
  rewrite H. simpl. eauto.
Qed.

Lemma createVariableInfo_consistent p ty : usageConsistent (createVariableInfo p ty).
Proof. by split. Qed.

Lemma addUsage_consistent u v : usageConsistent v → usageConsistent (addUsage u v).
Proof.
  intros [Hc Hl]. split; simpl.
  - rewrite length_app. simpl. lia.
  - by rewrite last_snoc.
Qed.

(** C7. For every descriptor returned by the variable analysis,
    [usageCount] is the length of the usage list, and [lastUsedAt] is
    the position of the last usage record, or undefined when the list is
    empty. *)
Theorem C7_usage_count_and_last_position ast vars :
  analyzeVariables ast = Ok vars →
  ∀ v, v ∈ vars →
    usageCount v = length (usage v)
    ∧ lastUsedAt v = location <$> last (usage v).
Proof.
  intros Hrun v Hv.
  pose proof (analyzeVariables_invariant usageConsistent ast vars
                createVariableInfo_consistent
                (λ p w, addUsage_consistent (makeUsage p) w) Hrun) as Hall.
  rewrite Forall_forall in Hall. by apply Hall.
Qed.

Lemma C7_witness :
  ∃ vars, analyzeVariables Samples.usageProgram = Ok vars
          ∧ ∀ v, v ∈ vars →
              usageCount v = length (usage v)
              ∧ lastUsedAt v = location <$> last (usage v).
Proof.
  eexists. split; [vm_compute; reflexivity|].
  apply (C7_usage_count_and_last_position Samples.usageProgram).
  vm_compute. reflexivity.
Defined.

Lemma makeUsage_facets p :
  isReadFacet (makeUsage p) = negb (isAssignmentFacet (makeUsage p))
  ∧ isAssignmentFacet (makeUsage p) = isAssignmentExpression (parent p).
Proof. by split. Qed.

(** C10. In every usage record of every descriptor returned by the
    variable analysis, [isRead] is the negation of [isAssignment]: no
    record is both a read and an assignment, and none is neither. *)
Theorem C10_read_is_not_assignment ast vars :
  analyzeVariables ast = Ok vars →
  ∀ v u, v ∈ vars → u ∈ usage v →
    isReadFacet u = negb (isAssignmentFacet u).
Proof.
  intros Hrun v u Hv Hu.
  assert (Forall facetsExclusive vars) as Hall.
  { apply (analyzeVariables_invariant facetsExclusive ast vars); [| |done].
    - intros p ty u' Hu'. simpl in Hu'. inversion Hu'.
    - intros p w Hw u'. simpl. rewrite elem_of_app, list_elem_of_singleton.
      intros [Hin | ->]; [by apply Hw | apply makeUsage_facets]. }
  rewrite Forall_forall in Hall. by apply (Hall v Hv).
Qed.

Lemma C10_witness :
  ∃ vars, analyzeVariables Samples.usageProgram = Ok vars
          ∧ ∀ v u, v ∈ vars → u ∈ usage v →
              isReadFacet u = negb (isAssignmentFacet u).
Proof.
  eexists. split; [vm_compute; reflexivity|].
  apply (C10_read_is_not_assignment Samples.usageProgram).
  vm_compute. reflexivity.
Defined.

(** *** Scopes *)

(** The climb of [determineScope] sees the path's own node only: the
    scope is [class] exactly for the nodes that are themselves a class
    or a class method. *)
Lemma determineScope_class p :
  determineScope p = scope_class ↔
  is_one_of ["ClassMethod"; "ClassPrivateMethod"; "ClassDeclaration"; "ClassExpression"]
            (Some (node p)) = true.
Proof.
  unfold determineScope, climb, is_one_of. simpl.
  unfold isClassMethod, isClassPrivateMethod, isClassDeclaration, isClassExpression.
  simpl.
  destruct (String.eqb (type (node p)) "ClassMethod"),
           (String.eqb (type (node p)) "ClassPrivateMethod"),
           (String.eqb (type (node p)) "ClassDeclaration"),
           (String.eqb (type (node p)) "ClassExpression"); simpl; try done;
    destruct (parent p); simpl; destruct (getFunctionParent p); done.
Qed.

(** A variable declarator never resolves to [class]. *)
Lemma determineScope_declarator p :
  isVariableDeclarator (Some (node p)) = true → determineScope p ≠ scope_class.
Proof.
  intros H Hc. apply determineScope_class in Hc.
  apply is_a_type in H. unfold is_one_of, is_a in Hc. rewrite H in Hc. done.
Qed.

(** C6. Scope resolution on the program of the repository's test of
    scopes: the top-level variable resolves to [module] and the variable
    of the plain function to [function], but the variable declared in
    the constructor of the class resolves to [function], not to
    [class]. *)
Theorem C6_scopes_of_test_program :
  ∃ vars, analyzeVariables Samples.scopesProgram = Ok vars
          ∧ (λ v, (name v, scope v)) <$> vars
            = [("globalVar", scope_module);
               ("testFunction", scope_module);
               ("functionVar", scope_function);
               ("TestClass", scope_class);
               ("constructorVar", scope_function)].
Proof. eexists. split; vm_compute; reflexivity. Qed.

End TrackerTheorems.

(** ** The declaration of a variable is one of its usages *)

Section DeclarationUsage.
Import Babel VariableTracker.

Lemma grows_refl v : grows v v.
Proof. by repeat split. Qed.

Lemma grows_trans u v w : grows u v → grows v w → grows u w.
Proof.
  intros (H1 & H2 & H3 & H4) (K1 & K2 & K3 & K4).
  repeat split; try congruence. by etrans.
Qed.

Lemma grows_addUsage u v : grows v (addUsage u v).
Proof. repeat split. simpl. by apply prefix_app_r. Qed.

Lemma Forall2_grows_refl l : Forall2 grows l l.
Proof. induction l; constructor; [apply grows_refl | done]. Qed.

Lemma Forall2_grows_trans l1 l2 l3 :
  Forall2 grows l1 l2 → Forall2 grows l2 l3 → Forall2 grows l1 l3.
Proof.
  intros H. revert l3. induction H as [|x y l k Hxy _ IH]; intros l3 H3.
  - inversion H3. constructor.
  - inversion H3 as [|? z ? k' Hyz Hk]; subst. constructor.
    + by eapply grows_trans.
    + by apply IH.
Qed.

Lemma Forall2_grows_alter u i l : Forall2 grows l (alter (addUsage u) i l).
Proof.
  revert i. induction l as [|v l IH]; intros i; [constructor|].
  destruct i as [|i]; cbn; constructor.
  - apply grows_addUsage.
  - apply Forall2_grows_refl.
  - apply grows_refl.
  - apply IH.
Qed.

(** The usage traversal keeps the map and lets the descriptors grow. *)
Lemma usage_run_grows paths s :
  variableMap (run usageVisitor paths s) = variableMap s
  ∧ Forall2 grows (variables s) (variables (run usageVisitor paths s)).
Proof.
  revert s. induction paths as [|p paths IH]; intros s; simpl.
  - split; [done | apply Forall2_grows_refl].
  - destruct (IH (usageVisitor p s)) as [Hm Hg]. split.
    + rewrite Hm. apply usageVisitor_map.
    + eapply Forall2_grows_trans; [|exact Hg].
      destruct (usageVisitor_variables p s) as [-> | (i & _ & _ & ->)].
      * apply Forall2_grows_refl.
      * apply Forall2_grows_alter.
Qed.

Lemma declare_consistent info s : mapConsistent s → mapConsistent (declare info s).
Proof.
  intros [Ha Hb]. split; simpl.
  - intros nm i. destruct (decide (name info = nm)) as [<- | Hne].
    + rewrite lookup_insert_eq. intros [= <-]. exists info.
      split; [by apply list_lookup_middle | done].
    + rewrite lookup_insert_ne by done. intros Hi.
      destruct (Ha nm i Hi) as (v & Hv & Hn). exists v. split; [|done].
      rewrite lookup_app_l; [done | by eapply lookup_lt_Some].
  - intros i v Hv. destruct (decide (name info = name v)) as [-> | Hne].
    + rewrite lookup_insert_eq. eauto.
    + rewrite lookup_insert_ne by done.
      destruct (decide (i < length (variables s))) as [Hlt | Hge].
      * rewrite lookup_app_l in Hv by done. by eapply Hb.
      * rewrite lookup_app_r in Hv by lia.
        destruct (i - length (variables s)); simpl in Hv; [|done].
        by injection Hv as ->.
Qed.

Lemma declaration_run_consistent paths s :
  mapConsistent s → mapConsistent (run declarationVisitor paths s).
Proof.
  apply run_invariant. intros p s' Hs'.
  destruct (declarationVisitor_cases p s') as [-> | (ty & ->)]; [done|].
  by apply declare_consistent.
Qed.

Lemma declaration_run_prefix paths s :
  variables s `prefix_of` variables (run declarationVisitor paths s).
Proof.
  revert s. induction paths as [|p paths IH]; intros s; simpl; [done|].
  etrans; [|apply IH].
  destruct (declarationVisitor_cases p s) as [-> | (ty & ->)]; [done|].
  simpl. by apply prefix_app_r.
Qed.

(** A declarator with an identifier is declared when it is visited. *)
Lemma declarationVisitor_declarator p s :
  isVariableDeclarator (Some (node p)) = true →
  isIdentifier (get "id" (node p)) = true →
  declarationVisitor p s = declare (createVariableInfo p "variable") s.
Proof. unfold declarationVisitor. by intros -> ->. Qed.

Lemma declaration_run_declared paths s p :
  p ∈ paths →
  isVariableDeclarator (Some (node p)) = true →
  isIdentifier (get "id" (node p)) = true →
  ∃ i, variables (run declarationVisitor paths s) !! i
       = Some (createVariableInfo p "variable").
Proof.
  intros Hp Hd Hi. apply list_elem_of_split in Hp as (l1 & l2 & ->).
  rewrite run_app. simpl. rewrite declarationVisitor_declarator by done.
  set (s1 := run declarationVisitor l1 s).
  exists (length (variables s1)).
  eapply prefix_lookup_Some; [|apply declaration_run_prefix].
  simpl. by apply list_lookup_middle.
Qed.

(** Two descriptors of a list that has one descriptor of a given name
    are the same entry when both have that name. *)
Lemma unique_name_index (nm : string) (l : list VariableInfo) i j v w :
  length (filter (λ x, name x = nm) l) = 1 →
  l !! i = Some v → l !! j = Some w → name v = nm → name w = nm → i = j.
Proof.
  revert i j. induction l as [|x l IH]; intros i j Hlen Hi Hj Hv Hw; [done|].
  assert (∀ k y, name x = nm → l !! k = Some y → name y = nm → False) as Hrest.
  { intros k y Hx Hk Hy. rewrite filter_cons_True in Hlen by done.
    simpl in Hlen. assert (y ∈ filter (λ x, name x = nm) l) as Hin.
    { apply list_elem_of_filter. split; [done|]. apply list_elem_of_lookup. eauto. }
    destruct (filter _ l); [inversion Hin | simpl in Hlen; lia]. }
  destruct i as [|i], j as [|j]; simpl in *; try done.
  - injection Hi as <-. destruct (Hrest j w); done.
  - injection Hj as <-. destruct (Hrest i v); done.
  - f_equal. destruct (decide (name x = nm)) as [Hx | Hx].
    + destruct (Hrest i v); done.
    + rewrite filter_cons_False in Hlen by done. by apply IH.
Qed.

Lemma getVariableName_declarator n i :
  get "id" n = Some i → isIdentifier (Some i) = true →
  getVariableName n = name_of i.
Proof. unfold getVariableName. by intros -> ->. Qed.

(** The claim C9 fails when the variable is named [unknown] and the file
    holds an arrow function: in [const unknown = 1; const f = () => 2;]
    one declaration carries the name, the descriptor of the arrow
    function is named [unknown] as well and comes later, and it takes the
    record of the declaring identifier; the descriptor of the variable
    is returned with no usage. *)
Lemma C9_unknown_variable_gets_no_usage :
  ∃ vars paths p i v f w,
    analyzeVariables MoreSamples.unknownProgram = Ok vars
    ∧ traverse MoreSamples.unknownProgram = Ok paths
    ∧ filter (λ q, isVariableDeclarator (Some (node q))
                   && isIdentifier (get "id" (node q))) paths
      = [p; f]
    ∧ get "id" (node p) = Some i ∧ name_of i = "unknown"
    ∧ (name_of <$> get "id" (node f)) = Some "f"
    ∧ vars !! 0 = Some v
    ∧ name v = "unknown"
    ∧ declLine v = start_line (node p) ∧ declColumn v = start_column (node p)
    ∧ usage v = [] ∧ usageCount v = 0
    ∧ vars !! 2 = Some w
    ∧ name w = "unknown" ∧ declarationType w = decl_arrow
    ∧ (location <$> usage w) = [mkPos (start_line i) (start_column i)].
Proof.
  do 7 eexists. split; [vm_compute; reflexivity|].
  split; [vm_compute; reflexivity|].
  split; [vm_compute; reflexivity|].
  split; [vm_compute; reflexivity|].
  repeat split; vm_compute; reflexivity.
Qed.

(** C9, amended.  The declaring identifier of a variable counts as a usage: when a
    visited declarator has a plain identifier and exactly one returned
    descriptor carries its name, that descriptor is the declarator's,
    its usage list holds a record at the position of the declaring
    identifier (which is the descriptor's own position when the
    declarator starts at its identifier), and its usage count is at
    least 1. *)
Theorem C9_declaration_counts_as_usage ast vars paths p i :
  analyzeVariables ast = Ok vars →
  traverse ast = Ok paths →
  p ∈ paths →
  isVariableDeclarator (Some (node p)) = true →
  get "id" (node p) = Some i →
  isIdentifier (Some i) = true →
  length (filter (λ v, name v = name_of i) vars) = 1 →
  ∃ v u,
    v ∈ vars
    ∧ name v = name_of i
    ∧ declLine v = start_line (node p)
    ∧ declColumn v = start_column (node p)
    ∧ u ∈ usage v
    ∧ location u = mkPos (start_line i) (start_column i)
    ∧ (loc (node p) = loc i → location u = mkPos (declLine v) (declColumn v))
    ∧ 1 ≤ usageCount v.
Proof.
  intros Hrun Htr Hp Hdecl Hid Hident Huniq.
  pose proof (Hcons := analyzeVariables_invariant usageConsistent ast vars
                      createVariableInfo_consistent
                      (λ q w, addUsage_consistent (makeUsage q) w) Hrun).
  unfold analyzeVariables, analyzeVariableUsage in Hrun.
  rewrite Htr in Hrun. simpl in Hrun. injection Hrun as Hvars.
  set (s1 := run declarationVisitor paths (mkStore [] ∅)) in *.
  assert (mapConsistent s1) as [Ha Hb].
  { apply declaration_run_consistent. split; [intros ?? H | intros ?? H]; done. }
  (* the declarator's descriptor after the first traversal *)
  destruct (declaration_run_declared paths (mkStore [] ∅) p Hp Hdecl) as [i0 Hi0].
  { by rewrite Hid. }
  fold s1 in Hi0. set (v0 := createVariableInfo p "variable") in *.
  assert (name v0 = name_of i) as Hname0.
  { simpl. by apply getVariableName_declarator. }
  (* the entry of the map for its name *)
  destruct (Hb i0 v0 Hi0) as [j Hj]. rewrite Hname0 in Hj.
  destruct (Ha _ _ Hj) as (w0 & Hw0 & Hnamew).
  (* the identifier of the declarator is visited by the second traversal *)
  set (q := mkPath i (Some (node p)) (Some p)).
  assert (q ∈ paths) as Hq.
  { apply traverse_ok in Htr. subst paths.
    apply (descendants_child ast p ("id", i)); [done | by apply get_elem]. }
  apply list_elem_of_split in Hq as (l1 & l2 & Hsplit).
  rewrite Hsplit, run_app in Hvars. simpl in Hvars.
  set (sA := run usageVisitor l1 s1) in *.
  set (sB := usageVisitor q sA) in *.
  destruct (usage_run_grows l1 s1) as [HmA HgA]. fold sA in HmA, HgA.
  destruct (usage_run_grows l2 sB) as [_ HgB]. rewrite Hvars in HgB.
  assert (Forall2 grows (variables sA) (variables sB)) as HgAB.
  { subst sB. destruct (usageVisitor_variables q sA) as [-> | (k & _ & _ & ->)];
      [apply Forall2_grows_refl | apply Forall2_grows_alter]. }
  (* uniqueness of the name: the map entry is the declarator's descriptor *)
  destruct (Forall2_lookup_l _ _ _ _ _ HgA Hi0) as (vA & HvA & Hg0A).
  destruct (Forall2_lookup_l _ _ _ _ _ HgAB HvA) as (vB & HvB & HgAB0).
  destruct (Forall2_lookup_l _ _ _ _ _ HgB HvB) as (v & Hv & HgBv).
  destruct (Forall2_lookup_l _ _ _ _ _ HgA Hw0) as (wA & HwA & Hgw0A).
  destruct (Forall2_lookup_l _ _ _ _ _ HgAB HwA) as (wB & HwB & HgwAB).
  destruct (Forall2_lookup_l _ _ _ _ _ HgB HwB) as (w & Hw & HgwB).
  assert (grows v0 v) as (Hn & Hl & Hc & Hpre)
    by eauto using grows_trans.
  assert (name w = name_of i) as Hnw.
  { destruct Hgw0A as [E0 _], HgwAB as [E1 _], HgwB as [E2 _]. congruence. }
  assert (i0 = j) as <-.
  { eapply (unique_name_index (name_of i) vars); eauto. congruence. }
  (* the visit of the identifier records the usage *)
  assert (vB = addUsage (makeUsage q) vA) as ->.
  { subst sB. unfold usageVisitor in HvB. change (node q) with i in HvB.
    rewrite Hident, HmA, Hj in HvB. cbn [variables] in HvB.
    rewrite list_lookup_alter in HvB.
    destruct (decide (i0 = i0)); [|done]. rewrite HvA in HvB. by injection HvB. }
  destruct HgBv as (_ & _ & _ & HpreB). simpl in HpreB.
  assert (makeUsage q ∈ usage v) as Hu.
  { eapply elem_of_prefix; [|exact HpreB]. apply elem_of_app. right. left. }
  exists v, (makeUsage q). repeat split.
  - apply list_elem_of_lookup. eauto.
  - congruence.
  - by rewrite Hl.
  - by rewrite Hc.
  - exact Hu.
  - intros Hloc. rewrite Hl, Hc. simpl.
    unfold start_line, start_column. by rewrite Hloc.
  - rewrite Forall_forall in Hcons.
    destruct (Hcons v) as [-> _]; [apply list_elem_of_lookup; eauto|].
    destruct (usage v); [inversion Hu | simpl; lia].
Qed.

Lemma C9_witness :
  ∃ vars paths p v u,
    analyzeVariables Samples.usageProgram = Ok vars
    ∧ traverse Samples.usageProgram = Ok paths
    ∧ node p = Samples.nameDeclarator
    ∧ v ∈ vars
    ∧ name v = "name"
    ∧ u ∈ usage v
    ∧ location u = mkPos 1 6
    ∧ location u = mkPos (declLine v) (declColumn v)
    ∧ 1 ≤ usageCount v.
Proof.
  destruct (analyzeVariables_returns Samples.usageProgram) as [vars Hvars];
    [reflexivity|].
  set (paths := descendants Samples.usageProgram).
  destruct (paths !! 2) as [p|] eqn:Hp; [|by vm_compute in Hp].
  assert (node p = Samples.nameDeclarator) as Hnode.
  { vm_compute in Hp. injection Hp as <-. reflexivity. }
  destruct (C9_declaration_counts_as_usage
              Samples.usageProgram vars paths p
              (Samples.ident (Samples.at_ 1 6) "name") Hvars)
    as (v & u & Hv & Hn & _ & _ & Hu & Hloc & Hdecl & Hcount).
  - reflexivity.
  - apply list_elem_of_lookup. eauto.
  - by rewrite Hnode.
  - by rewrite Hnode.
  - reflexivity.
  - revert Hvars. vm_compute. intros [= <-]. reflexivity.
  - exists vars, paths, p, v, u. repeat split; try done.
    apply Hdecl. by rewrite Hnode.
Defined.

End DeclarationUsage.

(** ** Flow graphs *)

Section ControlFlowFacts.
Import Babel FlowDiagramGenerator.

Lemma Graph_le_refl g : Graph_le g g.
Proof. by unfold Graph_le. Qed.

Lemma Graph_le_trans g1 g2 g3 : Graph_le g1 g2 → Graph_le g2 g3 → Graph_le g1 g3.
Proof. unfold Graph_le. intros. by etrans. Qed.

Lemma Graph_le_pushNode g h n : Graph_le g h → Graph_le g (pushNode n h).
Proof. unfold Graph_le. simpl. intros. by apply prefix_app_r. Qed.

Lemma Graph_le_pushEdge g h e : Graph_le g h → Graph_le g (pushEdge e h).
Proof. done. Qed.

Lemma ids_mono g g' x : Graph_le g g' → x ∈ ids g → x ∈ ids g'.
Proof.
  unfold Graph_le, ids. intros [k ->]. rewrite fmap_app, elem_of_app. by left.
Qed.

Lemma known_mono g g' x : Graph_le g g' → known g x → known g' x.
Proof. intros Hle [Hin Hne]. split; [by eapply ids_mono | done]. Qed.

Lemma known_new g n x : x = id n → x ≠ "end" → known (pushNode n g) x.
Proof.
  intros -> Hne. split; [|done]. unfold ids. simpl.
  rewrite fmap_app, elem_of_app. right. simpl. left.
Qed.

Lemma known_old_node g n x : known g x → known (pushNode n g) x.
Proof. apply known_mono, Graph_le_pushNode, Graph_le_refl. Qed.

Lemma known_old_edge g e x : known g x → known (pushEdge e g) x.
Proof. done. Qed.

Lemma invariant_pushNode g n :
  nodeType n ≠ t_start → nodeType n ≠ t_end →
  controlFlowInvariant g → controlFlowInvariant (pushNode n g).
Proof.
  intros Hs He (Hedges & Hstart & Hend). split; [|split]; simpl.
  - intros e Hin. destruct (Hedges e Hin). split; by apply known_old_node.
  - rewrite filter_app, Hstart, filter_cons_False, filter_nil by done. done.
  - rewrite filter_app, Hend, filter_cons_False, filter_nil by done. done.
Qed.

Lemma invariant_pushEdge g e :
  known g (from e) → known g (to e) →
  controlFlowInvariant g → controlFlowInvariant (pushEdge e g).
Proof.
  intros Hf Ht (Hedges & Hstart & Hend). split; [|split]; simpl; try done.
  intros e' Hin. apply elem_of_app in Hin as [Hin | Hin]; [by apply Hedges|].
  apply list_elem_of_singleton in Hin as ->. done.
Qed.

End ControlFlowFacts.

(** Peeling the pushes of a helper off the invariant. *)
Ltac push_steps :=
  repeat match goal with
    | |- FlowDiagramGenerator.controlFlowInvariant (FlowDiagramGenerator.pushEdge _ _) =>
        apply invariant_pushEdge
    | |- FlowDiagramGenerator.controlFlowInvariant (FlowDiagramGenerator.pushNode _ _) =>
        apply invariant_pushNode; [discriminate | discriminate |]
    | |- FlowDiagramGenerator.Graph_le _ (FlowDiagramGenerator.pushEdge _ _) =>
        apply Graph_le_pushEdge
    | |- FlowDiagramGenerator.Graph_le _ (FlowDiagramGenerator.pushNode _ _) =>
        apply Graph_le_pushNode
    | |- FlowDiagramGenerator.Graph_le ?g ?g => apply Graph_le_refl
    | |- FlowDiagramGenerator.known (FlowDiagramGenerator.pushEdge _ _) _ =>
        apply known_old_edge
    | |- FlowDiagramGenerator.known (FlowDiagramGenerator.pushNode _ _) _ =>
        first [ apply known_new; [reflexivity | discriminate]
              | apply known_old_node ]
    | |- _ => assumption
    end.

Section ControlFlowTheorems.
Import Babel FlowDiagramGenerator.

Lemma analyzeIfStatement_invariant stmt g nodeId parentId :
  controlFlowInvariant g → known g parentId →
  controlFlowInvariant (analyzeIfStatement stmt g nodeId parentId)
  ∧ Graph_le g (analyzeIfStatement stmt g nodeId parentId).
Proof.
  intros Hg Hp. unfold analyzeIfStatement.
  destruct (get "alternate" stmt); split; push_steps.
Qed.

Lemma analyzeLoopStatement_invariant stmt g nodeId parentId :
  controlFlowInvariant g → known g parentId →
  controlFlowInvariant (analyzeLoopStatement stmt g nodeId parentId)
  ∧ Graph_le g (analyzeLoopStatement stmt g nodeId parentId).
Proof.
  intros Hg Hp. unfold analyzeLoopStatement. split; push_steps.
Qed.

Lemma addCase_invariant switchId cases : ∀ g nodeId,
  controlFlowInvariant g → known g switchId →
  controlFlowInvariant (fold_left (addCase switchId) cases (g, nodeId)).1
  ∧ Graph_le g (fold_left (addCase switchId) cases (g, nodeId)).1.
Proof.
  induction cases as [|c cases IH]; intros g nodeId Hg Hs; simpl.
  - split; [done | apply Graph_le_refl].
  - match goal with
    | |- context [fold_left _ _ (?g', ?n')] =>
        destruct (IH g' n') as [H1 H2]; [push_steps | push_steps |]
    end.
    split; [exact H1|]. eapply Graph_le_trans; [|exact H2]. push_steps.
Qed.

Lemma analyzeSwitchStatement_invariant stmt g nodeId parentId :
  controlFlowInvariant g → known g parentId →
  controlFlowInvariant (analyzeSwitchStatement stmt g nodeId parentId)
  ∧ Graph_le g (analyzeSwitchStatement stmt g nodeId parentId).
Proof.
  intros Hg Hp. unfold analyzeSwitchStatement.
  match goal with
  | |- context [fold_left (addCase ?s) ?cs (?g', ?n')] =>
      destruct (addCase_invariant s cs g' n') as [H1 H2]; [push_steps | push_steps |]
  end.
  split; [exact H1|]. eapply Graph_le_trans; [|exact H2]. push_steps.
Qed.

Lemma analyzeStatementControlFlow_invariant stmt g nodeId parentId :
  controlFlowInvariant g → known g parentId →
  controlFlowInvariant (analyzeStatementControlFlow stmt g nodeId parentId)
  ∧ Graph_le g (analyzeStatementControlFlow stmt g nodeId parentId).
Proof.
  intros Hg Hp. unfold analyzeStatementControlFlow.
  destruct (isIfStatement _); [by apply analyzeIfStatement_invariant|].
  destruct (_ || _); [by apply analyzeLoopStatement_invariant|].
  destruct (isSwitchStatement _); [by apply analyzeSwitchStatement_invariant|].
  split; push_steps.
Qed.

Lemma statements_invariant nodeId parentId stmts : ∀ g,
  controlFlowInvariant g → known g parentId →
  controlFlowInvariant
    (fold_left (λ g stmt, analyzeStatementControlFlow stmt g nodeId parentId) stmts g).
Proof.
  induction stmts as [|stmt stmts IH]; intros g Hg Hp; simpl; [done|].
  destruct (analyzeStatementControlFlow_invariant stmt g nodeId parentId Hg Hp)
    as [H1 H2].
  apply IH; [done | by eapply known_mono].
Qed.

Lemma analyzeProgramControlFlow_invariant path g nodeId :
  controlFlowInvariant g → known g "start" →
  controlFlowInvariant (analyzeProgramControlFlow path g nodeId).
Proof.
  intros Hg Hs. unfold analyzeProgramControlFlow.
  destruct (isProgram _).
  - apply statements_invariant; push_steps.
  - push_steps.
Qed.

Lemma analyzeFunctionControlFlow_invariant path g nodeId :
  controlFlowInvariant g →
  controlFlowInvariant (analyzeFunctionControlFlow path g nodeId).
Proof.
  intros Hg. unfold analyzeFunctionControlFlow.
  destruct (get "body" (node path)).
  - apply analyzeStatementControlFlow_invariant; push_steps.
  - push_steps.
Qed.

Lemma controlFlowVisitor_invariant nodeId path g :
  controlFlowInvariant g ∧ known g "start" →
  controlFlowInvariant (controlFlowVisitor nodeId path g)
  ∧ known (controlFlowVisitor nodeId path g) "start".
Proof.
  intros [Hg Hs].
  assert (controlFlowInvariant (controlFlowVisitor nodeId path g)) as Hinv.
  { unfold controlFlowVisitor.
    destruct (isProgram _); [by apply analyzeProgramControlFlow_invariant|].
    destruct (isFunctionDeclaration _); [by apply analyzeFunctionControlFlow_invariant|].
    destruct (isArrowFunctionExpression _);
      [by apply analyzeFunctionControlFlow_invariant | done]. }
  split; [done|].
  destruct Hinv as (_ & Hstart & _). split; [|done].
  assert (mkFlowNode "start" "Start" t_start None
            ∈ filter (λ n, nodeType n = t_start)
                     (g_nodes (controlFlowVisitor nodeId path g))) as Hin.
  { rewrite Hstart. left. }
  apply list_elem_of_filter in Hin as [_ Hin].
  unfold ids. apply (list_elem_of_fmap_2 id) in Hin. exact Hin.
Qed.

End ControlFlowTheorems.

Section FlowGraphTheorems.
Import Babel FlowDiagramGenerator.

(** *** Control flow *)

Lemma generateControlFlow_graph ast filePath d :
  generateControlFlow ast filePath = Ok d →
  ∃ g, controlFlowInvariant g
       ∧ nodes d = g_nodes g ++ [mkFlowNode "end" "End" t_end None]
       ∧ edges d = g_edges g.
Proof.
  unfold generateControlFlow.
  destruct (traverse ast) as [paths|e]; simpl; [|done].
  intros [= <-]. simpl.
  set (g0 := pushNode (mkFlowNode "start" "Start" t_start None) (mkGraph [] [])).
  exists (run (controlFlowVisitor 0) paths g0). split; [|done].
  apply (run_invariant (λ g, controlFlowInvariant g ∧ known g "start")).
  - intros p g. apply controlFlowVisitor_invariant.
  - split.
    + split; [|done]. intros e He. inversion He.
    + split; [left | done].
Qed.

(** A node without incoming edges is reached from itself only. *)
Lemma reachable_no_incoming d a x :
  (∀ e, e ∈ edges d → to e ≠ x) → reachable d a x → a = x.
Proof.
  intros Hno Hr. induction Hr as [|a b c (e & He & Hf & Ht) _ IH]; [done|].
  specialize (IH Hno). subst b. by destruct (Hno e He).
Qed.

(** C3. On the program [a; b;] the control-flow synthesis gives the two
    statement nodes the same id [stmt_1]: the counter is passed by value
    to the helpers, and the node ids of the graph are not unique. *)
Theorem C3_control_flow_ids_repeat :
  ∃ d, generateControlFlow Samples.twoStatements "test.js" = Ok d
       ∧ nodeIds d = ["start"; "program_0"; "stmt_1"; "stmt_1"; "end"]
       ∧ ¬ NoDup (nodeIds d).
Proof.
  eexists. split; [vm_compute; reflexivity|]. split; [reflexivity|].
  intros H. apply NoDup_cons in H as [_ H]. apply NoDup_cons in H as [_ H].
  apply NoDup_cons in H as [H _]. apply H. left.
Qed.

(** The claim C4 fails on the empty program: the graph has the nodes
    [start], [program_0] and [end] and the single edge from [start] to
    [program_0], so no end node is reachable from the start node. *)
Lemma C4_end_node_not_reachable :
  ∃ d, generateControlFlow Samples.emptyProgram "test.js" = Ok d
       ∧ ¬ ∃ s e, s ∈ nodes d ∧ nodeType s = t_start
                  ∧ e ∈ nodes d ∧ nodeType e = t_end
                  ∧ reachable d (id s) (id e).
Proof.
  eexists. split; [vm_compute; reflexivity|].
  intros (s & e & Hs & Hts & He & Hte & Hr).
  assert (id s = "start") as Hids.
  { repeat (apply elem_of_cons in Hs as [-> | Hs]; try done). inversion Hs. }
  assert (id e = "end") as Hide.
  { repeat (apply elem_of_cons in He as [-> | He]; try done). inversion He. }
  rewrite Hids, Hide in Hr.
  apply reachable_no_incoming in Hr; [done|].
  intros e' He'. simpl in He'.
  apply list_elem_of_singleton in He' as ->. done.
Qed.

(** *** Data flow *)

Lemma closed_pushNode g n : closed g → closed (pushNode n g).
Proof.
  intros Hc e He. destruct (Hc e He) as [Hf Ht].
  assert (Graph_le g (pushNode n g)) as Hle
    by apply Graph_le_pushNode, Graph_le_refl.
  split; by apply (ids_mono g (pushNode n g)).
Qed.

Lemma closed_pushEdge g e :
  from e ∈ ids g → to e ∈ ids g → closed g → closed (pushEdge e g).
Proof.
  intros Hf Ht Hc e' He'. simpl in He'.
  apply elem_of_app in He' as [He' | He']; [by apply Hc|].
  apply list_elem_of_singleton in He' as ->. done.
Qed.

Lemma ids_pushNode g n x : x ∈ ids (pushNode n g) ↔ x ∈ ids g ∨ x = id n.
Proof.
  unfold ids. simpl. rewrite fmap_app, elem_of_app. simpl.
  by rewrite list_elem_of_singleton.
Qed.

Lemma dataFlowVisitor_invariant env p s :
  dataFlowInvariant s → dataFlowInvariant (dataFlowVisitor env p s).
Proof.
  intros [Hc Hm]. unfold dataFlowVisitor.
  destruct (isVariableDeclarator _).
  - destruct (get "id" (node p)) as [i|]; [|done].
    destruct (isIdentifier (Some i)); [|done].
    split; simpl.
    + by apply closed_pushNode.
    + intros nm varId H. apply ids_pushNode. revert H.
      destruct (decide (name_of i = nm)) as [<- | Hne].
      * rewrite lookup_insert_eq. intros [= <-]. by right.
      * rewrite lookup_insert_ne by done. intros H. left. by eapply Hm.
  - destruct (isIdentifier _); [|done].
    destruct (df_variableMap s !! name_of (node p)) as [varId|] eqn:E; [|done].
    destruct (isAssignmentExpression _); [|done].
    split; simpl.
    + apply closed_pushEdge; simpl.
      * apply ids_pushNode. left. by eapply Hm.
      * apply ids_pushNode. by right.
      * by apply closed_pushNode.
    + intros nm v H. apply ids_pushNode. left. by eapply Hm.
Qed.

Lemma generateDataFlow_closed env ast filePath d :
  generateDataFlow env ast filePath = Ok d → edgesClosed d.
Proof.
  unfold generateDataFlow.
  destruct (traverse ast) as [paths|e]; simpl; [|done].
  intros [= <-]. unfold edgesClosed, nodeIds. simpl.
  assert (dataFlowInvariant
            (run (dataFlowVisitor env) paths (mkDataFlowState (mkGraph [] []) ∅ 0)))
    as [Hc _]; [|exact Hc].
  apply run_invariant; [intros; by apply dataFlowVisitor_invariant|].
  split; [intros e He; inversion He | intros nm v H; done].
Qed.

(** The shape of the data-flow graph does not depend on the environment. *)
Lemma dataFlowVisitor_sameShape env1 env2 p s1 s2 :
  sameShape s1 s2 → sameShape (dataFlowVisitor env1 p s1) (dataFlowVisitor env2 p s2).
Proof.
  intros (Hm & Hd & Hn & He). unfold dataFlowVisitor.
  destruct (isVariableDeclarator _).
  - destruct (get "id" (node p)) as [i|]; [|done].
    destruct (isIdentifier (Some i)); [|done].
    repeat split; simpl; try done.
    + by rewrite Hm.
    + by rewrite !fmap_app, Hn.
  - destruct (isIdentifier _); [|done].
    rewrite <- Hm.
    destruct (df_variableMap s1 !! name_of (node p)) as [varId|]; [|done].
    destruct (isAssignmentExpression _); [|done].
    repeat split; simpl; try done.
    + by rewrite Hd.
    + by rewrite !fmap_app, Hn.
    + by rewrite !fmap_app, He.
Qed.

Lemma dataFlowVisitor_ext env1 env2 p s :
  (∀ k, Date_now env1 k = Date_now env2 k ∧ Math_random env1 k = Math_random env2 k) →
  dataFlowVisitor env1 p s = dataFlowVisitor env2 p s.
Proof.
  intros H. unfold dataFlowVisitor.
  destruct (H (df_draws s)) as [-> ->]. done.
Qed.

(** *** Component tree *)

(** The traversal rooted at a component throws: a graph is returned
    only when no component is found, and it is empty. *)
Lemma analyzeComponentChildren_throws path componentId s :
  is_one_of ["FunctionDeclaration"; "ArrowFunctionExpression"; "ClassDeclaration"]
            (Some (node path)) = true →
  ∃ e, analyzeComponentChildren path componentId s = Throw e.
Proof.
  intros H. unfold analyzeComponentChildren.
  destruct (traverse_throws (node path)) as [e ->]; [| |simpl; eauto].
  - intros E. unfold is_one_of, is_a in H. rewrite E in H. done.
  - intros E. unfold is_one_of, is_a in H. rewrite E in H. done.
Qed.

Lemma componentVisitor_ok path s s' :
  componentVisitor path s = Ok s' → s' = s.
Proof.
  unfold componentVisitor.
  destruct (addComponentNode path s) as [componentId s1].
  destruct (isFunctionDeclaration (Some (node path))) eqn:E1.
  { destruct (isReactComponent path); [|by intros [= <-]].
    destruct (analyzeComponentChildren_throws path componentId s1) as [e ->]; [|done].
    unfold is_one_of. simpl. unfold isFunctionDeclaration in E1. simpl in E1.
    by rewrite E1. }
  destruct (isArrowFunctionExpression (Some (node path))) eqn:E2.
  { destruct (isReactComponent path); [|by intros [= <-]].
    destruct (analyzeComponentChildren_throws path componentId s1) as [e ->]; [|done].
    unfold is_one_of. simpl. unfold isArrowFunctionExpression in E2. simpl in E2.
    rewrite E2. by rewrite orb_true_r. }
  destruct (isClassDeclaration (Some (node path))) eqn:E3.
  { destruct (isReactClassComponent path); [|by intros [= <-]].
    destruct (analyzeComponentChildren_throws path componentId s1) as [e ->]; [|done].
    unfold is_one_of. simpl. unfold isClassDeclaration in E3. simpl in E3.
    rewrite E3. by rewrite !orb_true_r. }
  by intros [= <-].
Qed.

Lemma run_throwing_componentVisitor paths s s' :
  run_throwing componentVisitor paths s = Ok s' → s' = s.
Proof.
  revert s. induction paths as [|p paths IH]; intros s; simpl; [by intros [= <-]|].
  destruct (componentVisitor p s) as [s1|e] eqn:E; simpl; [|done].
  apply componentVisitor_ok in E as ->. apply IH.
Qed.

Lemma generateComponentTree_empty ast filePath d :
  generateComponentTree ast filePath = Ok d → nodes d = [] ∧ edges d = [].
Proof.
  unfold generateComponentTree.
  destruct (traverse ast) as [paths|e]; simpl; [|done].
  destruct (run_throwing _ _ _) as [s|e] eqn:E; simpl; [|done].
  apply run_throwing_componentVisitor in E as ->. by intros [= <-].
Qed.

End FlowGraphTheorems.

Section DependencyGraphFacts.
Import Babel FlowDiagramGenerator.

Lemma addFile_fold files : ∀ g,
  closed g →
  closed (fold_left addFile files g)
  ∧ Graph_le g (fold_left addFile files g)
  ∧ ∀ file, file ∈ files → fileIdOf (file_path file) ∈ ids (fold_left addFile files g).
Proof.
  induction files as [|f files IH]; intros g Hc; simpl.
  - split; [done|]. split; [apply Graph_le_refl|]. intros file H. inversion H.
  - destruct (IH (addFile g f)) as (H1 & H2 & H3); [by apply closed_pushNode|].
    split; [done|]. split.
    + eapply Graph_le_trans; [|exact H2]. apply Graph_le_pushNode, Graph_le_refl.
    + intros file Hin. apply elem_of_cons in Hin as [-> | Hin]; [|by apply H3].
      eapply ids_mono; [exact H2|]. apply ids_pushNode. by right.
Qed.

Lemma usedIn_fold depId paths : ∀ g,
  closed g → depId ∈ ids g →
  (∀ filePath, filePath ∈ paths → fileIdOf filePath ∈ ids g) →
  closed (fold_left (λ g filePath,
                       pushEdge (mkFlowEdge depId (fileIdOf filePath)
                                            (Some e_dependency) None) g)
                    paths g)
  ∧ ids (fold_left (λ g filePath,
                      pushEdge (mkFlowEdge depId (fileIdOf filePath)
                                           (Some e_dependency) None) g)
                   paths g) = ids g.
Proof.
  induction paths as [|fp paths IH]; intros g Hc Hd Hf; simpl; [done|].
  set (g' := pushEdge (mkFlowEdge depId (fileIdOf fp) (Some e_dependency) None) g).
  destruct (IH g') as [H1 H2].
  - apply closed_pushEdge; [done | apply Hf; left | done].
  - done.
  - intros filePath Hin. apply Hf. by right.
  - split; [exact H1 | exact H2].
Qed.

Lemma addDependency_fold (listed : string → Prop) deps : ∀ g,
  closed g →
  (∀ filePath, listed filePath → fileIdOf filePath ∈ ids g) →
  (∀ dep filePath, dep ∈ deps → filePath ∈ usedIn dep → listed filePath) →
  closed (fold_left addDependency deps g).
Proof.
  induction deps as [|dep deps IH]; intros g Hc Hl Hu; simpl; [done|].
  unfold addDependency at 2.
  match goal with
  | |- context [fold_left ?f (usedIn dep) ?g'] =>
      destruct (usedIn_fold ("dep_" +:+ dep_name dep) (usedIn dep) g') as [H1 H2]
  end.
  - by apply closed_pushNode.
  - apply ids_pushNode. by right.
  - intros filePath Hin. apply ids_pushNode. left. apply Hl.
    apply (Hu dep); [left | done].
  - apply IH; [done | |].
    + intros filePath Hin. rewrite H2. apply ids_pushNode. left. by apply Hl.
    + intros d filePath Hd. apply Hu. by right.
Qed.

Lemma generateDependencyGraph_closed projectInfo :
  usedFilesListed projectInfo → edgesClosed (generateDependencyGraph projectInfo).
Proof.
  intros Hused. unfold edgesClosed, generateDependencyGraph, nodeIds. simpl.
  destruct (addFile_fold (project_files projectInfo) (mkGraph [] []))
    as (Hc & _ & Hf); [intros e He; inversion He|].
  apply (addDependency_fold
           (λ filePath, ∃ file, file ∈ project_files projectInfo
                                ∧ sanitize (file_path file) = sanitize filePath)).
  - exact Hc.
  - intros filePath (file & Hin & Heq). unfold fileIdOf. rewrite <- Heq.
    by apply Hf.
  - intros dep filePath Hd Hp. by apply (Hused dep).
Qed.

End DependencyGraphFacts.

Section FlowGraphClaims.
Import Babel FlowDiagramGenerator FlowDiagramViews.

Lemma generateDataFlow_sameShape env1 env2 ast filePath d1 :
  generateDataFlow env1 ast filePath = Ok d1 →
  ∃ d2, generateDataFlow env2 ast filePath = Ok d2
        ∧ forgetAssignmentIds d1 = forgetAssignmentIds d2.
Proof.
  unfold generateDataFlow.
  destruct (traverse ast) as [paths|e]; simpl; [|done].
  intros [= <-]. eexists. split; [reflexivity|].
  unfold forgetAssignmentIds. simpl.
  destruct (run_related sameShape (dataFlowVisitor env1) (dataFlowVisitor env2) paths
              (mkDataFlowState (mkGraph [] []) ∅ 0)
              (mkDataFlowState (mkGraph [] []) ∅ 0))
    as (_ & _ & Hn & He).
  - intros p s t. apply dataFlowVisitor_sameShape.
  - done.
  - by rewrite Hn, He.
Qed.

Lemma generateDataFlow_ext env1 env2 ast filePath :
  (∀ k, Date_now env1 k = Date_now env2 k ∧ Math_random env1 k = Math_random env2 k) →
  generateDataFlow env1 ast filePath = generateDataFlow env2 ast filePath.
Proof.
  intros H. unfold generateDataFlow.
  destruct (traverse ast) as [paths|e]; simpl; [|done].
  assert (∀ s, run (dataFlowVisitor env1) paths s = run (dataFlowVisitor env2) paths s)
    as ->; [|done].
  induction paths as [|p paths IH]; intros s; simpl; [done|].
  rewrite (dataFlowVisitor_ext env1 env2 p s H). apply IH.
Qed.

(** The claim C2 fails for data flow: on [let x = 1; x = 2;] two calls
    that draw different random numbers return different node ids. *)
Lemma C2_data_flow_ids_differ :
  ∃ d1 d2,
    generateDataFlow Samples.env1 Samples.assignedVariable "test.js" = Ok d1
    ∧ generateDataFlow Samples.env2 Samples.assignedVariable "test.js" = Ok d2
    ∧ nodeIds d1 = ["var_x"; "assign_1700000000000_0.25"]
    ∧ nodeIds d2 = ["var_x"; "assign_1700000000000_0.75"]
    ∧ d1 ≠ d2.
Proof.
  eexists. eexists. split; [vm_compute; reflexivity|].
  split; [vm_compute; reflexivity|].
  split; [vm_compute; reflexivity|].
  split; [vm_compute; reflexivity|].
  intros H. apply (f_equal nodeIds) in H. vm_compute in H. discriminate.
Qed.

(** One visit either draws no id, and then does not depend on the
    environment, or draws the id of one assignment node. *)
Lemma dataFlowVisitor_draw env p s :
  (df_draws (dataFlowVisitor env p s) = df_draws s
   ∧ assignmentIds (dataFlowVisitor env p s) = assignmentIds s
   ∧ ∀ env', dataFlowVisitor env' p s = dataFlowVisitor env p s)
  ∨ (df_draws (dataFlowVisitor env p s) = S (df_draws s)
     ∧ assignmentIds (dataFlowVisitor env p s)
       = assignmentIds s ++ [assignmentIdOf env (df_draws s)]
     ∧ ∀ env', assignmentIdOf env' (df_draws s) = assignmentIdOf env (df_draws s) →
               dataFlowVisitor env' p s = dataFlowVisitor env p s).
Proof.
  unfold dataFlowVisitor, assignmentIds, assignmentIdOf.
  destruct (isVariableDeclarator _).
  { left. destruct (get "id" (node p)) as [i|]; [|done].
    destruct (isIdentifier (Some i)); [|done].
    split; [done|]. split; [|done]. simpl.
    by rewrite filter_app, filter_cons_False, app_nil_r. }
  destruct (isIdentifier _); [|by left].
  destruct (df_variableMap s !! name_of (node p)) as [varId|]; [|by left].
  destruct (isAssignmentExpression _); [|by left].
  right. split; [done|]. split.
  - simpl. by rewrite filter_app, filter_cons_True, fmap_app.
  - intros env' E. by rewrite E.
Qed.

Lemma run_snoc {S} (visitor : NodePath → S → S) paths p s :
  run visitor (paths ++ [p]) s = visitor p (run visitor paths s).
Proof. by rewrite run_app. Qed.

(** The assignment nodes are named by the draws, in order; two runs agree
    as soon as they draw the same ids. *)
Lemma dataFlow_run env1 env2 paths s :
  assignmentIds s = assignmentIdOf env1 <$> seq 0 (df_draws s) →
  assignmentIds (run (dataFlowVisitor env1) paths s)
  = assignmentIdOf env1 <$> seq 0 (df_draws (run (dataFlowVisitor env1) paths s))
  ∧ ((∀ k, df_draws s ≤ k < df_draws (run (dataFlowVisitor env1) paths s) →
           assignmentIdOf env1 k = assignmentIdOf env2 k) →
     run (dataFlowVisitor env2) paths s = run (dataFlowVisitor env1) paths s)
  ∧ df_draws s ≤ df_draws (run (dataFlowVisitor env1) paths s).
Proof.
  intros Hs. induction paths as [|p paths (IHids & IHeq & IHle)] using rev_ind.
  { split; [done|]. split; [done|]. simpl. lia. }
  rewrite !run_snoc.
  destruct (dataFlowVisitor_draw env1 p (run (dataFlowVisitor env1) paths s))
    as [(Hd & Hi & Hext) | (Hd & Hi & Hext)]; rewrite Hd, Hi.
  - split; [done|]. split; [|lia].
    intros Hagree. rewrite IHeq; [apply Hext|].
    intros k Hk. apply Hagree. lia.
  - split; [by rewrite seq_S, fmap_app, IHids|]. split; [|lia].
    intros Hagree. rewrite IHeq.
    + apply Hext. symmetry. apply Hagree. lia.
    + intros k Hk. apply Hagree. lia.
Qed.

(** C2, amended.  Data-flow synthesis is deterministic up to the ids of
    its assignment nodes.  The [k]-th assignment node of a call is named
    after the [k]-th value of the clock and the [k]-th random number that
    the call reads.  Two syntheses of the same tree return graphs that
    are equal once the ids of the assignment nodes are blanked, and they
    are equal outright exactly when the two calls draw the same id for
    every assignment node. *)
Theorem C2_synthesis_determinism ast filePath env1 env2 d1 :
  generateDataFlow env1 ast filePath = Ok d1 →
  ∃ d2, generateDataFlow env2 ast filePath = Ok d2
        ∧ forgetAssignmentIds d1 = forgetAssignmentIds d2
        ∧ id <$> nodesOfType t_process d1
          = assignmentIdOf env1 <$> seq 0 (length (nodesOfType t_process d1))
        ∧ (d1 = d2 ↔
           ∀ k, k < length (nodesOfType t_process d1) →
                assignmentIdOf env1 k = assignmentIdOf env2 k).
Proof.
  intros Hd1.
  destruct (generateDataFlow_sameShape env1 env2 ast filePath d1 Hd1)
    as (d2 & Hd2 & Hshape).
  exists d2. split; [exact Hd2|]. split; [exact Hshape|].
  unfold generateDataFlow in Hd1, Hd2.
  destruct (traverse ast) as [paths|e]; simpl in Hd1, Hd2; [|done].
  injection Hd1 as <-. injection Hd2 as <-.
  set (s0 := mkDataFlowState (mkGraph [] []) ∅ 0).
  destruct (dataFlow_run env1 env2 paths s0 eq_refl) as (Hids1 & Heq & _).
  destruct (dataFlow_run env2 env1 paths s0 eq_refl) as (Hids2 & _ & _).
  assert (df_draws (run (dataFlowVisitor env1) paths s0)
          = df_draws (run (dataFlowVisitor env2) paths s0)) as Hdraws.
  { apply (run_related sameShape (dataFlowVisitor env1) (dataFlowVisitor env2));
      [intros p s t; apply dataFlowVisitor_sameShape | done]. }
  assert (length (nodesOfType t_process
                    {| nodes := g_nodes (df_graph (run (dataFlowVisitor env1) paths s0));
                       edges := g_edges (df_graph (run (dataFlowVisitor env1) paths s0));
                       metadata := mkMetadata data_flow ("Data Flow - " +:+ filePath)
                                              "数据流图" |})
          = df_draws (run (dataFlowVisitor env1) paths s0)) as Hlen.
  { unfold nodesOfType. cbn [nodes].
    rewrite <- (length_fmap id). fold (assignmentIds (run (dataFlowVisitor env1) paths s0)).
    by rewrite Hids1, length_fmap, length_seq. }
  rewrite Hlen. split; [exact Hids1|]. split.
  - intros Hsame k Hk.
    assert (assignmentIds (run (dataFlowVisitor env1) paths s0)
            = assignmentIds (run (dataFlowVisitor env2) paths s0)) as Hsameids.
    { unfold assignmentIds. by injection Hsame as -> _. }
    rewrite Hids1, Hids2, <- Hdraws in Hsameids.
    apply (f_equal (λ l, l !! k)) in Hsameids.
    rewrite !list_lookup_fmap, !lookup_seq_lt in Hsameids by done.
    simpl in Hsameids. congruence.
  - intros Hagree. rewrite Heq; [done|].
    intros k Hk. apply Hagree. lia.
Qed.

Lemma C2_witness :
  ∃ d1 d2,
    generateDataFlow Samples.env1 Samples.assignedVariable "test.js" = Ok d1
    ∧ generateDataFlow Samples.env2 Samples.assignedVariable "test.js" = Ok d2
    ∧ forgetAssignmentIds d1 = forgetAssignmentIds d2
    ∧ id <$> nodesOfType t_process d1 = ["assign_1700000000000_0.25"]
    ∧ d1 ≠ d2.
Proof.
  destruct (generateDataFlow Samples.env1 Samples.assignedVariable "test.js")
    as [d1|] eqn:Hd1; [|revert Hd1; vm_compute; discriminate].
  destruct (C2_synthesis_determinism Samples.assignedVariable "test.js"
              Samples.env1 Samples.env2 d1 Hd1) as (d2 & Hd2 & Hs & Hids & Hiff).
  assert (length (nodesOfType t_process d1) = 1) as Hlen.
  { revert Hd1. vm_compute. by intros [= <-]. }
  exists d1, d2. split; [done|]. split; [done|]. split; [done|]. split.
  - rewrite Hids, Hlen. vm_compute. reflexivity.
  - intros Heq. destruct Hiff as [Hto _].
    assert (0 < length (nodesOfType t_process d1)) as Hk by (rewrite Hlen; lia).
    pose proof (Hto Heq 0 Hk) as Hdraw.
    vm_compute in Hdraw. discriminate.
Defined.

(** C4, amended.  In every control-flow and data-flow graph returned, the
    endpoints of every edge are ids of nodes of the graph; so it is in a
    dependency graph when every path of a [usedIn] list is the path of a
    listed file.  A control-flow graph returned has exactly one start
    node and exactly one end node; no edge enters or leaves the end node,
    so the end node is not reachable from the start node.  A component
    tree returned has no node and no edge. *)
Theorem C4_flow_graph_invariants ast filePath :
  (∀ d, generateControlFlow ast filePath = Ok d →
        edgesClosed d
        ∧ nodesOfType t_start d = [mkFlowNode "start" "Start" t_start None]
        ∧ nodesOfType t_end d = [mkFlowNode "end" "End" t_end None]
        ∧ (∀ e, e ∈ edges d → from e ≠ "end" ∧ to e ≠ "end")
        ∧ ¬ reachable d "start" "end")
  ∧ (∀ env d, generateDataFlow env ast filePath = Ok d → edgesClosed d)
  ∧ (∀ d, generateComponentTree ast filePath = Ok d →
          nodes d = [] ∧ edges d = [])
  ∧ (∀ projectInfo,
       usedFilesListed projectInfo →
       edgesClosed (generateDependencyGraph projectInfo)).
Proof.
  split; [|split; [|split]].
  - intros d Hd.
    destruct (generateControlFlow_graph ast filePath d Hd)
      as (g & (Hedges & Hstart & Hend) & Hn & He).
    assert (∀ e, e ∈ edges d → from e ≠ "end" ∧ to e ≠ "end") as Hnoend.
    { intros e Hin. rewrite He in Hin.
      destruct (Hedges e Hin) as [[_ Hf] [_ Ht]]. done. }
    unfold edgesClosed, nodesOfType, nodeIds. rewrite Hn, He.
    split; [|split; [|split; [|split]]].
    + intros e Hin. destruct (Hedges e Hin) as [[Hf _] [Ht _]].
      rewrite fmap_app, !elem_of_app. split; by left.
    + by rewrite filter_app, Hstart.
    + by rewrite filter_app, Hend.
    + intros e Hin. apply Hnoend. by rewrite He.
    + intros Hr. apply reachable_no_incoming in Hr; [done|].
      intros e Hin. by apply Hnoend.
  - intros env d. apply generateDataFlow_closed.
  - intros d. apply generateComponentTree_empty.
  - apply generateDependencyGraph_closed.
Qed.

Lemma C4_witness :
  ∃ d, generateControlFlow Samples.twoStatements "test.js" = Ok d
       ∧ edgesClosed d
       ∧ nodesOfType t_start d = [mkFlowNode "start" "Start" t_start None]
       ∧ nodesOfType t_end d = [mkFlowNode "end" "End" t_end None]
       ∧ (∀ e, e ∈ edges d → from e ≠ "end" ∧ to e ≠ "end")
       ∧ ¬ reachable d "start" "end".
Proof.
  destruct (generateControlFlow Samples.twoStatements "test.js")
    as [d|] eqn:Hd; [|revert Hd; vm_compute; discriminate].
  exists d. split; [reflexivity|].
  exact (proj1 (C4_flow_graph_invariants Samples.twoStatements "test.js") d Hd).
Defined.

End FlowGraphClaims.

(** ** State bindings of a component *)

Section StateBindings.
Import Babel ComponentAnalyzer.

Lemma stateBinding_shape declarator x initial :
  stateBinding declarator = Some (x, initial) ↔
  isStateBindingShape declarator x initial.
Proof.
  unfold stateBinding, isStateBindingShape. split.
  - destruct (get "init" declarator) as [init|]; [|done].
    destruct (get "id" declarator) as [pattern|]; [|done].
    destruct (isCallExpression (Some init)) eqn:E1; [|done].
    destruct (get "callee" init) as [callee|] eqn:Ec; [|done].
    destruct (isIdentifier (Some callee)) eqn:E2; [|done].
    destruct (String.eqb (name_of callee) "useState") eqn:E3; [|done].
    destruct (isArrayPattern (Some pattern)) eqn:E4; [|done].
    cbn [andb].
    destruct (0 <? length (get_all "elements" pattern)); [|done].
    destruct (head (get_all "elements" pattern)) as [x'|] eqn:E5; [|done].
    destruct (isIdentifier (Some x')) eqn:E6; [|done].
    intros [= <- <-]. exists init, pattern, callee.
    apply is_a_type in E1, E2, E4, E6. apply String.eqb_eq in E3.
    by repeat split.
  - intros (init & pattern & callee & -> & T1 & Hc & T2 & Hn & -> & T3 & Hx & T4 & ->).
    unfold isCallExpression, isIdentifier, isArrayPattern, is_a.
    rewrite Hc, T1, T2, Hn, T3, Hx, T4. simpl.
    destruct (get_all "elements" pattern); [done|]. done.
Qed.

Lemma stateVisitor_definitions p s :
  definitions (stateVisitor p s) = definitions s
  ∨ ∃ x initial,
      isVariableDeclarator (Some (node p)) = true
      ∧ stateBinding (node p) = Some (x, initial)
      ∧ definitions (stateVisitor p s)
        = definitions s ++ [definitionOf (node p) x initial].
Proof.
  unfold stateVisitor.
  destruct (isVariableDeclarator _); [|by left].
  destruct (stateBinding (node p)) as [[x initial]|]; [|by left].
  right. by exists x, initial.
Qed.

Lemma stateVisitor_declarator p s x initial :
  isVariableDeclarator (Some (node p)) = true →
  stateBinding (node p) = Some (x, initial) →
  definitions (stateVisitor p s) = definitions s ++ [definitionOf (node p) x initial].
Proof. unfold stateVisitor. by intros -> ->. Qed.

Lemma run_stateVisitor_definitions paths : ∀ s d,
  d ∈ definitions (run stateVisitor paths s) ↔
  d ∈ definitions s
  ∨ ∃ p x initial,
      p ∈ paths
      ∧ isVariableDeclarator (Some (node p)) = true
      ∧ stateBinding (node p) = Some (x, initial)
      ∧ d = definitionOf (node p) x initial.
Proof.
  induction paths as [|p paths IH]; intros s d; simpl.
  - split; [by left|]. intros [H | (p & x & i & H & _)]; [done | inversion H].
  - rewrite IH. split.
    + intros [H | (q & x & i & Hq & H)].
      * destruct (stateVisitor_definitions p s) as [E | (x & i & Hd & Hb & E)];
          rewrite E in H; [by left|].
        apply elem_of_app in H as [H | H]; [by left|].
        apply list_elem_of_singleton in H as ->.
        right. exists p, x, i. repeat split; [left | done | done].
      * right. exists q, x, i. split; [by right | done].
    + intros [H | (q & x & i & Hq & Hd & Hb & ->)].
      * left. destruct (stateVisitor_definitions p s) as [-> | (x & i & _ & _ & ->)];
          [done | apply elem_of_app; by left].
      * apply elem_of_cons in Hq as [-> | Hq].
        -- left. rewrite (stateVisitor_declarator p s x i Hd Hb).
           apply elem_of_app. right. left.
        -- right. by exists q, x, i.
Qed.

Lemma run_stateVisitor_list paths s :
  definitions (run stateVisitor paths s)
  = definitions s
    ++ omap (λ p, if isVariableDeclarator (Some (node p))
                  then '(x, initial) ← stateBinding (node p);
                       Some (definitionOf (node p) x initial)
                  else None)
            paths.
Proof.
  revert s. induction paths as [|p paths IH]; intros s.
  { simpl. by rewrite app_nil_r. }
  change (run stateVisitor (p :: paths) s)
    with (run stateVisitor paths (stateVisitor p s)).
  rewrite IH.
  change (omap ?f (p :: paths)) with
    (match f p with Some d => d :: omap f paths | None => omap f paths end).
  cbv beta. unfold stateVisitor.
  destruct (isVariableDeclarator (Some (node p))); [|done].
  destruct (stateBinding (node p)) as [[x i]|]; [|done].
  simpl. by rewrite <- app_assoc.
Qed.

(** The claim C8 fails in its general half: in the component
    [function Flag() { let [b] = useState(); ... }] the binding is
    declared with [let], has no setter and no initial value, and is
    recognized all the same, as a state [b] of type [any]. *)
Lemma C8_let_without_setter_is_recognized :
  definitions (analyzeState MoreSamples.letStateComponent)
  = [{| name := "b";
        stateType := "any";
        initialValue := Scalar VUndefined;
        isPrivate := false;
        isReadonly := false;
        location := mkPos 2 6 |}].
Proof. vm_compute. reflexivity. Qed.

(** C8, amended.  In the component
    [function Counter() { const [count, setCount] = useState(0); ... }]
    the analysis of the state finds exactly one definition, named
    [count], of type [number] and with initial value [0].  In general a
    definition is recorded exactly for the visited declarators of the
    shape [[x, ...] = useState(initial)], whatever the keyword of the
    declaration and whether or not a setter and an argument are there,
    with the name of the identifier [x] and the type and the value of
    the literal [initial]; the definitions come in the order of the
    visits.  A pattern that starts with a hole, as in
    [const [, setOnly] = useState(2)], gives none. *)
Theorem C8_state_binding_recognized :
  definitions (analyzeState Samples.counterComponent)
  = [{| name := "count";
        stateType := "number";
        initialValue := Scalar (VNum 0);
        isPrivate := false;
        isReadonly := false;
        location := mkPos 2 8 |}]
  ∧ (∀ component d,
      d ∈ definitions (analyzeState component) ↔
      ∃ p x initial,
        p ∈ traverseAST component
        ∧ type (node p) = "VariableDeclarator"
        ∧ isStateBindingShape (node p) x initial
        ∧ d = definitionOf (node p) x initial)
  ∧ (∀ component,
      definitions (analyzeState component)
      = omap (λ p, if isVariableDeclarator (Some (node p))
                   then '(x, initial) ← stateBinding (node p);
                        Some (definitionOf (node p) x initial)
                   else None)
             (traverseAST component))
  ∧ definitions (analyzeState MoreSamples.setterOnlyComponent) = [].
Proof.
  split; [vm_compute; reflexivity|]. split; [|split; [|vm_compute; reflexivity]].
  - intros component d. unfold analyzeState.
    rewrite run_stateVisitor_definitions. simpl. split.
    + intros [H | (p & x & i & Hp & Hd & Hb & ->)]; [inversion H|].
      exists p, x, i. apply is_a_type in Hd. apply stateBinding_shape in Hb. done.
    + intros (p & x & i & Hp & Hd & Hb & ->). right.
      exists p, x, i. apply stateBinding_shape in Hb.
      repeat split; try done. unfold isVariableDeclarator, is_a. rewrite Hd. done.
  - intros component. unfold analyzeState.
    rewrite run_stateVisitor_list. reflexivity.
Qed.

(** The earlier version of the analyzer records no state at all. *)
Lemma earlier_analyzeState_empty component :
  ComponentAnalyzerEarlier.analyzeState component = [].
Proof.
  unfold ComponentAnalyzerEarlier.analyzeState.
  induction (ComponentAnalyzerEarlier.findUseStateCalls component) as [|c l IH];
    [reflexivity | exact IH].
Qed.

End StateBindings.

(** ** Input errors of the project analyzer *)

Section InputErrors.
Import Babel FrontendCodeAnalyzer.

Context {FunctionInfo ComponentInfo ImportsExports DependencyInfo : Type}.
Variable existsSync : string → bool.
Variable readFileSync : string → Result string.
Variable statSize : string → Result nat.
Variable parse : string → Result Node.
Variable basename : string → string.
Variable countLines : string → nat.
Variable detectFileType : string → string.
Variable analyzeFunctions : Node → Result (list FunctionInfo).
Variable analyzeComponents : Node → Result (list ComponentInfo).
Variable analyzeImportsExports : Node → Result ImportsExports.
Variable getSourceFiles : string → list string.
Variable readFramework : string → string * string.
Variable readDependencies : string → list DependencyInfo.

Abbreviation analyzeFile :=
  (analyzeFile readFileSync statSize parse countLines detectFileType
               analyzeFunctions analyzeComponents analyzeImportsExports).
Abbreviation analyzeFiles :=
  (analyzeFiles readFileSync statSize parse countLines detectFileType
                analyzeFunctions analyzeComponents analyzeImportsExports
                getSourceFiles).
Abbreviation analyzeProject :=
  (analyzeProject (DependencyInfo := DependencyInfo)
                  existsSync readFileSync statSize parse basename countLines
                  detectFileType analyzeFunctions analyzeComponents
                  analyzeImportsExports getSourceFiles readFramework
                  readDependencies).

Lemma analyzeVariables_throws ast :
  type ast ≠ "Program" → type ast ≠ "File" →
  ∃ e, VariableTracker.analyzeVariables ast = Throw e.
Proof.
  intros H1 H2. unfold VariableTracker.analyzeVariables.
  destruct (traverse_throws ast H1 H2) as [e ->]. simpl. eauto.
Qed.

(** C5, amended.  A project path that does not exist yields the empty
    project model and no error.  For a single file, an error of reading
    is raised as it is, and a text that the parser rejects, or a tree
    whose root is neither a file nor a program, raises a [ParseError]
    that names the file; a file model is returned only for a text that
    was read and parsed.  In the analysis of an existing project a file
    whose analysis raises is left out of the file list, and the analysis
    returns a model. *)
Theorem C5_input_errors projectPath filePath :
  (existsSync projectPath = false →
   analyzeProject projectPath = Ok (emptyProject basename projectPath))
  ∧ (∀ e, readFileSync filePath = Throw e → analyzeFile filePath = Throw e)
  ∧ (∀ content sz e,
       readFileSync filePath = Ok content → statSize filePath = Ok sz →
       parse content = Throw e →
       analyzeFile filePath = Throw (ParseError ("文件解析失败: " +:+ filePath)))
  ∧ (∀ content sz ast,
       readFileSync filePath = Ok content → statSize filePath = Ok sz →
       parse content = Ok ast → type ast ≠ "Program" → type ast ≠ "File" →
       analyzeFile filePath = Throw (ParseError ("文件解析失败: " +:+ filePath)))
  ∧ (∀ info,
       analyzeFile filePath = Ok info →
       ∃ content ast,
         readFileSync filePath = Ok content ∧ parse content = Ok ast
         ∧ VariableTracker.analyzeVariables ast = Ok (variables info))
  ∧ (∀ info,
       info ∈ analyzeFiles projectPath ↔
       ∃ fp, fp ∈ getSourceFiles projectPath ∧ analyzeFile fp = Ok info)
  ∧ (existsSync projectPath = true →
     ∃ project, analyzeProject projectPath = Ok project
                ∧ files project = analyzeFiles projectPath).
Proof.
  repeat split.
  - intros H. unfold FrontendCodeAnalyzer.analyzeProject. by rewrite H.
  - intros e H. unfold FrontendCodeAnalyzer.analyzeFile. by rewrite H.
  - intros content sz e Hr Hs Hp. unfold FrontendCodeAnalyzer.analyzeFile.
    rewrite Hr. simpl. rewrite Hs. simpl. by rewrite Hp.
  - intros content sz ast Hr Hs Hp H1 H2. unfold FrontendCodeAnalyzer.analyzeFile.
    rewrite Hr. simpl. rewrite Hs. simpl. rewrite Hp. simpl.
    destruct (analyzeVariables_throws ast H1 H2) as [e ->]. done.
  - intros info. unfold FrontendCodeAnalyzer.analyzeFile.
    destruct (readFileSync filePath) as [content|] eqn:Hr; simpl; [|done].
    destruct (statSize filePath) as [sz|]; simpl; [|done].
    destruct (parse content) as [ast|] eqn:Hp; simpl; [|done].
    destruct (VariableTracker.analyzeVariables ast) as [vars|] eqn:Hv; simpl; [|done].
    destruct (analyzeFunctions ast); simpl; [|done].
    destruct (analyzeComponents ast); simpl; [|done].
    destruct (analyzeImportsExports ast); simpl; [|done].
    intros [= <-]. by exists content, ast.
  - unfold FrontendCodeAnalyzer.analyzeFiles. rewrite list_elem_of_omap.
    intros (fp & Hfp & H). exists fp. split; [done|].
    destruct (analyzeFile fp); [by injection H as -> | done].
  - intros (fp & Hfp & H). unfold FrontendCodeAnalyzer.analyzeFiles.
    apply list_elem_of_omap. exists fp. split; [done|]. by rewrite H.
  - intros H. unfold FrontendCodeAnalyzer.analyzeProject. rewrite H. simpl.
    eexists. split; reflexivity.
Qed.

End InputErrors.

Section InputErrorSamples.
Import FrontendCodeAnalyzer.

(** The claim C5 fails for a project path that does not exist: the
    analysis returns the empty project model instead of raising. *)
Lemma C5_missing_project_is_not_an_error :
  ∃ project,
    Samples.analyzeMissingProject = Ok project
    ∧ framework project = "unknown"
    ∧ files project = []
    ∧ dependencies project = [].
Proof. eexists. repeat split. Qed.

Lemma C5_witness :
  Samples.analyzeBrokenFile = Throw (ParseError "文件解析失败: broken.js").
Proof.
  apply (proj1 (proj2 (proj2
           (C5_input_errors (DependencyInfo := unit)
              (λ _, true)
              (λ _, Ok "const name = ;")
              (λ _, Ok 14)
              (λ _, Throw (Error "Unexpected token (1:13)"))
              (λ _, "path") (λ _, 1) (λ _, "other")
              (λ _, Ok []) (λ _, Ok []) (λ _, Ok ())
              (λ _, []) (λ _, ("unknown", "path")) (λ _, [])
              "project" "broken.js")))
           "const name = ;" 14 (Error "Unexpected token (1:13)"));
    reflexivity.
Defined.

End InputErrorSamples.

(** * Further properties of the analyzers *)

(** ** What the variable tracker extracts *)

Section TrackerExtraction.
Import Babel VariableTracker VariableTrackerViews.

Lemma declarationVisitor_declarationOf p s :
  declarationVisitor p s
  = match declarationOf p with Some v => declare v s | None => s end.
Proof.
  unfold declarationVisitor, declarationOf.
  repeat match goal with
         | |- context [if ?b then _ else _] => destruct b
         end; reflexivity.
Qed.

Lemma declarationOf_created p v :
  declarationOf p = Some v → ∃ ty, v = createVariableInfo p ty.
Proof.
  unfold declarationOf.
  repeat match goal with
         | |- context [if ?b then _ else _] => destruct b
         end; intros [= <-]; eauto.
Qed.

Lemma declaration_run_variables paths : ∀ s,
  variables (run declarationVisitor paths s)
  = variables s ++ omap declarationOf paths.
Proof.
  induction paths as [|p paths IH]; intros s; simpl.
  - by rewrite app_nil_r.
  - rewrite IH, declarationVisitor_declarationOf.
    destruct (declarationOf p); simpl; [by rewrite <- app_assoc | done].
Qed.

Lemma resetUsage_alter u i (l : list VariableInfo) :
  resetUsage <$> alter (addUsage u) i l = resetUsage <$> l.
Proof.
  revert i. induction l as [|v l IH]; intros i; [done|].
  destruct i as [|i]; cbn; [done|]. f_equal. apply IH.
Qed.

Lemma usage_run_resetUsage paths : ∀ s,
  resetUsage <$> variables (run usageVisitor paths s) = resetUsage <$> variables s.
Proof.
  induction paths as [|p paths IH]; intros s; simpl; [done|].
  rewrite IH.
  destruct (usageVisitor_variables p s) as [-> | (i & _ & _ & ->)]; [done|].
  apply resetUsage_alter.
Qed.

Lemma resetUsage_declarations (paths : list NodePath) :
  resetUsage <$> omap declarationOf paths = omap declarationOf paths.
Proof.
  induction paths as [|p paths IH]; [done|].
  change (omap declarationOf (p :: paths))
    with (match declarationOf p with
          | Some y => y :: omap declarationOf paths
          | None => omap declarationOf paths
          end).
  destruct (declarationOf p) as [v|] eqn:E; [|done].
  rewrite fmap_cons, IH. f_equal. apply declarationOf_created in E as [ty ->]. done.
Qed.

Lemma analyzeVariables_declarations ast vars paths :
  analyzeVariables ast = Ok vars →
  traverse ast = Ok paths →
  resetUsage <$> vars = omap declarationOf paths.
Proof.
  intros Hrun Htr. unfold analyzeVariables, analyzeVariableUsage in Hrun.
  rewrite Htr in Hrun. simpl in Hrun. injection Hrun as <-.
  rewrite usage_run_resetUsage, declaration_run_variables. simpl.
  apply resetUsage_declarations.
Qed.

(** X1. The descriptors returned are, in the order of the traversal, the
    ones built at the visited declarators with a plain identifier, function
    and class declarations with a name, and arrow functions assigned in
    such a declarator; the usage traversal changes their usage fields
    only. *)
Theorem X1_descriptors_follow_declarations ast vars paths :
  analyzeVariables ast = Ok vars →
  traverse ast = Ok paths →
  resetUsage <$> vars = omap declarationOf paths.
Proof. apply analyzeVariables_declarations. Qed.

Lemma X1_witness :
  ∃ vars paths,
    analyzeVariables Samples.usageProgram = Ok vars
    ∧ traverse Samples.usageProgram = Ok paths
    ∧ resetUsage <$> vars = omap declarationOf paths.
Proof.
  eexists. eexists. split; [vm_compute; reflexivity|].
  split; [reflexivity|].
  apply (X1_descriptors_follow_declarations Samples.usageProgram);
    [vm_compute; reflexivity | reflexivity].
Defined.

End TrackerExtraction.

(** ** Flags and facets of the variable tracker *)

Section TrackerFlags.
Import Babel VariableTracker VariableTrackerViews.

Lemma isExported_false p : isExported p = false.
Proof. unfold isExported, climb. by destruct (parent p). Qed.

Lemma getUsageContext_global p : getUsageContext p = "global".
Proof. unfold getUsageContext, climb. by destruct (parent p). Qed.

Lemma isConditional_false p : isConditional p = false.
Proof. unfold isConditional, climb. by destruct (parent p). Qed.

(** X2. The checks that climb the ancestors with [.parent] never see an
    ancestor: no descriptor returned is marked exported, and every usage
    record has the context [global] and is not marked conditional. *)
Theorem X2_ancestor_checks_never_fire ast vars :
  analyzeVariables ast = Ok vars →
  ∀ v, v ∈ vars →
    isExportedFlag v = false
    ∧ ∀ u, u ∈ usage v → context u = "global" ∧ isConditionalFacet u = false.
Proof.
  intros Hrun v Hv.
  assert (Forall (λ v, isExportedFlag v = false
                       ∧ ∀ u, u ∈ usage v →
                              context u = "global" ∧ isConditionalFacet u = false)
                 vars) as Hall.
  { apply (analyzeVariables_invariant _ ast vars); [| |done].
    - intros p ty. split; [apply isExported_false|].
      intros u Hu. inversion Hu.
    - intros p w [He Hu]. split; [done|]. intros u. simpl.
      rewrite elem_of_app, list_elem_of_singleton.
      intros [Hin | ->]; [by apply Hu|].
      split; [apply getUsageContext_global | apply isConditional_false]. }
  rewrite Forall_forall in Hall. by apply Hall.
Qed.

Lemma X2_witness :
  ∃ vars, analyzeVariables Samples.usageProgram = Ok vars
          ∧ ∀ v, v ∈ vars →
              isExportedFlag v = false
              ∧ ∀ u, u ∈ usage v →
                     context u = "global" ∧ isConditionalFacet u = false.
Proof.
  eexists. split; [vm_compute; reflexivity|].
  apply (X2_ancestor_checks_never_fire Samples.usageProgram).
  vm_compute. reflexivity.
Defined.

Lemma getDeclarationType_arrow_init p :
  isVariableDeclarator (Some (node p)) = true →
  isArrowFunctionExpression (get "init" (node p)) = true →
  getDeclarationType p "variable" = decl_arrow.
Proof. unfold getDeclarationType. simpl. by intros -> ->. Qed.

(** X3. A descriptor is read-only exactly when its declaration type is
    [const]; a variable initialised with an arrow function gets the
    declaration type [arrow], so it is never read-only, whatever keyword
    declares it. *)
Theorem X3_readonly_is_const ast vars paths :
  analyzeVariables ast = Ok vars →
  traverse ast = Ok paths →
  (∀ v, v ∈ vars → isReadonly v = true ↔ declarationType v = decl_const)
  ∧ (∀ p v, p ∈ paths →
       isVariableDeclarator (Some (node p)) = true →
       isArrowFunctionExpression (get "init" (node p)) = true →
       declarationOf p = Some v →
       ∃ w, w ∈ vars ∧ resetUsage w = v
            ∧ declarationType w = decl_arrow ∧ isReadonly w = false).
Proof.
  intros Hrun Htr. split.
  - intros v Hv.
    assert (Forall (λ v, isReadonly v = bool_decide (declarationType v = decl_const))
                   vars) as Hall.
    { apply (analyzeVariables_invariant _ ast vars); [| |done]; done. }
    rewrite Forall_forall in Hall. rewrite (Hall v Hv).
    apply bool_decide_eq_true.
  - intros p v Hp Hd Ha Hv.
    pose proof (X := analyzeVariables_declarations ast vars paths Hrun Htr).
    assert (v ∈ resetUsage <$> vars) as Hin.
    { rewrite X. apply list_elem_of_omap. eauto. }
    apply list_elem_of_fmap in Hin as (w & -> & Hw).
    exists w. split; [done|]. split; [done|].
    unfold declarationOf in Hv. rewrite Hd in Hv.
    destruct (isIdentifier _); [|done].
    assert (createVariableInfo p "variable" = resetUsage w) as E by congruence.
    apply (f_equal declarationType) in E as Hdt.
    apply (f_equal isReadonly) in E as Hro. simpl in Hdt, Hro.
    rewrite (getDeclarationType_arrow_init p Hd Ha) in Hdt, Hro. done.
Qed.

Lemma X3_witness :
  ∃ vars w,
    analyzeVariables MoreSamples.arrowProgram = Ok vars
    ∧ w ∈ vars ∧ name w = "add"
    ∧ declarationType w = decl_arrow ∧ isReadonly w = false.
Proof.
  destruct (analyzeVariables_returns MoreSamples.arrowProgram) as [vars Hvars];
    [reflexivity|].
  set (paths := descendants MoreSamples.arrowProgram).
  destruct (paths !! 2) as [p|] eqn:Hp; [|by vm_compute in Hp].
  assert (node p = MoreSamples.addDeclarator) as Hnode.
  { vm_compute in Hp. injection Hp as <-. reflexivity. }
  destruct (proj2 (X3_readonly_is_const MoreSamples.arrowProgram vars paths
                     Hvars eq_refl) p (createVariableInfo p "variable"))
    as (w & Hw & Hr & Hd & Hro).
  - apply list_elem_of_lookup. eauto.
  - by rewrite Hnode.
  - by rewrite Hnode.
  - unfold declarationOf. by rewrite Hnode.
  - exists vars, w. repeat split; try done.
    apply (f_equal name) in Hr. simpl in Hr. rewrite Hr, Hnode. reflexivity.
Defined.

End TrackerFlags.

(** ** The kind of a usage and its facets *)

Section UsageKinds.
Import Babel VariableTracker VariableTrackerViews.

(** The table that a usage record satisfies. *)
Lemma makeUsage_kind p :
  let u := makeUsage p in
  (usageType u = usage_assignment ↔ isAssignmentFacet u = true)
  ∧ (usageType u = usage_function_call ↔ isFunctionCallFacet u = true)
  ∧ (usageType u = usage_property_access ↔ isPropertyAccessFacet u = true)
  ∧ (usageType u = usage_array_access ↔ isArrayAccessFacet u = true)
  ∧ (usageType u = usage_loop ↔ isLoopVariableFacet u = true)
  ∧ usageType u ≠ usage_declaration
  ∧ usageType u ≠ usage_return
  ∧ usageType u ≠ usage_other.
Proof.
  unfold makeUsage, getUsageType, isInConditionalContext, isLoopVariable,
    isAssignment, isFunctionCall, isPropertyAccess, isArrayAccess, climb.
  cbn [usageType isAssignmentFacet isFunctionCallFacet isPropertyAccessFacet
       isArrayAccessFacet isLoopVariableFacet].
  destruct (parent p) as [n|]; cbn [fmap option_fmap option_map as_node];
    [|vm_compute; repeat split; intros; congruence].
  unfold isAssignmentExpression, isCallExpression, isMemberExpression,
    isArrayExpression, isConditionalExpression, isIfStatement, isSwitchStatement,
    isSwitchCase, isForStatement, isForInStatement, isForOfStatement,
    isWhileStatement, isDoWhileStatement, is_a.
  generalize (type n). intros t.
  repeat match goal with
         | |- context [String.eqb t ?s] =>
             destruct (String.eqb_spec t s) as [-> | ?];
             [vm_compute; repeat split; intros; congruence|]
         end.
  vm_compute; repeat split; intros; congruence.
Qed.

(** X4. In every usage record the kind and the facets agree: the kind is
    [assignment], [function_call], [property_access], [array_access] or
    [loop] exactly when the facet of that name is true, and the kinds
    [declaration], [return] and [other] are never given. *)
Theorem X4_usage_kind_matches_facets ast vars :
  analyzeVariables ast = Ok vars →
  ∀ v u, v ∈ vars → u ∈ usage v →
    (usageType u = usage_assignment ↔ isAssignmentFacet u = true)
    ∧ (usageType u = usage_function_call ↔ isFunctionCallFacet u = true)
    ∧ (usageType u = usage_property_access ↔ isPropertyAccessFacet u = true)
    ∧ (usageType u = usage_array_access ↔ isArrayAccessFacet u = true)
    ∧ (usageType u = usage_loop ↔ isLoopVariableFacet u = true)
    ∧ usageType u ≠ usage_declaration
    ∧ usageType u ≠ usage_return
    ∧ usageType u ≠ usage_other.
Proof.
  intros Hrun v u Hv Hu.
  assert (Forall (λ v, ∀ u, u ∈ usage v → ∃ p, u = makeUsage p) vars) as Hall.
  { apply (analyzeVariables_invariant _ ast vars); [| |done].
    - intros p ty u' Hu'. inversion Hu'.
    - intros p w Hw u'. simpl. rewrite elem_of_app, list_elem_of_singleton.
      intros [Hin | ->]; [by apply Hw | by exists p]. }
  rewrite Forall_forall in Hall. destruct (Hall v Hv u Hu) as [p ->].
  apply makeUsage_kind.
Qed.

Lemma X4_witness :
  ∃ vars, analyzeVariables Samples.usageProgram = Ok vars
          ∧ ∀ v u, v ∈ vars → u ∈ usage v →
              (usageType u = usage_assignment ↔ isAssignmentFacet u = true)
              ∧ (usageType u = usage_function_call ↔ isFunctionCallFacet u = true).
Proof.
  eexists. split; [vm_compute; reflexivity|].
  intros v u Hv Hu.
  destruct (X4_usage_kind_matches_facets Samples.usageProgram _ eq_refl v u Hv Hu)
    as (H1 & H2 & _).
  split; assumption.
Defined.

End UsageKinds.

(** ** Where the usages go *)

Section UsageAccounting.
Import Babel VariableTracker VariableTrackerViews.

Lemma name_alter u i (l : list VariableInfo) :
  name <$> alter (addUsage u) i l = name <$> l.
Proof.
  revert i. induction l as [|v l IH]; intros i; [done|].
  destruct i as [|i]; cbn; [done|]. f_equal. apply IH.
Qed.

Lemma usageVisitor_names p s :
  name <$> variables (usageVisitor p s) = name <$> variables s.
Proof.
  destruct (usageVisitor_variables p s) as [-> | (i & _ & _ & ->)]; [done|].
  apply name_alter.
Qed.

Lemma lookup_name (l l' : list VariableInfo) k v :
  name <$> l' = name <$> l → l' !! k = Some v →
  ∃ w, l !! k = Some w ∧ name w = name v.
Proof.
  intros Hn Hk.
  assert ((name <$> l) !! k = Some (name v)) as H.
  { rewrite <- Hn, list_lookup_fmap, Hk. done. }
  rewrite list_lookup_fmap in H. destruct (l !! k) as [w|]; [|done].
  exists w. split; [done|]. by injection H.
Qed.

Lemma mapConsistent_names s s' :
  variableMap s' = variableMap s →
  name <$> variables s' = name <$> variables s →
  mapConsistent s → mapConsistent s'.
Proof.
  intros Hm Hn [Ha Hb]. split.
  - intros nm i Hi. rewrite Hm in Hi. destruct (Ha nm i Hi) as (v & Hv & Hname).
    destruct (lookup_name (variables s') (variables s) i v (eq_sym Hn) Hv)
      as (w & Hw & Hnw).
    exists w. split; [done | congruence].
  - intros i v Hv. rewrite Hm.
    destruct (lookup_name _ _ i v Hn Hv) as (w & Hw & <-). by eapply Hb.
Qed.

Lemma mapLast_names s s' :
  variableMap s' = variableMap s →
  name <$> variables s' = name <$> variables s →
  mapLast s → mapLast s'.
Proof.
  intros Hm Hn Hl nm j Hj k v Hv Hname. rewrite Hm in Hj.
  destruct (lookup_name _ _ k v Hn Hv) as (w & Hw & Hnw).
  eapply Hl; eauto. congruence.
Qed.

Lemma declare_mapLast info s : mapLast s → mapLast (declare info s).
Proof.
  intros Hl nm j. simpl. destruct (decide (name info = nm)) as [<- | Hne].
  - rewrite lookup_insert_eq. intros [= <-] k v Hv _.
    apply lookup_lt_Some in Hv. rewrite length_app in Hv. simpl in Hv. lia.
  - rewrite lookup_insert_ne by done. intros Hj k v Hv Hname.
    destruct (decide (k < length (variables s))) as [Hlt | Hge].
    + rewrite lookup_app_l in Hv by done. by eapply Hl.
    + rewrite lookup_app_r in Hv by lia.
      destruct (k - length (variables s)); simpl in Hv; [|done].
      injection Hv as <-. done.
Qed.

Lemma declaration_run_mapLast paths s :
  mapLast s → mapLast (run declarationVisitor paths s).
Proof.
  apply run_invariant. intros p s' Hs'.
  destruct (declarationVisitor_cases p s') as [-> | (ty & ->)]; [done|].
  by apply declare_mapLast.
Qed.

Lemma lookup_alter_inv u i (l : list VariableInfo) k v' :
  alter (addUsage u) i l !! k = Some v' →
  ∃ v, l !! k = Some v ∧ ((k = i ∧ v' = addUsage u v) ∨ (k ≠ i ∧ v' = v)).
Proof.
  rewrite list_lookup_alter. destruct (decide (i = k)) as [-> | Hne].
  - destruct (l !! k) as [v|]; simpl; [|done]. intros [= <-]. eauto.
  - intros H. exists v'. split; [done|]. right. split; [congruence | done].
Qed.

Lemma usageVisitor_shadowed p s :
  mapConsistent s → mapLast s →
  shadowedUnused (variables s) → shadowedUnused (variables (usageVisitor p s)).
Proof.
  intros [Ha _] Hl Hs.
  destruct (usageVisitor_variables p s) as [-> | (i & Hi & _ & ->)]; [done|].
  intros k k' v v' Hlt Hk Hk' Hname.
  apply lookup_alter_inv in Hk as (v0 & Hv0 & Hcase).
  apply lookup_alter_inv in Hk' as (w0 & Hw0 & Hcase').
  assert (name v = name v0) as E1 by (destruct Hcase as [[_ ->] | [_ ->]]; done).
  assert (name v' = name w0) as E2 by (destruct Hcase' as [[_ ->] | [_ ->]]; done).
  destruct Hcase as [[-> ->] | [Hne ->]].
  - destruct (Ha _ _ Hi) as (x & Hx & Hnx).
    assert (x = v0) as -> by congruence.
    assert (k' ≤ i); [|lia].
    eapply (Hl _ _ Hi k' w0); [done | congruence].
  - eapply (Hs k k' v0 w0); eauto. congruence.
Qed.

Lemma analyzeVariables_stores ast vars paths :
  analyzeVariables ast = Ok vars →
  traverse ast = Ok paths →
  ∃ s1, s1 = run declarationVisitor paths (mkStore [] ∅)
        ∧ vars = variables (run usageVisitor paths s1)
        ∧ mapConsistent s1 ∧ mapLast s1
        ∧ Forall (λ v, usage v = [] ∧ usageCount v = 0) (variables s1).
Proof.
  intros Hrun Htr. unfold analyzeVariables, analyzeVariableUsage in Hrun.
  rewrite Htr in Hrun. simpl in Hrun. injection Hrun as <-.
  eexists. split; [reflexivity|]. split; [reflexivity|]. split; [|split].
  - apply declaration_run_consistent. split; [intros ?? H | intros ?? H]; done.
  - apply declaration_run_mapLast. intros nm j H. done.
  - rewrite declaration_run_variables. simpl. apply Forall_forall.
    intros v Hv. apply list_elem_of_omap in Hv as (p & _ & Hp).
    apply declarationOf_created in Hp as [ty ->]. done.
Qed.

(** X5. No shadow-aware resolution: when two descriptors carry the same
    name, every usage of the name is recorded on the later one, and the
    earlier one is returned with an empty usage list and a usage count
    of 0. *)
Theorem X5_earlier_declaration_gets_no_usage ast vars k k' v v' :
  analyzeVariables ast = Ok vars →
  k < k' → vars !! k = Some v → vars !! k' = Some v' → name v = name v' →
  usage v = [] ∧ usageCount v = 0.
Proof.
  intros Hrun Hlt Hk Hk' Hname.
  assert (∃ paths, traverse ast = Ok paths) as [paths Htr].
  { unfold analyzeVariables in Hrun. destruct (traverse ast); [eauto | done]. }
  destruct (analyzeVariables_stores ast vars paths Hrun Htr)
    as (s1 & _ & -> & Hc & Hl & Hempty).
  assert (usage v = []) as Hu.
  { assert (mapConsistent (run usageVisitor paths s1)
            ∧ mapLast (run usageVisitor paths s1)
            ∧ shadowedUnused (variables (run usageVisitor paths s1)))
      as (_ & _ & Hs).
    { apply (run_invariant
               (λ s, mapConsistent s ∧ mapLast s ∧ shadowedUnused (variables s))).
      - intros p s (H1 & H2 & H3). split; [|split].
        + eapply mapConsistent_names; eauto using usageVisitor_map, usageVisitor_names.
        + eapply mapLast_names; eauto using usageVisitor_map, usageVisitor_names.
        + by apply usageVisitor_shadowed.
      - split; [done|]. split; [done|].
        intros i i' x x' _ Hi _ _. rewrite Forall_forall in Hempty.
        apply (Hempty x). apply list_elem_of_lookup. eauto. }
    by apply (Hs k k' v v'). }
  split; [done|].
  pose proof (analyzeVariables_invariant usageConsistent ast _
                createVariableInfo_consistent
                (λ q w, addUsage_consistent (makeUsage q) w) Hrun) as Hcons.
  rewrite Forall_forall in Hcons.
  destruct (Hcons v) as [-> _]; [apply list_elem_of_lookup; eauto|].
  by rewrite Hu.
Qed.

Lemma X5_witness :
  ∃ vars v v',
    analyzeVariables MoreSamples.redeclaredProgram = Ok vars
    ∧ vars !! 0 = Some v ∧ vars !! 1 = Some v'
    ∧ name v = "x" ∧ name v' = "x"
    ∧ usage v = [] ∧ usageCount v = 0 ∧ usageCount v' = 3.
Proof.
  destruct (analyzeVariables_returns MoreSamples.redeclaredProgram) as [vars Hvars];
    [reflexivity|].
  assert (∃ v v', vars !! 0 = Some v ∧ vars !! 1 = Some v'
                  ∧ name v = "x" ∧ name v' = "x" ∧ usageCount v' = 3)
    as (v & v' & H0 & H1 & Hn & Hn' & Hc).
  { revert Hvars. vm_compute. intros [= <-]. eexists. eexists.
    repeat split; reflexivity. }
  destruct (X5_earlier_declaration_gets_no_usage
              MoreSamples.redeclaredProgram vars 0 1 v v' Hvars) as [Hu Hz];
    [lia | done | done | congruence |].
  exists vars, v, v'. by repeat split.
Defined.

End UsageAccounting.

Section UsageConservation.
Import Babel VariableTracker VariableTrackerViews.

Lemma total_alter u i (l : list VariableInfo) :
  i < length l →
  totalUsageCount (alter (addUsage u) i l) = S (totalUsageCount l).
Proof.
  unfold totalUsageCount. revert i.
  induction l as [|v l IH]; intros i Hi; simpl in Hi; [lia|].
  destruct i as [|i]; cbn; [done|]. rewrite IH by lia. lia.
Qed.

Lemma tracked_iff s p :
  mapConsistent s →
  isTrackedIdentifier (name <$> variables s) p = true ↔
  isIdentifier (Some (node p)) = true
  ∧ is_Some (variableMap s !! name_of (node p)).
Proof.
  intros [Ha Hb]. unfold isTrackedIdentifier.
  rewrite andb_true_iff, bool_decide_eq_true. split.
  - intros [Hi Hin]. split; [done|].
    apply list_elem_of_fmap in Hin as (v & Hn & Hv).
    apply list_elem_of_lookup in Hv as [i Hv]. rewrite Hn. by eapply Hb.
  - intros [Hi [i Hm]]. split; [done|].
    destruct (Ha _ _ Hm) as (v & Hv & <-).
    apply list_elem_of_fmap. exists v. split; [done|].
    apply list_elem_of_lookup. eauto.
Qed.

Lemma usage_run_total paths : ∀ s,
  mapConsistent s →
  totalUsageCount (variables (run usageVisitor paths s))
  = totalUsageCount (variables s)
    + length (filter (λ p, isTrackedIdentifier (name <$> variables s) p = true) paths).
Proof.
  induction paths as [|p paths IH]; intros s Hs; simpl; [lia|].
  assert (mapConsistent (usageVisitor p s)) as Hs'.
  { eapply mapConsistent_names; eauto using usageVisitor_map, usageVisitor_names. }
  rewrite (IH _ Hs'), usageVisitor_names.
  pose proof (tracked_iff s p Hs) as Ht.
  destruct (isTrackedIdentifier (name <$> variables s) p) eqn:E.
  - rewrite filter_cons_True by done. simpl.
    destruct (proj1 Ht eq_refl) as [Hi [i Hm]].
    unfold usageVisitor. rewrite Hi, Hm. cbn [variables].
    rewrite total_alter; [lia|].
    destruct Hs as [Ha _]. destruct (Ha _ _ Hm) as (v & Hv & _).
    by eapply lookup_lt_Some.
  - rewrite filter_cons_False by (simpl; congruence).
    assert (variables (usageVisitor p s) = variables s) as ->; [|done].
    unfold usageVisitor.
    destruct (isIdentifier (Some (node p))) eqn:Hi; [|done].
    destruct (variableMap s !! name_of (node p)) as [i|] eqn:Hm; [|done].
    assert (false = true) as Hf; [|done].
    apply (proj2 Ht). split; [done | eauto].
Qed.

(** X6. Every identifier visited whose name is the name of a returned
    descriptor adds exactly one usage to exactly one descriptor, and no
    other node adds any: the usage counts of the descriptors sum to the
    number of such identifiers. *)
Theorem X6_usage_counts_add_up ast vars paths :
  analyzeVariables ast = Ok vars →
  traverse ast = Ok paths →
  totalUsageCount vars
  = length (filter (λ p, isTrackedIdentifier (name <$> vars) p = true) paths).
Proof.
  intros Hrun Htr.
  destruct (analyzeVariables_stores ast vars paths Hrun Htr)
    as (s1 & _ & -> & Hc & _ & Hempty).
  rewrite (usage_run_total paths s1 Hc).
  assert (totalUsageCount (variables s1) = 0) as ->.
  { unfold totalUsageCount. induction Hempty as [|v l [_ Hv] _ IH]; [done|].
    rewrite fmap_cons. cbn [sum_list sum_list_with]. rewrite Hv.
    unfold sum_list in IH. exact IH. }
  simpl. f_equal.
  assert (name <$> variables (run usageVisitor paths s1) = name <$> variables s1)
    as ->; [|done].
  clear. revert s1. induction paths as [|p paths IH]; intros s; simpl; [done|].
  by rewrite IH, usageVisitor_names.
Qed.

Lemma X6_witness :
  ∃ vars paths,
    analyzeVariables Samples.usageProgram = Ok vars
    ∧ traverse Samples.usageProgram = Ok paths
    ∧ totalUsageCount vars = 3
    ∧ length (filter (λ p, isTrackedIdentifier (name <$> vars) p = true) paths) = 3.
Proof.
  destruct (analyzeVariables_returns Samples.usageProgram) as [vars Hvars];
    [reflexivity|].
  exists vars, (descendants Samples.usageProgram).
  split; [done|]. split; [reflexivity|].
  assert (totalUsageCount vars = 3) as Ht.
  { revert Hvars. vm_compute. by intros [= <-]. }
  split; [done|].
  rewrite <- (X6_usage_counts_add_up Samples.usageProgram vars _ Hvars eq_refl).
  exact Ht.
Defined.

End UsageConservation.

(** ** The complexity walkers never over-count *)

Section ComplexityBound.
Import Babel.

Lemma sum_kids_mono (f g : Node → nat) ks :
  Forall (λ kc, f kc.2 ≤ g kc.2) ks → Spec.sum_kids f ks ≤ Spec.sum_kids g ks.
Proof.
  induction 1 as [|[k c] ks Hc _ IH]; simpl; [done|]. simpl in Hc. lia.
Qed.

Lemma sum_kids_add (f g : Node → nat) ks :
  Spec.sum_kids (λ n, f n + g n) ks = Spec.sum_kids f ks + Spec.sum_kids g ks.
Proof. induction ks as [|[k c] ks IH]; simpl; [done|]. lia. Qed.

Lemma sum_over_le f k ks : sum_over f k ks ≤ Spec.sum_kids f ks.
Proof.
  induction ks as [|[k' c] ks IH]; simpl; [done|].
  destruct (String.eqb k k'); lia.
Qed.

Lemma at_child_le f k ks : at_child f k ks ≤ Spec.sum_kids f ks.
Proof.
  induction ks as [|[k' c] ks IH]; simpl; [done|].
  destruct (String.eqb k k'); lia.
Qed.

Lemma at_child_pair_le f k1 k2 ks :
  k1 ≠ k2 → at_child f k1 ks + at_child f k2 ks ≤ Spec.sum_kids f ks.
Proof.
  intros Hne. induction ks as [|[k' c] ks IH]; simpl; [done|].
  destruct (String.eqb_spec k1 k') as [-> | H1],
           (String.eqb_spec k2 k') as [-> | H2]; try done.
  - pose proof (at_child_le f k2 ks). lia.
  - pose proof (at_child_le f k1 ks). lia.
  - lia.
Qed.

Lemma sum_kids_lookup f k ks c :
  lookup_kid k ks = Some c → f c ≤ Spec.sum_kids f ks.
Proof.
  induction ks as [|[k' c'] ks IH]; simpl; [done|].
  destruct (String.eqb k k'); [intros [= ->]; lia|].
  intros H. specialize (IH H). lia.
Qed.

(** Deciding the type tests of a walker on a node of unknown type. *)
Ltac by_type t :=
  repeat match goal with
         | |- context [String.eqb t ?s] =>
             destruct (String.eqb_spec t s) as [-> | ?]
         end.

Lemma findComplexityNodes_bound n :
  FunctionAnalyzer.findComplexityNodes n ≤ Spec.decisionPointCount n.
Proof.
  induction n as [ty l a ks IH] using Node_induction.
  pose proof (sum_kids_mono _ _ ks IH) as Hk.
  pose proof (sum_over_le FunctionAnalyzer.findComplexityNodes "body" ks).
  pose proof (sum_over_le FunctionAnalyzer.findComplexityNodes "cases" ks).
  pose proof (at_child_le FunctionAnalyzer.findComplexityNodes "body" ks).
  pose proof (at_child_pair_le FunctionAnalyzer.findComplexityNodes
                "consequent" "alternate" ks ltac:(done)).
  simpl. unfold Spec.isDecisionPoint, is_one_of, is_a. simpl.
  unfold FunctionAnalyzer.findComplexityNodes in *.
  fold FunctionAnalyzer.findComplexityNodes in *.
  destruct (bool_decide (attr "operator" (mkNode ty l a ks) = VStr "&&")),
           (bool_decide (attr "operator" (mkNode ty l a ks) = VStr "||"));
    by_type ty; simpl; try lia; try discriminate.
Qed.

Lemma tracker_walkers_bound n :
  VariableTracker.findConditionalNodes n + VariableTracker.findLoopNodes n
  ≤ Spec.decisionPointCount n.
Proof.
  induction n as [ty l a ks IH] using Node_induction.
  pose proof (sum_kids_mono
                (λ n, VariableTracker.findConditionalNodes n
                      + VariableTracker.findLoopNodes n)
                Spec.decisionPointCount ks IH) as Hk.
  rewrite sum_kids_add in Hk.
  pose proof (sum_over_le VariableTracker.findConditionalNodes "body" ks).
  pose proof (sum_over_le VariableTracker.findConditionalNodes "cases" ks).
  pose proof (at_child_le VariableTracker.findConditionalNodes "body" ks).
  pose proof (at_child_pair_le VariableTracker.findConditionalNodes
                "consequent" "alternate" ks ltac:(done)).
  pose proof (sum_over_le VariableTracker.findLoopNodes "body" ks).
  pose proof (at_child_le VariableTracker.findLoopNodes "body" ks).
  pose proof (at_child_pair_le VariableTracker.findLoopNodes
                "consequent" "alternate" ks ltac:(done)).
  simpl. unfold Spec.isDecisionPoint, is_one_of, is_a. simpl.
  unfold VariableTracker.findConditionalNodes, VariableTracker.findLoopNodes in *.
  fold VariableTracker.findConditionalNodes VariableTracker.findLoopNodes in *.
  destruct (bool_decide (attr "operator" (mkNode ty l a ks) = VStr "&&")),
           (bool_decide (attr "operator" (mkNode ty l a ks) = VStr "||"));
    by_type ty; simpl; try lia; try discriminate.
Qed.

End ComplexityBound.

Section ComplexityBoundTheorem.
Import Babel.

(** X7. Neither complexity function counts more than is there: for every
    node the complexity computed by the function analyzer and the one
    computed by the variable tracker are at most 1 plus the number of
    [if], conditional, [switch], loop, [catch] and [&&]/[||] nodes of the
    subtree. *)
Theorem X7_complexity_never_over_counts (n : Node) :
  FunctionAnalyzer.calculateComplexity n ≤ Spec.complexity n
  ∧ VariableTracker.calculateComplexity n ≤ Spec.complexity n.
Proof.
  split.
  - unfold FunctionAnalyzer.calculateComplexity, Spec.complexity.
    pose proof (findComplexityNodes_bound n). lia.
  - unfold VariableTracker.calculateComplexity, Spec.complexity,
      VariableTracker.countConditions, VariableTracker.countLoops.
    destruct (_ || _).
    { pose proof (tracker_walkers_bound n). lia. }
    destruct (isVariableDeclarator _); [|lia].
    destruct (get "init" n) as [init|] eqn:E; [|lia].
    pose proof (tracker_walkers_bound init).
    pose proof (sum_kids_lookup Spec.decisionPointCount "init" (kids n) init E).
    destruct n as [ty l a ks]. simpl in *. lia.
Qed.

End ComplexityBoundTheorem.

(** ** The descriptors of functions *)

Section FunctionDescriptors.
Import Babel FunctionAnalysis.
Variable isStatement : Node → bool.
Variable isExpression : Node → bool.

Lemma run_throwing_invariant {S} (I : S → Prop)
    (visitor : NodePath → S → Result S) paths :
  (∀ p s s', I s → visitor p s = Ok s' → I s') →
  ∀ s s', I s → run_throwing visitor paths s = Ok s' → I s'.
Proof.
  intros Hstep. induction paths as [|p paths IH]; simpl; intros s s' Hs.
  - by intros [= <-].
  - destruct (visitor p s) as [s1|] eqn:E; simpl; [|done].
    apply IH. by apply (Hstep p s).
Qed.

(** The climbs of the function analyzer read [.node] of a syntax node
    after their first step, like those of the variable tracker. *)
Lemma function_isExported_false path : FunctionAnalysis.isExported path = false.
Proof.
  unfold FunctionAnalysis.isExported. by destruct (parent path).
Qed.

Lemma findCallerFunction_none path : findCallerFunction path = None.
Proof.
  unfold findCallerFunction. by destruct (parent path).
Qed.

Lemma functionKind_isFunction path ty :
  functionKind path = Some ty → isFunction (Some (node path)) = true.
Proof.
  unfold functionKind, isFunction, isMethod, isFunctionDeclaration,
    isArrowFunctionExpression, isFunctionExpression, is_one_of.
  cbn [existsb].
  destruct (is_a "FunctionDeclaration" _); [done|].
  destruct (is_a "ArrowFunctionExpression" _); [by rewrite !orb_true_r|].
  destruct (is_a "FunctionExpression" _); [done|].
  destruct (is_a "ObjectMethod" _); [done|].
  destruct (is_a "ClassMethod" _); [done|].
  destruct (is_a "ClassPrivateMethod" _); done.
Qed.

(** On a function node the walker of the performance metrics calls at
    most the callback of statements or of expressions, and stops. *)
Lemma analyzePerformanceNodes_function (f : Node) :
  isFunction (Some f) = true →
  analyzePerformanceNodes isStatement isExpression f
  = if isStatement f then [onStatement]
    else if isExpression f then [onExpression] else [].
Proof.
  destruct f as [ty l a ks].
  unfold isFunction, is_one_of, is_a. simpl. intros H.
  repeat (apply orb_true_iff in H as [H | H]);
    try (apply String.eqb_eq in H; subst ty; simpl; by rewrite app_nil_r).
  discriminate.
Qed.

Lemma createFunctionInfo_inv path ty f :
  createFunctionInfo isStatement isExpression path ty = Ok f →
  parameters f = analyzeParameters (node path)
  ∧ isExportedFlag f = FunctionAnalysis.isExported path
  ∧ complexity f = FunctionAnalyzer.calculateComplexity (node path)
  ∧ callCount f = 0
  ∧ callers f = []
  ∧ performance f
    = calculatePerformanceMetrics isStatement isExpression (node path).
Proof.
  unfold createFunctionInfo.
  destruct (extractFunctionBody (node path)); simpl; [|done].
  by intros [= <-].
Qed.

(** A property of the descriptors that holds at creation and is kept by
    the counting of a call holds for all that are returned. *)
Lemma analyzeFunctions_invariant (P : FunctionInfo → Prop) ast fs :
  (∀ path ty f, functionKind path = Some ty →
                createFunctionInfo isStatement isExpression path ty = Ok f → P f) →
  (∀ f, P f → P (recordCall None f)) →
  analyzeFunctions isStatement isExpression ast = Ok fs →
  Forall P fs.
Proof.
  intros Hcreate Hcall. unfold analyzeFunctions, analyzeFunctionUsage.
  destruct (traverse ast) as [paths|]; simpl; [|done].
  destruct (run_throwing _ paths []) as [fs0|] eqn:E; simpl; [|done].
  intros [= <-].
  apply run_invariant.
  - intros p l Hl. unfold callVisitor.
    destruct (isCallExpression _); [|done].
    destruct (calleeName _) as [fn|]; [|done].
    destruct (negb _); [|done].
    destruct (_ !! fn); [|done].
    rewrite findCallerFunction_none.
    apply Forall_alter; [done|]. intros f _. apply Hcall.
  - revert E. apply (run_throwing_invariant (Forall P)); [|constructor].
    intros p s s' Hs. unfold functionVisitor.
    destruct (functionKind p) as [ty|] eqn:Ek; [|by intros [= <-]].
    destruct (createFunctionInfo _ _ p ty) as [f|] eqn:Ec; simpl; [|done].
    intros [= <-]. apply Forall_app. split; [done|].
    apply Forall_singleton. eauto.
Qed.

End FunctionDescriptors.

Section FunctionMetrics.
Import Babel FunctionAnalysis.

(** X8. The metrics of a function do not see its body: every descriptor
    returned by [analyzeFunctions] has complexity 1, cyclomatic
    complexity 1, no condition, no loop and no local variable, and at
    most one statement or expression (the function node itself). *)
Theorem X8_function_metrics_ignore_body isStatement isExpression ast fs f :
  analyzeFunctions isStatement isExpression ast = Ok fs →
  f ∈ fs →
  complexity f = 1
  ∧ cyclomaticComplexity (performance f) = 1
  ∧ conditionCount (performance f) = 0
  ∧ loopCount (performance f) = 0
  ∧ localVariableCount (performance f) = 0
  ∧ statementCount (performance f) + expressionCount (performance f) ≤ 1.
Proof.
  intros Hrun Hf.
  pose proof (analyzeFunctions_invariant isStatement isExpression
    (λ f, complexity f = 1
          ∧ cyclomaticComplexity (performance f) = 1
          ∧ conditionCount (performance f) = 0
          ∧ loopCount (performance f) = 0
          ∧ localVariableCount (performance f) = 0
          ∧ statementCount (performance f) + expressionCount (performance f) ≤ 1)
    ast fs) as Hall.
  rewrite Forall_forall in Hall. apply Hall; [| |done|done].
  - intros path ty g Hk Hg.
    apply functionKind_isFunction in Hk.
    destruct (createFunctionInfo_inv _ _ _ _ _ Hg) as (_ & _ & -> & _ & _ & ->).
    split; [by apply calculateComplexity_function|].
    unfold calculatePerformanceMetrics.
    rewrite analyzePerformanceNodes_function by done.
    destruct (isStatement (node path)); [simpl; repeat split; lia|].
    destruct (isExpression (node path)); simpl; repeat split; lia.
  - intros g Hg. exact Hg.
Qed.

Lemma X8_witness :
  ∃ fs f,
    analyzeFunctions MoreSamples.isStatement MoreSamples.isExpression
      MoreSamples.callsProgram = Ok fs
    ∧ fs !! 0 = Some f
    ∧ name f = "f"
    ∧ Spec.complexity Samples.nestedIfFunction = 4
    ∧ complexity f = 1
    ∧ cyclomaticComplexity (performance f) = 1
    ∧ conditionCount (performance f) = 0
    ∧ loopCount (performance f) = 0
    ∧ localVariableCount (performance f) = 0
    ∧ statementCount (performance f) + expressionCount (performance f) ≤ 1.
Proof.
  destruct (analyzeFunctions MoreSamples.isStatement MoreSamples.isExpression
              MoreSamples.callsProgram) as [fs|] eqn:Hrun;
    [|revert Hrun; vm_compute; discriminate].
  assert (∃ f, fs !! 0 = Some f ∧ name f = "f") as (f & H0 & Hn).
  { revert Hrun. vm_compute. intros [= <-]. eexists. split; reflexivity. }
  exists fs, f. split; [done|]. split; [done|]. split; [done|].
  split; [vm_compute; reflexivity|].
  apply (X8_function_metrics_ignore_body _ _ _ fs f Hrun).
  apply list_elem_of_lookup. eauto.
Defined.

(** X9. No function is ever reported as exported and no caller is ever
    recorded: in every descriptor returned by [analyzeFunctions] the
    flag [isExported] is false and the list [callers] is empty. *)
Theorem X9_no_export_no_caller isStatement isExpression ast fs f :
  analyzeFunctions isStatement isExpression ast = Ok fs →
  f ∈ fs →
  isExportedFlag f = false ∧ callers f = [].
Proof.
  intros Hrun Hf.
  pose proof (analyzeFunctions_invariant isStatement isExpression
    (λ f, isExportedFlag f = false ∧ callers f = []) ast fs) as Hall.
  rewrite Forall_forall in Hall. apply Hall; [| |done|done].
  - intros path ty g _ Hg.
    destruct (createFunctionInfo_inv _ _ _ _ _ Hg) as (_ & -> & _ & _ & -> & _).
    split; [apply function_isExported_false | done].
  - intros g Hg. exact Hg.
Qed.

Lemma X9_witness :
  ∃ fs f,
    analyzeFunctions MoreSamples.isStatement MoreSamples.isExpression
      MoreSamples.callsProgram = Ok fs
    ∧ fs !! 0 = Some f
    ∧ callCount f = 2
    ∧ isExportedFlag f = false ∧ callers f = [].
Proof.
  destruct (analyzeFunctions MoreSamples.isStatement MoreSamples.isExpression
              MoreSamples.callsProgram) as [fs|] eqn:Hrun;
    [|revert Hrun; vm_compute; discriminate].
  assert (∃ f, fs !! 0 = Some f ∧ callCount f = 2) as (f & H0 & Hn).
  { revert Hrun. vm_compute. intros [= <-]. eexists. split; reflexivity. }
  exists fs, f. split; [done|]. split; [done|]. split; [done|].
  apply (X9_no_export_no_caller _ _ _ fs f Hrun).
  apply list_elem_of_lookup. eauto.
Defined.

End FunctionMetrics.

Section FunctionParameters.
Import Babel FunctionAnalysis.

Lemma on_child_cons {A} (f : Node → A) d k k' c ks :
  on_child f d k ((k', c) :: ks)
  = if String.eqb k k' then f c else on_child f d k ks.
Proof. reflexivity. Qed.

Lemma inferParameterType_values n :
  inferParameterType n = "any" ∨ inferParameterType n = "array".
Proof.
  induction n as [ty l a ks IH] using Node_induction.
  simpl. destruct (String.eqb ty "Identifier"); [by left|].
  destruct (String.eqb ty "AssignmentPattern").
  - clear -IH. induction ks as [|[k c] ks IHks]; [by left|].
    rewrite on_child_cons.
    inversion IH as [|? ? Hc Hks]; subst.
    destruct (String.eqb "left" k); [exact Hc | by apply IHks].
  - destruct (String.eqb ty "RestElement"); auto.
Qed.

Lemma parameterOf_shape param p :
  parameterOf param = Some p →
  (paramType p = "any" ∨ paramType p = "array")
  ∧ (isRest p = true → paramType p = "array" ∧ optional p = false)
  ∧ (optional p = true ↔ is_Some (defaultValue p)).
Proof.
  unfold parameterOf.
  destruct (isIdentifier _).
  { intros [= <-]. simpl. split; [apply inferParameterType_values|].
    split; [done|]. split; [done|]. by intros [? ?]. }
  destruct (isAssignmentPattern _).
  { intros [= <-]. simpl. split.
    - destruct (get "left" param); [apply inferParameterType_values | by left].
    - split; [done|]. split; [eauto | done]. }
  destruct (isRestElement _); [|done].
  intros [= <-]. simpl. split; [by right|].
  split; [done|]. split; [done|]. by intros [? ?].
Qed.

Lemma length_omap_le {A B} (g : A → option B) (l : list A) :
  length (omap g l) ≤ length l.
Proof.
  induction l as [|x l IH]; [done|].
  change (omap g (x :: l))
    with (match g x with Some y => y :: omap g l | None => omap g l end).
  destruct (g x); simpl; lia.
Qed.

(** X10. The descriptor of a function lists at most as many parameters
    as its [parameterCount] says (a destructured parameter is counted
    but not listed).  The type of a listed parameter is never inferred
    from its default value: it is [any] or [array], and [array] for a
    rest parameter, which is not optional; a parameter is optional
    exactly when it carries a default value. *)
Theorem X10_parameters_of_a_function isStatement isExpression ast fs f :
  analyzeFunctions isStatement isExpression ast = Ok fs →
  f ∈ fs →
  length (parameters f) ≤ parameterCount (performance f)
  ∧ ∀ p, p ∈ parameters f →
      (paramType p = "any" ∨ paramType p = "array")
      ∧ (isRest p = true → paramType p = "array" ∧ optional p = false)
      ∧ (optional p = true ↔ is_Some (defaultValue p)).
Proof.
  intros Hrun Hf.
  pose proof (analyzeFunctions_invariant isStatement isExpression
    (λ f, length (parameters f) ≤ parameterCount (performance f)
          ∧ ∀ p, p ∈ parameters f →
              (paramType p = "any" ∨ paramType p = "array")
              ∧ (isRest p = true → paramType p = "array" ∧ optional p = false)
              ∧ (optional p = true ↔ is_Some (defaultValue p)))
    ast fs) as Hall.
  rewrite Forall_forall in Hall. apply Hall; [| |done|done].
  - intros path ty g _ Hg.
    destruct (createFunctionInfo_inv _ _ _ _ _ Hg) as (-> & _ & _ & _ & _ & ->).
    split.
    + unfold calculatePerformanceMetrics, analyzeParameters.
      assert (∀ es m, parameterCount (fold_left (count) es m) = parameterCount m)
        as Hcount.
      { induction es as [|e es IHes]; intros m; simpl; [done|].
        rewrite IHes. by destruct e. }
      rewrite Hcount. simpl. apply length_omap_le.
    + intros p Hp. unfold analyzeParameters in Hp.
      apply list_elem_of_omap in Hp as (param & _ & Hp).
      by apply (parameterOf_shape param).
  - intros g Hg. exact Hg.
Qed.

Lemma X10_witness :
  ∃ fs f,
    analyzeFunctions MoreSamples.isStatement MoreSamples.isExpression
      MoreSamples.callsProgram = Ok fs
    ∧ fs !! 1 = Some f
    ∧ name f = "greet"
    ∧ (paramName <$> parameters f) = ["name"; "rest"]
    ∧ (paramType <$> parameters f) = ["any"; "array"]
    ∧ parameterCount (performance f) = 3
    ∧ length (parameters f) ≤ parameterCount (performance f)
    ∧ ∀ p, p ∈ parameters f →
        (paramType p = "any" ∨ paramType p = "array")
        ∧ (isRest p = true → paramType p = "array" ∧ optional p = false)
        ∧ (optional p = true ↔ is_Some (defaultValue p)).
Proof.
  destruct (analyzeFunctions MoreSamples.isStatement MoreSamples.isExpression
              MoreSamples.callsProgram) as [fs|] eqn:Hrun;
    [|revert Hrun; vm_compute; discriminate].
  assert (∃ f, fs !! 1 = Some f ∧ name f = "greet"
               ∧ (paramName <$> parameters f) = ["name"; "rest"]
               ∧ (paramType <$> parameters f) = ["any"; "array"]
               ∧ parameterCount (performance f) = 3)
    as (f & H0 & Hn & Hp & Ht & Hc).
  { revert Hrun. vm_compute. intros [= <-]. eexists. repeat split; reflexivity. }
  exists fs, f. split; [done|]. split; [done|]. split; [done|].
  split; [done|]. split; [done|]. split; [done|].
  apply (X10_parameters_of_a_function _ _ _ fs f Hrun).
  apply list_elem_of_lookup. eauto.
Defined.

End FunctionParameters.

Section FunctionCalls.
Import Babel FunctionAnalysis.

Lemma functionMapOf_snoc (fs : list FunctionInfo) f :
  functionMapOf (fs ++ [f]) = <[name f := length fs]> (functionMapOf fs).
Proof.
  unfold functionMapOf. rewrite imap_app, fold_left_app. simpl.
  by rewrite Nat.add_0_r.
Qed.

(** The map of [analyzeFunctionUsage] sends a name to the last
    descriptor that carries it. *)
Lemma functionMapOf_lookup (fs : list FunctionInfo) fn i :
  functionMapOf fs !! fn = Some i
  ↔ (name <$> fs) !! i = Some fn ∧ fn ∉ (name <$> drop (S i) fs).
Proof.
  revert i. induction fs as [|f fs IH] using rev_ind; intros i.
  { unfold functionMapOf. simpl. rewrite lookup_empty. split; [done|].
    by intros [? _]. }
  rewrite functionMapOf_snoc, fmap_app. simpl.
  destruct (decide (name f = fn)) as [<-|Hne].
  - rewrite lookup_insert_eq. split.
    + intros [= <-]. split.
      * rewrite lookup_app_r; rewrite length_fmap; [|lia].
        by rewrite Nat.sub_diag.
      * rewrite drop_ge; [|rewrite length_app; simpl; lia].
        simpl. apply not_elem_of_nil.
    + intros [Hi Hlast].
      destruct (decide (i < length fs)) as [Hlt|Hge].
      * exfalso. apply Hlast. rewrite drop_app_le by lia.
        rewrite fmap_app. apply elem_of_app. right. simpl. left.
      * apply lookup_lt_Some in Hi. rewrite length_app, length_fmap in Hi.
        simpl in Hi. f_equal. lia.
  - rewrite lookup_insert_ne by done. rewrite IH. split.
    + intros [Hi Hlast].
      pose proof (lookup_lt_Some _ _ _ Hi) as Hlt. rewrite length_fmap in Hlt.
      split; [by rewrite lookup_app_l by (rewrite length_fmap; lia)|].
      rewrite drop_app_le by lia. rewrite fmap_app, elem_of_app. simpl.
      intros [H | H]; [done|].
      apply list_elem_of_singleton in H. congruence.
    + intros [Hi Hlast].
      assert (i < length fs) as Hlt.
      { destruct (decide (i < length fs)) as [|Hge]; [done|]. exfalso.
        rewrite lookup_app_r in Hi by (rewrite length_fmap; lia).
        rewrite length_fmap in Hi.
        destruct (i - length fs) as [|j] eqn:E; simpl in Hi; [congruence|].
        done. }
      rewrite lookup_app_l in Hi by (rewrite length_fmap; lia).
      split; [done|]. intros H. apply Hlast.
      rewrite drop_app_le by lia. rewrite fmap_app, elem_of_app. by left.
Qed.

Lemma name_recordCall c f : name (recordCall c f) = name f.
Proof. reflexivity. Qed.

Lemma callVisitor_names m p (l : list FunctionInfo) :
  name <$> callVisitor m p l = name <$> l.
Proof.
  unfold callVisitor.
  destruct (isCallExpression _); [|done].
  destruct (calleeName _) as [fn|]; [|done].
  destruct (negb _); [|done].
  destruct (m !! fn) as [i|]; [|done].
  apply list_eq. intros j. rewrite !list_lookup_fmap, list_lookup_alter.
  destruct (decide (i = j)) as [->|]; [|done].
  by destruct (l !! j).
Qed.

(** One visit: the descriptor at [k] gains a call exactly when the map
    sends its name to [k] and the path is a call of that name. *)
Lemma callVisitor_lookup (m : gmap string nat) p (l : list FunctionInfo) k f0 :
  (∀ fn i, m !! fn = Some i → (name <$> l) !! i = Some fn) →
  l !! k = Some f0 →
  ∃ f1, callVisitor m p l !! k = Some f1
        ∧ name f1 = name f0
        ∧ callCount f1
          = callCount f0
            + (if bool_decide (m !! name f0 = Some k) && callsNamed (name f0) p
               then 1 else 0).
Proof.
  intros Hsound Hk.
  assert (∀ b : bool, b = false →
            ∃ f1, l !! k = Some f1 ∧ name f1 = name f0
                  ∧ callCount f1 = callCount f0 + (if b then 1 else 0)) as Hsame.
  { intros b ->. exists f0. split; [done|]. split; [done|]. lia. }
  unfold callVisitor, callsNamed.
  destruct (isCallExpression _);
    [|apply Hsame; simpl; by rewrite andb_false_r].
  destruct (calleeName _) as [fn|];
    [|apply Hsame; rewrite (bool_decide_eq_false_2 (None = Some (name f0))) by done;
      simpl; by rewrite andb_false_r].
  destruct (String.eqb fn "") eqn:Hempty; simpl negb; cbv iota.
  { apply Hsame. apply String.eqb_eq in Hempty as ->.
    destruct (decide (name f0 = "")) as [->|Hne].
    - simpl. by rewrite !andb_false_r.
    - rewrite (bool_decide_eq_false_2 (Some "" = Some (name f0))) by congruence.
      simpl. by rewrite andb_false_r. }
  destruct (m !! fn) as [i|] eqn:Hm.
  - rewrite list_lookup_alter.
    destruct (decide (i = k)) as [->|Hik].
    + rewrite Hk. simpl. eexists. split; [done|]. split; [done|].
      pose proof (Hsound fn k Hm) as Hn.
      rewrite list_lookup_fmap, Hk in Hn. simpl in Hn.
      injection Hn as <-.
      rewrite Hm, !bool_decide_eq_true_2 by done.
      rewrite Hempty. simpl. lia.
    + apply Hsame.
      destruct (decide (name f0 = fn)) as [<-|Hne].
      * rewrite Hm. rewrite (bool_decide_eq_false_2 (Some i = Some k)); [done|].
        congruence.
      * rewrite (bool_decide_eq_false_2 (Some fn = Some (name f0))) by congruence.
        simpl. by rewrite andb_false_r.
  - apply Hsame.
    destruct (decide (name f0 = fn)) as [<-|Hne].
    + rewrite Hm. by rewrite (bool_decide_eq_false_2 (None = Some k)).
    + rewrite (bool_decide_eq_false_2 (Some fn = Some (name f0))) by congruence.
      simpl. by rewrite andb_false_r.
Qed.

Lemma callsOf_cons fn p paths :
  callsOf fn (p :: paths)
  = (if callsNamed fn p then 1 else 0) + callsOf fn paths.
Proof.
  unfold callsOf. destruct (callsNamed fn p) eqn:E.
  - by rewrite filter_cons_True.
  - rewrite filter_cons_False; [done|]. by (simpl; congruence).
Qed.

Lemma call_run_counts (m : gmap string nat) paths : ∀ (l : list FunctionInfo),
  (∀ fn i, m !! fn = Some i → (name <$> l) !! i = Some fn) →
  ∀ k f0, l !! k = Some f0 →
  ∃ f, run (callVisitor m) paths l !! k = Some f
       ∧ name f = name f0
       ∧ callCount f
         = callCount f0
           + (if bool_decide (m !! name f0 = Some k)
              then callsOf (name f0) paths else 0).
Proof.
  induction paths as [|p paths IH]; intros l Hsound k f0 Hk.
  { exists f0. split; [done|]. split; [done|].
    unfold callsOf. simpl. by destruct (bool_decide _); lia. }
  destruct (callVisitor_lookup m p l k f0 Hsound Hk) as (f1 & H1 & Hn1 & Hc1).
  destruct (IH (callVisitor m p l)) with (k := k) (f0 := f1)
    as (f & Hf & Hn & Hc); [|done|].
  { intros fn i Hm. rewrite callVisitor_names. by apply Hsound. }
  exists f. split; [exact Hf|]. split; [congruence|].
  rewrite Hc, Hc1, Hn1, callsOf_cons.
  destruct (bool_decide _), (callsNamed _ p); simpl; lia.
Qed.

Lemma call_run_names m paths : ∀ (l : list FunctionInfo),
  name <$> run (callVisitor m) paths l = name <$> l.
Proof.
  induction paths as [|p paths IH]; intros l; [done|].
  change (run (callVisitor m) (p :: paths) l)
    with (run (callVisitor m) paths (callVisitor m p l)).
  by rewrite IH, callVisitor_names.
Qed.

(** X11. The calls of a name all go to the last function of that name:
    the [callCount] of a returned descriptor is the number of visited
    calls whose callee, or callee property, is an identifier of the
    function's (non-empty) name when no later descriptor carries the
    same name, and 0 when one does. *)
Theorem X11_calls_go_to_the_last_function isStatement isExpression ast paths fs k f :
  analyzeFunctions isStatement isExpression ast = Ok fs →
  traverse ast = Ok paths →
  fs !! k = Some f →
  callCount f
  = if bool_decide (name f ∈ (name <$> drop (S k) fs)) then 0
    else callsOf (name f) paths.
Proof.
  intros Hrun Htr Hk. unfold analyzeFunctions, analyzeFunctionUsage in Hrun.
  rewrite Htr in Hrun. simpl in Hrun.
  destruct (run_throwing _ paths []) as [fs0|] eqn:E; simpl in Hrun; [|done].
  injection Hrun as <-.
  assert (Forall (λ f, callCount f = 0) fs0) as Hzero.
  { revert E. apply (run_throwing_invariant (Forall (λ f, callCount f = 0)));
      [|constructor].
    intros p s s' Hs. unfold functionVisitor.
    destruct (functionKind p) as [ty|]; [|by intros [= <-]].
    destruct (createFunctionInfo _ _ p ty) as [g|] eqn:Ec; simpl; [|done].
    intros [= <-]. apply Forall_app. split; [done|].
    apply Forall_singleton.
    by destruct (createFunctionInfo_inv _ _ _ _ _ Ec) as (_ & _ & _ & -> & _). }
  pose proof (call_run_names (functionMapOf fs0) paths fs0) as Hnames.
  assert (∃ f0, fs0 !! k = Some f0) as [f0 Hk0].
  { apply lookup_lt_is_Some. apply lookup_lt_Some in Hk.
    by rewrite <- (length_fmap name fs0), <- Hnames, length_fmap. }
  destruct (call_run_counts (functionMapOf fs0) paths fs0) with (k := k) (f0 := f0)
    as (f' & Hf' & Hn & Hc); [|done|].
  { intros fn i Hm. by apply functionMapOf_lookup in Hm as [? _]. }
  rewrite Hk in Hf'. injection Hf' as <-.
  rewrite Forall_forall in Hzero.
  rewrite Hc, (Hzero f0) by (apply list_elem_of_lookup; eauto).
  rewrite fmap_drop, Hnames, <- fmap_drop, Hn. simpl.
  destruct (decide (name f0 ∈ (name <$> drop (S k) fs0))) as [Hin|Hout].
  - rewrite (bool_decide_eq_true_2 _ Hin).
    rewrite bool_decide_eq_false_2; [done|].
    intros Hm. by apply functionMapOf_lookup in Hm as [_ ?].
  - rewrite (bool_decide_eq_false_2 _ Hout).
    rewrite bool_decide_eq_true_2; [done|].
    apply functionMapOf_lookup. split; [|done].
    by rewrite list_lookup_fmap, Hk0.
Qed.

Lemma X11_witness :
  ∃ fs f f',
    analyzeFunctions MoreSamples.isStatement MoreSamples.isExpression
      MoreSamples.twiceDeclaredProgram = Ok fs
    ∧ fs !! 0 = Some f ∧ fs !! 1 = Some f'
    ∧ name f = "g" ∧ name f' = "g"
    ∧ callCount f = 0 ∧ callCount f' = 1.
Proof.
  destruct (analyzeFunctions MoreSamples.isStatement MoreSamples.isExpression
              MoreSamples.twiceDeclaredProgram) as [fs|] eqn:Hrun;
    [|revert Hrun; vm_compute; discriminate].
  destruct (traverse MoreSamples.twiceDeclaredProgram) as [paths|] eqn:Htr;
    [|revert Htr; vm_compute; discriminate].
  assert (∃ f f', fs !! 0 = Some f ∧ fs !! 1 = Some f'
                  ∧ name f = "g" ∧ name f' = "g"
                  ∧ bool_decide (name f ∈ (name <$> drop 1 fs)) = true
                  ∧ bool_decide (name f' ∈ (name <$> drop 2 fs)) = false)
    as (f & f' & H0 & H1 & Hn & Hn' & Hd & Hd').
  { revert Hrun. vm_compute. intros [= <-]. eexists. eexists.
    repeat split; reflexivity. }
  assert (callsOf "g" paths = 1) as Hcalls.
  { revert Htr. vm_compute. intros [= <-]. reflexivity. }
  pose proof (X11_calls_go_to_the_last_function _ _ _ paths fs 0 f Hrun Htr H0) as Hc.
  pose proof (X11_calls_go_to_the_last_function _ _ _ paths fs 1 f' Hrun Htr H1) as Hc'.
  rewrite Hd in Hc. rewrite Hd', Hn', Hcalls in Hc'.
  exists fs, f, f'. by repeat split.
Defined.

End FunctionCalls.

(** ** The graphs of the flow diagram generator *)

Section ComponentTreeOutcome.
Import Babel FlowDiagramGenerator FlowDiagramViews.

Lemma componentVisitor_outcome path s :
  (isComponentPath path = false ∧ componentVisitor path s = Ok s)
  ∨ (isComponentPath path = true ∧ ∃ e, componentVisitor path s = Throw e).
Proof.
  destruct (componentVisitor path s) as [s'|e] eqn:E.
  - left. pose proof (componentVisitor_ok _ _ _ E) as ->. split; [|done].
    revert E. unfold componentVisitor, isComponentPath.
    destruct (addComponentNode path s) as [componentId s1].
    destruct (isFunctionDeclaration (Some (node path))) eqn:E1.
    { destruct (isReactComponent path); [|done].
      destruct (analyzeComponentChildren_throws path componentId s1) as [e ->]; [|done].
      unfold is_one_of. simpl. unfold isFunctionDeclaration in E1. simpl in E1.
      by rewrite E1. }
    destruct (isArrowFunctionExpression (Some (node path))) eqn:E2.
    { destruct (isReactComponent path); [|done].
      destruct (analyzeComponentChildren_throws path componentId s1) as [e ->]; [|done].
      unfold is_one_of. simpl. unfold isArrowFunctionExpression in E2. simpl in E2.
      rewrite E2. by rewrite orb_true_r. }
    destruct (isClassDeclaration (Some (node path))) eqn:E3; [|done].
    destruct (isReactClassComponent path); [|done].
    destruct (analyzeComponentChildren_throws path componentId s1) as [e ->]; [|done].
    unfold is_one_of. simpl. unfold isClassDeclaration in E3. simpl in E3.
    rewrite E3. by rewrite !orb_true_r.
  - right. split; [|eauto].
    revert E. unfold componentVisitor, isComponentPath.
    destruct (addComponentNode path s) as [componentId s1].
    destruct (isFunctionDeclaration _); [by destruct (isReactComponent path)|].
    destruct (isArrowFunctionExpression _); [by destruct (isReactComponent path)|].
    destruct (isClassDeclaration _); [by destruct (isReactClassComponent path)|].
    done.
Qed.

Lemma run_throwing_componentVisitor_outcome paths s :
  (Forall (λ p, isComponentPath p = false) paths
   ∧ run_throwing componentVisitor paths s = Ok s)
  ∨ (Exists (λ p, isComponentPath p = true) paths
     ∧ ∃ e, run_throwing componentVisitor paths s = Throw e).
Proof.
  induction paths as [|p paths IH]; simpl.
  { left. split; [constructor | done]. }
  destruct (componentVisitor_outcome p s) as [[Hp ->] | [Hp [e ->]]]; simpl.
  - destruct IH as [[Hall ->] | [Hex [e ->]]].
    + left. split; [by constructor | done].
    + right. split; [by apply Exists_cons_tl | eauto].
  - right. split; [by apply Exists_cons_hd | eauto].
Qed.

(** X12. [generateComponentTree] never returns a populated graph.  It
    throws whenever the traversal meets a class that extends
    [React.Component], or a function declaration or an arrow function
    whose name, or [Anonymous], starts with an ASCII character that
    upper-casing leaves alone, because the children of a component are
    searched by a traversal rooted at the component.  A graph that is
    returned has no node and no edge. *)
Theorem X12_component_tree_throws_or_is_empty ast filePath paths :
  traverse ast = Ok paths →
  (∀ p, p ∈ paths →
        isComponentPath p = true →
        isClassDeclaration (Some (node p)) = true
        ∨ startsAscii (getFunctionName p) = true →
        ∃ e, generateComponentTree ast filePath = Throw e)
  ∧ ∀ d, generateComponentTree ast filePath = Ok d → nodes d = [] ∧ edges d = [].
Proof.
  intros Htr. split; [|apply generateComponentTree_empty].
  intros p Hp Hc _.
  unfold generateComponentTree. rewrite Htr. simpl.
  destruct (run_throwing_componentVisitor_outcome paths
              (mkComponentState (mkGraph [] []) ∅)) as [[Hall ->] | [Hex [e ->]]];
    simpl; [|eauto].
  rewrite Forall_forall in Hall. specialize (Hall p Hp). congruence.
Qed.

Lemma X12_witness :
  ∃ paths p,
    traverse (Samples.file (Samples.program [Samples.counterComponent])) = Ok paths
    ∧ paths !! 1 = Some p
    ∧ getFunctionName p = "Counter"
    ∧ ∃ e, generateComponentTree
             (Samples.file (Samples.program [Samples.counterComponent])) "Counter.jsx"
           = Throw e.
Proof.
  destruct (traverse (Samples.file (Samples.program [Samples.counterComponent])))
    as [paths|] eqn:Htr; [|revert Htr; vm_compute; discriminate].
  pose proof (traverse_ok _ _ Htr) as Hpaths.
  destruct (paths !! 1) as [p|] eqn:Hp;
    [|rewrite Hpaths in Hp; vm_compute in Hp; discriminate].
  assert (getFunctionName p = "Counter" ∧ isComponentPath p = true) as [Hname Hc].
  { rewrite Hpaths in Hp. vm_compute in Hp. injection Hp as <-.
    split; vm_compute; reflexivity. }
  exists paths, p. split; [done|]. split; [done|]. split; [done|].
  apply (proj1 (X12_component_tree_throws_or_is_empty _ "Counter.jsx" paths Htr) p).
  - by apply (list_elem_of_lookup_2 paths 1).
  - exact Hc.
  - right. by rewrite Hname.
Defined.

End ComponentTreeOutcome.

Section ControlFlowFunctions.
Import Babel FlowDiagramGenerator FlowDiagramViews.

Lemma functions_pushNode_other n g c :
  nodeType n ≠ t_function →
  functionsApart g c → functionsApart (pushNode n g) c.
Proof.
  intros Hn (Hc & Hnodes & Hedges). split; [|split; [|done]]; simpl.
  - rewrite filter_app, length_app, Hc, filter_cons_False by done. simpl. lia.
  - apply Forall_app. split; [done|]. by apply Forall_singleton.
Qed.

Lemma functions_pushNode_function n g c :
  nodeType n = t_function → String.prefix "func_" (id n) = true →
  functionsApart g c → functionsApart (pushNode n g) (S c).
Proof.
  intros Hn Hid (Hc & Hnodes & Hedges). split; [|split; [|done]]; simpl.
  - rewrite filter_app, length_app, Hc, filter_cons_True by done. simpl. lia.
  - apply Forall_app. split; [done|]. by apply Forall_singleton.
Qed.

Lemma functions_pushEdge e g c :
  String.prefix "func_" (to e) = false →
  functionsApart g c → functionsApart (pushEdge e g) c.
Proof.
  intros He (Hc & Hnodes & Hedges). split; [done|]. split; [done|]. simpl.
  apply Forall_app. split; [done|]. by apply Forall_singleton.
Qed.

Local Ltac functions_steps :=
  repeat first
    [ apply functions_pushEdge; [reflexivity|]
    | apply functions_pushNode_other; [discriminate|] ].

Lemma functions_analyzeIfStatement stmt g nodeId parentId c :
  functionsApart g c → functionsApart (analyzeIfStatement stmt g nodeId parentId) c.
Proof.
  intros H. unfold analyzeIfStatement.
  destruct (get "alternate" stmt); by functions_steps.
Qed.

Lemma functions_analyzeLoopStatement stmt g nodeId parentId c :
  functionsApart g c → functionsApart (analyzeLoopStatement stmt g nodeId parentId) c.
Proof.
  intros H. unfold analyzeLoopStatement. by functions_steps.
Qed.

Lemma functions_analyzeSwitchStatement stmt g nodeId parentId c :
  functionsApart g c →
  functionsApart (analyzeSwitchStatement stmt g nodeId parentId) c.
Proof.
  intros H. unfold analyzeSwitchStatement.
  set (g0 := pushEdge _ _).
  assert (functionsApart g0 c) as H0 by (subst g0; by functions_steps).
  clearbody g0. clear H.
  generalize (S nodeId) as k. revert g0 H0.
  induction (get_all "cases" stmt) as [|caseStmt cases IH]; intros g0 H0 k;
    simpl; [done|].
  apply IH. by functions_steps.
Qed.

Lemma functions_analyzeStatementControlFlow stmt g nodeId parentId c :
  functionsApart g c →
  functionsApart (analyzeStatementControlFlow stmt g nodeId parentId) c.
Proof.
  intros H. unfold analyzeStatementControlFlow.
  destruct (isIfStatement _); [by apply functions_analyzeIfStatement|].
  destruct (_ || _); [by apply functions_analyzeLoopStatement|].
  destruct (isSwitchStatement _); [by apply functions_analyzeSwitchStatement|].
  by functions_steps.
Qed.

Lemma functions_analyzeProgramControlFlow path g nodeId c :
  functionsApart g c → functionsApart (analyzeProgramControlFlow path g nodeId) c.
Proof.
  intros H. unfold analyzeProgramControlFlow.
  set (g0 := pushEdge _ _).
  assert (functionsApart g0 c) as H0 by (subst g0; by functions_steps).
  clearbody g0. clear H.
  destruct (isProgram _); [|done].
  revert g0 H0.
  induction (get_all "body" (node path)) as [|stmt body IH]; intros g0 H0;
    simpl; [done|].
  apply IH. by apply functions_analyzeStatementControlFlow.
Qed.

Lemma prefix_append s t : String.prefix s (s +:+ t) = true.
Proof.
  induction s as [|a s IH]; [by destruct t|].
  change (String a s +:+ t) with (String a (s +:+ t)).
  cbn [String.prefix]. by destruct (Ascii.ascii_dec a a).
Qed.

Lemma functions_analyzeFunctionControlFlow path g nodeId c :
  functionsApart g c →
  functionsApart (analyzeFunctionControlFlow path g nodeId) (S c).
Proof.
  intros H. unfold analyzeFunctionControlFlow.
  assert (functionsApart
            (pushNode (mkFlowNode
                         ("func_" +:+ getFunctionName path +:+ "_" +:+ pretty nodeId)
                         (getFunctionName path) t_function None) g) (S c)) as H0.
  { apply functions_pushNode_function; [reflexivity | apply prefix_append | done]. }
  destruct (get "body" (node path));
    [by apply functions_analyzeStatementControlFlow | done].
Qed.

Lemma functions_controlFlowVisitor nodeId p g c :
  functionsApart g c →
  functionsApart (controlFlowVisitor nodeId p g)
                 (c + if isFunctionPath p then 1 else 0).
Proof.
  intros H. unfold controlFlowVisitor, isFunctionPath. cbv zeta.
  destruct (isProgram (Some (node p))); cbn [negb andb].
  { rewrite Nat.add_0_r. by apply functions_analyzeProgramControlFlow. }
  destruct (isFunctionDeclaration (Some (node p))); cbn [orb].
  { rewrite Nat.add_1_r. by apply functions_analyzeFunctionControlFlow. }
  destruct (isArrowFunctionExpression (Some (node p))).
  { rewrite Nat.add_1_r. by apply functions_analyzeFunctionControlFlow. }
  by rewrite Nat.add_0_r.
Qed.

Lemma functions_run nodeId paths : ∀ g c,
  functionsApart g c →
  functionsApart (run (controlFlowVisitor nodeId) paths g)
                 (c + length (filter (λ p, isFunctionPath p = true) paths)).
Proof.
  induction paths as [|p paths IH]; intros g c H.
  { simpl. by rewrite Nat.add_0_r. }
  change (run (controlFlowVisitor nodeId) (p :: paths) g)
    with (run (controlFlowVisitor nodeId) paths (controlFlowVisitor nodeId p g)).
  pose proof (IH _ _ (functions_controlFlowVisitor nodeId p g c H)) as H1.
  destruct (isFunctionPath p) eqn:E.
  - rewrite filter_cons_True by done. simpl.
    by replace (c + S (length (filter (λ p, isFunctionPath p = true) paths)))
      with (c + 1 + length (filter (λ p, isFunctionPath p = true) paths)) by lia.
  - rewrite filter_cons_False by (simpl; congruence).
    by rewrite Nat.add_0_r in H1.
Qed.

(** X13. In a control-flow graph every visited function declaration and
    arrow function, and nothing else, has a node of type [function], and
    none of these nodes can be reached from the start node: no edge
    enters a function node. *)
Theorem X13_functions_are_never_reached ast filePath paths d :
  generateControlFlow ast filePath = Ok d →
  traverse ast = Ok paths →
  length (nodesOfType t_function d)
  = length (filter (λ p, isFunctionPath p = true) paths)
  ∧ ∀ n, n ∈ nodes d → nodeType n = t_function →
         (∀ e, e ∈ edges d → to e ≠ id n) ∧ ¬ reachable d "start" (id n).
Proof.
  intros Hd Htr. unfold generateControlFlow in Hd. rewrite Htr in Hd.
  simpl in Hd. injection Hd as <-.
  assert (functionsApart
            (pushNode (mkFlowNode "end" "End" t_end None)
               (run (controlFlowVisitor 0) paths
                  (pushNode (mkFlowNode "start" "Start" t_start None)
                            (mkGraph [] []))))
            (length (filter (λ p, isFunctionPath p = true) paths)))
    as (Hc & Hnodes & Hedges).
  { apply functions_pushNode_other; [done|].
    apply (functions_run 0 paths _ 0).
    apply functions_pushNode_other; [done|].
    split; [done|]. split; constructor. }
  split; [exact Hc|].
  intros n Hn Hty. simpl in Hn.
  rewrite Forall_forall in Hnodes. rewrite Forall_forall in Hedges.
  pose proof (Hnodes n Hn Hty) as Hid.
  assert (∀ e, e ∈ g_edges
                     (pushNode (mkFlowNode "end" "End" t_end None)
                        (run (controlFlowVisitor 0) paths
                           (pushNode (mkFlowNode "start" "Start" t_start None)
                                     (mkGraph [] []))))
               → to e ≠ id n) as Hno.
  { intros e He Heq. specialize (Hedges e He). congruence. }
  split; [exact Hno|].
  intros Hr. apply reachable_no_incoming in Hr; [|exact Hno].
  rewrite <- Hr in Hid. discriminate.
Qed.

Lemma X13_witness :
  ∃ paths d n,
    generateControlFlow MoreSamples.callsProgram "calls.js" = Ok d
    ∧ traverse MoreSamples.callsProgram = Ok paths
    ∧ length (nodesOfType t_function d) = 2
    ∧ n ∈ nodes d ∧ id n = "func_f_0"
    ∧ (∀ e, e ∈ edges d → to e ≠ id n) ∧ ¬ reachable d "start" (id n).
Proof.
  destruct (generateControlFlow MoreSamples.callsProgram "calls.js") as [d|] eqn:Hd;
    [|revert Hd; vm_compute; discriminate].
  destruct (traverse MoreSamples.callsProgram) as [paths|] eqn:Htr;
    [|revert Htr; vm_compute; discriminate].
  destruct (X13_functions_are_never_reached _ _ paths d Hd Htr) as [Hc Hn].
  assert (length (filter (λ p, isFunctionPath p = true) paths) = 2) as Hcount.
  { revert Htr. vm_compute. intros [= <-]. reflexivity. }
  assert (∃ n, n ∈ nodes d ∧ id n = "func_f_0" ∧ nodeType n = t_function)
    as (n & Hin & Hid & Hty).
  { revert Hd. vm_compute. intros [= <-].
    exists (mkFlowNode "func_f_0" "f" t_function None).
    split; [|split; reflexivity].
    apply list_elem_of_lookup. exists 6. reflexivity. }
  exists paths, d, n. split; [done|]. split; [done|].
  split; [congruence|]. split; [done|]. split; [done|].
  by apply Hn.
Defined.

End ControlFlowFunctions.

Section MermaidText.
Import FlowDiagramGenerator FlowDiagramMermaid.

Lemma append_cons a s t : String a s +:+ t = String a (s +:+ t).
Proof. reflexivity. Qed.

Lemma occurrences_app c s t :
  occurrences c (s +:+ t) = occurrences c s + occurrences c t.
Proof.
  induction s as [|a s IH]; [done|].
  rewrite append_cons. cbn [occurrences]. rewrite IH. lia.
Qed.

Lemma occurrences_replaceAll_same c by_ s :
  occurrences c by_ = 0 → occurrences c (replaceAll c by_ s) = 0.
Proof.
  intros Hby. induction s as [|a s IH]; [done|].
  cbn [replaceAll]. destruct (Ascii.eqb a c) eqn:E.
  - rewrite occurrences_app. lia.
  - cbn [occurrences]. rewrite E. done.
Qed.

Lemma occurrences_replaceAll_other c c' by_ s :
  c ≠ c' → occurrences c by_ = 0 →
  occurrences c (replaceAll c' by_ s) = occurrences c s.
Proof.
  intros Hne Hby. induction s as [|a s IH]; [done|].
  cbn [replaceAll occurrences]. destruct (Ascii.eqb a c') eqn:E.
  - apply Ascii.eqb_eq in E as ->.
    rewrite occurrences_app, Hby, IH.
    destruct (Ascii.eqb c' c) eqn:E'; [|done].
    apply Ascii.eqb_eq in E'. congruence.
  - cbn [occurrences]. by rewrite IH.
Qed.

(** An escaped label holds no double quote and no line break. *)
Lemma escapeMermaidLabel_plain l : isPlain (escapeMermaidLabel l).
Proof.
  unfold escapeMermaidLabel. split.
  - rewrite occurrences_replaceAll_other; [|done|done].
    by apply occurrences_replaceAll_same.
  - by apply occurrences_replaceAll_same.
Qed.

Lemma nodeLine_occurrences n :
  occurrences quote (nodeLine n) = occurrences quote (id n) + 2
  ∧ occurrences lineBreak (nodeLine n) = occurrences lineBreak (id n) + 1.
Proof.
  destruct (escapeMermaidLabel_plain (label n)) as [Hq Hl].
  unfold nodeLine. rewrite !occurrences_app, Hq, Hl.
  split; destruct (nodeType n); simpl; lia.
Qed.

Lemma edgeLine_occurrences el :
  occurrences quote (edgeLine el)
  = occurrences quote (from el.1) + occurrences quote (to el.1)
    + (if hasLabel el.2 then 2 else 0)
  ∧ occurrences lineBreak (edgeLine el)
    = occurrences lineBreak (from el.1) + occurrences lineBreak (to el.1) + 1.
Proof.
  destruct el as [edge l]. unfold edgeLine, hasLabel. cbn [fst snd].
  rewrite !occurrences_app.
  destruct l as [x|].
  - destruct (escapeMermaidLabel_plain x) as [Hq Hl].
    destruct (negb (String.eqb x "")).
    + rewrite !occurrences_app, Hq, Hl.
      split; destruct (edgeType edge) as [[]|]; simpl; lia.
    + split; destruct (edgeType edge) as [[]|]; simpl; lia.
  - split; destruct (edgeType edge) as [[]|]; simpl; lia.
Qed.

Lemma sum_list_cons a l : sum_list (a :: l) = a + sum_list l.
Proof. reflexivity. Qed.

Lemma occurrences_fold {A} c (line : A → string) (l : list A) : ∀ text,
  occurrences c (fold_left (λ text x, text +:+ line x) l text)
  = occurrences c text + sum_list ((λ x, occurrences c (line x)) <$> l).
Proof.
  induction l as [|x l IH]; intros text; [simpl; lia|].
  rewrite fmap_cons, sum_list_cons. cbn [fold_left].
  rewrite IH, occurrences_app. lia.
Qed.

(** X14. In the Mermaid text of a diagram whose node ids and edge
    endpoints hold no double quote and no line break, the labels cannot
    break the layout: the text has one line for the header and one for
    each node and each edge, and its double quotes are the two around
    each node label and each non-empty edge label. *)
Theorem X14_mermaid_labels_stay_quoted diagramType
    (nodes : list FlowNode) (edges : list (FlowEdge * option string)) :
  Forall (λ n, isPlain (id n)) nodes →
  Forall (λ el, isPlain (from el.1) ∧ isPlain (to el.1)) edges →
  occurrences lineBreak (generateMermaidDiagram diagramType nodes edges)
  = 1 + length nodes + length edges
  ∧ occurrences quote (generateMermaidDiagram diagramType nodes edges)
    = 2 * length nodes + 2 * length (filter (λ el, hasLabel el.2 = true) edges).
Proof.
  intros Hnodes Hedges. unfold generateMermaidDiagram.
  rewrite !occurrences_fold, !occurrences_app. cbv beta.
  assert (sum_list ((λ n, occurrences lineBreak (nodeLine n)) <$> nodes)
          = length nodes
          ∧ sum_list ((λ n, occurrences quote (nodeLine n)) <$> nodes)
            = 2 * length nodes) as [-> ->].
  { induction Hnodes as [|n nodes [Hq Hl] _ [IH1 IH2]]; [done|].
    destruct (nodeLine_occurrences n) as [Eq El].
    rewrite !fmap_cons, !sum_list_cons. cbn [length].
    rewrite IH1, IH2, Eq, El, Hq, Hl. lia. }
  assert (sum_list ((λ el, occurrences lineBreak (edgeLine el)) <$> edges)
          = length edges
          ∧ sum_list ((λ el, occurrences quote (edgeLine el)) <$> edges)
            = 2 * length (filter (λ el, hasLabel el.2 = true) edges)) as [-> ->].
  { induction Hedges as [|el edges [[Hq Hl] [Hq' Hl']] _ [IH1 IH2]]; [done|].
    destruct (edgeLine_occurrences el) as [Eq El].
    rewrite !fmap_cons, !sum_list_cons. cbn [length].
    rewrite IH1, IH2, Eq, El, Hq, Hl, Hq', Hl'.
    destruct (hasLabel el.2) eqn:E.
    - rewrite filter_cons_True by done. simpl. lia.
    - rewrite filter_cons_False by (simpl; congruence). lia. }
  split; destruct diagramType; simpl; lia.
Qed.

Lemma X14_witness :
  occurrences lineBreak
    (generateMermaidDiagram control_flow [MoreSamples.quotedNode]
       [MoreSamples.labelledEdge]) = 3
  ∧ occurrences quote
      (generateMermaidDiagram control_flow [MoreSamples.quotedNode]
         [MoreSamples.labelledEdge]) = 4.
Proof.
  apply (X14_mermaid_labels_stay_quoted control_flow [MoreSamples.quotedNode]
           [MoreSamples.labelledEdge]).
  - repeat constructor.
  - repeat constructor.
Defined.

End MermaidText.

Section DependencyGraphShape.
Import FlowDiagramGenerator FlowDiagramViews.

Lemma addFile_fold_graph files : ∀ g,
  g_nodes (fold_left addFile files g)
  = g_nodes g
    ++ ((λ file, mkFlowNode (fileIdOf (file_path file)) (file_name file) t_component
                   (Some [("fileType", file_type file); ("size", file_size file)]))
          <$> files)
  ∧ g_edges (fold_left addFile files g) = g_edges g.
Proof.
  induction files as [|file files IH]; intros g.
  { simpl. by rewrite app_nil_r. }
  cbn [fold_left]. destruct (IH (addFile g file)) as [-> ->].
  rewrite fmap_cons. simpl. by rewrite <- app_assoc.
Qed.

Lemma usedIn_fold_graph depId paths : ∀ g,
  g_nodes (fold_left (λ g filePath,
                        pushEdge (mkFlowEdge depId (fileIdOf filePath)
                                             (Some e_dependency) None) g)
                     paths g) = g_nodes g
  ∧ g_edges (fold_left (λ g filePath,
                          pushEdge (mkFlowEdge depId (fileIdOf filePath)
                                               (Some e_dependency) None) g)
                       paths g)
    = g_edges g
      ++ ((λ filePath, mkFlowEdge depId (fileIdOf filePath) (Some e_dependency) None)
            <$> paths).
Proof.
  induction paths as [|filePath paths IH]; intros g.
  { simpl. by rewrite app_nil_r. }
  cbn [fold_left]. destruct (IH (pushEdge (mkFlowEdge depId (fileIdOf filePath)
                                             (Some e_dependency) None) g)) as [-> ->].
  rewrite fmap_cons. simpl. by rewrite <- app_assoc.
Qed.

Lemma addDependency_graph g dep :
  g_nodes (addDependency g dep)
  = g_nodes g
    ++ [mkFlowNode ("dep_" +:+ dep_name dep) (dep_name dep) t_data
          (Some [("version", dep_version dep); ("type", dep_type dep)])]
  ∧ g_edges (addDependency g dep)
    = g_edges g
      ++ ((λ filePath, mkFlowEdge ("dep_" +:+ dep_name dep) (fileIdOf filePath)
                         (Some e_dependency) None) <$> usedIn dep).
Proof.
  unfold addDependency.
  by destruct (usedIn_fold_graph ("dep_" +:+ dep_name dep) (usedIn dep)
                 (pushNode (mkFlowNode ("dep_" +:+ dep_name dep) (dep_name dep) t_data
                              (Some [("version", dep_version dep);
                                     ("type", dep_type dep)])) g)) as [-> ->].
Qed.

Lemma addDependency_fold_graph deps : ∀ g,
  length (g_nodes (fold_left addDependency deps g))
  = length (g_nodes g) + length deps
  ∧ Forall (λ n, nodeType n = t_component → n ∈ g_nodes g)
           (g_nodes (fold_left addDependency deps g))
  ∧ ∃ added,
      g_edges (fold_left addDependency deps g) = g_edges g ++ added
      ∧ length added = sum_list ((λ dep, length (usedIn dep)) <$> deps)
      ∧ Forall (λ e, edgeType e = Some e_dependency
                     ∧ ∃ dep filePath,
                         dep ∈ deps ∧ filePath ∈ usedIn dep
                         ∧ from e = "dep_" +:+ dep_name dep
                         ∧ to e = fileIdOf filePath)
               added.
Proof.
  induction deps as [|dep deps IH]; intros g.
  { simpl. split; [lia|]. split.
    - by apply Forall_forall.
    - exists []. by rewrite app_nil_r. }
  cbn [fold_left].
  destruct (IH (addDependency g dep)) as (Hn & Hc & added & He & Hl & Ha).
  destruct (addDependency_graph g dep) as [En Ee].
  rewrite En in Hn, Hc. rewrite Ee in He.
  split; [|split].
  - rewrite Hn, length_app. simpl. lia.
  - eapply Forall_impl; [exact Hc|].
    intros n Hin Hty. specialize (Hin Hty).
    apply elem_of_app in Hin as [Hin | Hin]; [done|].
    apply list_elem_of_singleton in Hin. subst n. done.
  - exists (((λ filePath, mkFlowEdge ("dep_" +:+ dep_name dep) (fileIdOf filePath)
                           (Some e_dependency) None) <$> usedIn dep) ++ added).
    split; [|split].
    + by rewrite He, <- app_assoc.
    + rewrite length_app, length_fmap, fmap_cons, Hl. reflexivity.
    + apply Forall_app. split.
      * apply Forall_forall. intros e He'.
        apply list_elem_of_fmap in He' as (filePath & -> & Hp).
        split; [done|]. exists dep, filePath.
        split; [left|]. done.
      * eapply Forall_impl; [exact Ha|].
        intros e (Hty & dep' & filePath & Hd & Hp & Hf & Ht).
        split; [done|]. exists dep', filePath. split; [by right | done].
Qed.

Lemma allCharacters_sanitize s : allCharacters isIdCharacter (sanitize s) = true.
Proof.
  induction s as [|c s IH]; [done|].
  cbn [sanitize allCharacters]. rewrite IH, andb_true_r.
  unfold isIdCharacter. destruct (isAlphanumeric c) eqn:E; [by rewrite E | done].
Qed.

Lemma allCharacters_app test s t :
  allCharacters test (s +:+ t) = allCharacters test s && allCharacters test t.
Proof.
  induction s as [|c s IH]; [done|].
  change (String c s +:+ t) with (String c (s +:+ t)).
  cbn [allCharacters]. by rewrite IH, andb_assoc.
Qed.

Lemma allCharacters_fileIdOf filePath :
  allCharacters isIdCharacter (fileIdOf filePath) = true.
Proof.
  unfold fileIdOf. by rewrite allCharacters_app, allCharacters_sanitize.
Qed.

(** X15. A dependency graph has one node for each file and one for
    each dependency, and one edge for each entry of a [usedIn] list; each
    edge is a [dependency] edge from the node [dep_<name>] of its
    dependency to the id of the file path.  The ids of the file nodes
    and the targets of the edges are made of letters, digits and
    underscores only. *)
Theorem X15_dependency_graph_shape projectInfo :
  length (nodes (generateDependencyGraph projectInfo))
  = length (project_files projectInfo) + length (project_dependencies projectInfo)
  ∧ length (edges (generateDependencyGraph projectInfo))
    = sum_list ((λ dep, length (usedIn dep)) <$> project_dependencies projectInfo)
  ∧ (∀ e, e ∈ edges (generateDependencyGraph projectInfo) →
       edgeType e = Some e_dependency
       ∧ allCharacters isIdCharacter (to e) = true
       ∧ ∃ dep filePath,
           dep ∈ project_dependencies projectInfo ∧ filePath ∈ usedIn dep
           ∧ from e = "dep_" +:+ dep_name dep ∧ to e = fileIdOf filePath)
  ∧ (∀ n, n ∈ nodes (generateDependencyGraph projectInfo) →
       nodeType n = t_component →
       allCharacters isIdCharacter (id n) = true
       ∧ ∃ file, file ∈ project_files projectInfo
                 ∧ id n = fileIdOf (file_path file)).
Proof.
  unfold generateDependencyGraph. cbn [nodes edges].
  destruct (addFile_fold_graph (project_files projectInfo) (mkGraph [] []))
    as [Hfn Hfe].
  destruct (addDependency_fold_graph (project_dependencies projectInfo)
              (fold_left addFile (project_files projectInfo) (mkGraph [] [])))
    as (Hn & Hc & added & He & Hl & Ha).
  rewrite Hfn in Hn, Hc. rewrite Hfe in He. simpl in Hn, Hc, He.
  rewrite length_fmap in Hn.
  split; [exact Hn|]. split; [by rewrite He|]. split.
  - intros e Hin. rewrite He in Hin. rewrite Forall_forall in Ha.
    destruct (Ha e Hin) as (Hty & dep & filePath & Hd & Hp & Hf & Ht).
    split; [done|]. split; [rewrite Ht; apply allCharacters_fileIdOf|].
    by exists dep, filePath.
  - intros n Hin Hty. rewrite Forall_forall in Hc.
    specialize (Hc n Hin Hty).
    apply list_elem_of_fmap in Hc as (file & -> & Hfile).
    split; [apply allCharacters_fileIdOf|]. by exists file.
Qed.

End DependencyGraphShape.

Section DataFlowShape.
Import Babel FlowDiagramGenerator FlowDiagramViews.

Lemma dataFlowVisitor_flowsOneStep env p s :
  flowsOneStep s → flowsOneStep (dataFlowVisitor env p s).
Proof.
  intros (He & Hc & Hm). unfold dataFlowVisitor.
  destruct (isVariableDeclarator _).
  { destruct (get "id" (node p)) as [i|]; [|done].
    destruct (isIdentifier (Some i)); [|done].
    split; [exact He|]. split; cbn [df_graph df_variableMap].
    - simpl. rewrite filter_app, length_app, filter_cons_False by done.
      simpl. lia.
    - intros nm varId.
      destruct (decide (name_of i = nm)) as [<-|Hne].
      + rewrite lookup_insert_eq. by intros [= <-].
      + rewrite lookup_insert_ne by done. apply Hm. }
  destruct (isIdentifier _); [|done].
  destruct (df_variableMap s !! name_of (node p)) as [varId|] eqn:E; [|done].
  destruct (isAssignmentExpression _); [|done].
  split; [|split; [|exact Hm]]; cbn [df_graph].
  - simpl. apply Forall_app. split; [exact He|].
    apply Forall_singleton. cbn [edgeType from to].
    split; [done|]. split; [|apply prefix_append].
    rewrite (Hm _ _ E). apply prefix_append.
  - simpl. rewrite filter_app, !length_app, filter_cons_True by done.
    simpl. lia.
Qed.

Lemma prefixes_apart b :
  String.prefix "var_" b = true → String.prefix "assign_" b = true → False.
Proof.
  destruct b as [|c b]; [done|]. cbn [String.prefix].
  destruct (Ascii.ascii_dec _ c) as [<-|]; [|done].
  intros _. by destruct (Ascii.ascii_dec _ _).
Qed.

(** X16. In a data-flow graph nothing flows further than one step:
    every edge is a [data] edge from a [var_] id to an [assign_] id, so
    no edge enters a variable and none leaves an assignment, and whatever
    is reachable is reachable by one edge.  There is one edge for each
    [process] node. *)
Theorem X16_data_flows_one_step env ast filePath d :
  generateDataFlow env ast filePath = Ok d →
  (∀ e, e ∈ edges d →
     edgeType e = Some e_data
     ∧ String.prefix "var_" (from e) = true
     ∧ String.prefix "assign_" (to e) = true)
  ∧ length (edges d) = length (nodesOfType t_process d)
  ∧ ∀ a b, reachable d a b → a = b ∨ step d a b.
Proof.
  unfold generateDataFlow.
  destruct (traverse ast) as [paths|]; simpl; [|done].
  intros [= <-].
  assert (flowsOneStep (run (dataFlowVisitor env) paths
                          (mkDataFlowState (mkGraph [] []) ∅ 0)))
    as (He & Hc & _).
  { apply run_invariant; [apply dataFlowVisitor_flowsOneStep|].
    split; [constructor|]. split; [done|]. intros nm varId. simpl.
    by rewrite lookup_empty. }
  rewrite Forall_forall in He.
  split; [exact He|]. split; [exact Hc|].
  intros a b Hr.
  induction Hr as [a | a b c (e & Hin & Hf & Ht) Hr IH]; [by left|].
  right. destruct IH as [<- | (e' & Hin' & Hf' & Ht')].
  - by exists e.
  - exfalso. destruct (He e Hin) as (_ & _ & Hto).
    destruct (He e' Hin') as (_ & Hfrom & _).
    apply (prefixes_apart b); congruence.
Qed.

Lemma X16_witness :
  ∃ d, generateDataFlow Samples.env1 Samples.assignedVariable "a.js" = Ok d
       ∧ length (edges d) = 1
       ∧ length (edges d) = length (nodesOfType t_process d)
       ∧ ∀ a b, reachable d a b → a = b ∨ step d a b.
Proof.
  destruct (generateDataFlow Samples.env1 Samples.assignedVariable "a.js")
    as [d|] eqn:Hd; [|revert Hd; vm_compute; discriminate].
  destruct (X16_data_flows_one_step _ _ _ d Hd) as (_ & Hc & Hr).
  exists d. split; [done|]. split; [|done].
  revert Hd. vm_compute. by intros [= <-].
Defined.

End DataFlowShape.

(** ** The descriptors of components *)

Section ComponentDescriptors.
Import Babel ComponentAnalysis.

Lemma componentKind_type path ty :
  componentKind path = Some ty →
  (type (node path) = "ClassDeclaration" ∧ ty = "class")
  ∨ ((type (node path) = "FunctionDeclaration"
      ∨ type (node path) = "ArrowFunctionExpression"
      ∨ type (node path) = "VariableDeclarator")
     ∧ ty = "functional").
Proof.
  unfold componentKind. cbv zeta.
  destruct (isFunctionDeclaration (Some (node path))) eqn:E1.
  { apply is_a_type in E1. intros H. right. split; [by left|].
    destruct (isReactComponent path); [by injection H|].
    destruct (isCustomHookComponent path); [by injection H|].
    destruct (isHigherOrderComponent (node path)); [by injection H | done]. }
  destruct (isArrowFunctionExpression (Some (node path))) eqn:E2.
  { apply is_a_type in E2. intros H. right. split; [right; by left|].
    destruct (_ && _); [by injection H | done]. }
  destruct (isClassDeclaration (Some (node path))) eqn:E3.
  { apply is_a_type in E3. intros H. left. split; [done|].
    destruct (isReactClassComponent path); [by injection H | done]. }
  destruct (isVariableDeclarator (Some (node path))) eqn:E4; [|done].
  apply is_a_type in E4. intros H. right. split; [right; by right|].
  destruct (isArrowFunctionExpression (get "init" (node path))); [|done].
  destruct (isReactComponent path); [by injection H|].
  destruct (isCustomHookComponent path); [by injection H | done].
Qed.

(** The search for lifecycle methods enters blocks, conditionals and
    loops only: started on the node of a component it finds nothing. *)
Lemma findLifecycleMethods_component path ty :
  componentKind path = Some ty → findLifecycleMethods (node path) = [].
Proof.
  intros H. apply componentKind_type in H.
  destruct (node path) as [t l a ks]. simpl in H.
  destruct H as [[-> _] | [[-> | [-> | ->]] _]]; reflexivity.
Qed.

Lemma createComponentInfo_inv path filePath ty ast c :
  createComponentInfo path filePath ty ast = Ok c →
  componentType c = ty
  ∧ isFunctional c = String.eqb ty "functional"
  ∧ isClass c = String.eqb ty "class"
  ∧ isExportedFlag c = isExported path
  ∧ isDefaultExportFlag c = isDefaultExport path
  ∧ analyzeLifecycle (node path) = Ok (lifecycle c)
  ∧ hooks c = analyzeHooks (get "body" (node path))
  ∧ props c = analyzeProps (node path)
  ∧ state c = ComponentAnalyzer.analyzeState (node path)
  ∧ complexity c = calculateComplexity (node path).
Proof.
  unfold createComponentInfo.
  destruct (analyzeLifecycle (node path)) as [l|]; simpl; [|done].
  destruct (analyzeEventHandlers (node path)) as [hs|]; simpl; [|done].
  by intros [= <-].
Qed.

Lemma analyzeComponents_invariant (P : ComponentInfo → Prop) ast filePath cs :
  (∀ path ty c, componentKind path = Some ty →
                createComponentInfo path filePath ty ast = Ok c → P c) →
  analyzeComponents ast filePath = Ok cs →
  Forall P cs.
Proof.
  intros Hcreate. unfold analyzeComponents.
  apply (run_throwing_invariant (Forall P)); [|constructor].
  intros p s s' Hs. unfold componentVisitor.
  destruct (componentKind p) as [ty|] eqn:Ek; [|by intros [= <-]].
  destruct (createComponentInfo p filePath ty ast) as [c|] eqn:Ec; simpl; [|done].
  intros [= <-]. apply Forall_app. split; [done|].
  apply Forall_singleton. eauto.
Qed.

Lemma NodePath_induction (P : NodePath → Prop) :
  (∀ n par, P (mkPath n par None)) →
  (∀ n par q, P q → P (mkPath n par (Some q))) →
  ∀ p, P p.
Proof.
  intros Hroot Hstep. fix IH 1.
  intros [n par [q|]]; [apply Hstep, IH | apply Hroot].
Qed.

Lemma isDefaultExport_isExported path :
  isDefaultExport path = true → isExported path = true.
Proof.
  induction path as [n par | n par q IH] using NodePath_induction;
    cbn [isExported isDefaultExport];
    destruct (isExportDefaultDeclaration (Some n));
    rewrite ?orb_true_r, ?orb_false_r; try done;
    destruct (isExportNamedDeclaration (Some n)); done.
Qed.

End ComponentDescriptors.

Section ComponentFacts.
Import Babel ComponentAnalysis.

(** X17. No lifecycle method is ever reported: every descriptor
    returned by [analyzeComponents] has an empty [lifecycle] list, also
    that of a class component with a [componentDidMount] method, because
    the search starts at the declaration and never enters a class
    body. *)
Theorem X17_lifecycle_is_never_found ast filePath cs c :
  analyzeComponents ast filePath = Ok cs →
  c ∈ cs →
  lifecycle c = [].
Proof.
  intros Hrun Hc.
  pose proof (analyzeComponents_invariant (λ c, lifecycle c = []) ast filePath cs)
    as Hall.
  rewrite Forall_forall in Hall. apply Hall; [|done|done].
  intros path ty c' Hk Hc'.
  destruct (createComponentInfo_inv _ _ _ _ _ Hc')
    as (_ & _ & _ & _ & _ & Hl & _).
  unfold analyzeLifecycle in Hl.
  rewrite (findLifecycleMethods_component path ty Hk) in Hl.
  simpl in Hl. congruence.
Qed.

Lemma X17_witness :
  ∃ cs c,
    analyzeComponents MoreSamples.clockProgram "Clock.jsx" = Ok cs
    ∧ cs !! 0 = Some c
    ∧ name c = "Clock" ∧ isClass c = true
    ∧ lifecycle c = [].
Proof.
  destruct (analyzeComponents MoreSamples.clockProgram "Clock.jsx") as [cs|] eqn:Hrun;
    [|revert Hrun; vm_compute; discriminate].
  assert (∃ c, cs !! 0 = Some c ∧ name c = "Clock" ∧ isClass c = true)
    as (c & H0 & Hn & Hcl).
  { revert Hrun. vm_compute. intros [= <-]. eexists. repeat split; reflexivity. }
  exists cs, c. split; [done|]. split; [done|]. split; [done|]. split; [done|].
  apply (X17_lifecycle_is_never_found _ _ cs c Hrun).
  apply list_elem_of_lookup. eauto.
Defined.

(** X18. The flags of a descriptor agree: it is functional or a class
    and not both, a class exactly when its type is [class], and a
    component reported as the default export is reported as exported. *)
Theorem X18_component_flags_agree ast filePath cs c :
  analyzeComponents ast filePath = Ok cs →
  c ∈ cs →
  (componentType c = "functional" ∨ componentType c = "class")
  ∧ (isClass c = true ↔ componentType c = "class")
  ∧ isFunctional c = negb (isClass c)
  ∧ (isDefaultExportFlag c = true → isExportedFlag c = true).
Proof.
  intros Hrun Hc.
  pose proof (analyzeComponents_invariant
    (λ c, (componentType c = "functional" ∨ componentType c = "class")
          ∧ (isClass c = true ↔ componentType c = "class")
          ∧ isFunctional c = negb (isClass c)
          ∧ (isDefaultExportFlag c = true → isExportedFlag c = true))
    ast filePath cs) as Hall.
  rewrite Forall_forall in Hall. apply Hall; [|done|done].
  intros path ty c' Hk Hc'.
  destruct (createComponentInfo_inv _ _ _ _ _ Hc')
    as (-> & -> & -> & -> & -> & _).
  apply componentKind_type in Hk.
  split; [|split; [|split]].
  - destruct Hk as [[_ ->] | [_ ->]]; auto.
  - destruct Hk as [[_ ->] | [_ ->]]; done.
  - destruct Hk as [[_ ->] | [_ ->]]; done.
  - apply isDefaultExport_isExported.
Qed.

Lemma X18_witness :
  ∃ cs c,
    analyzeComponents MoreSamples.clockProgram "Clock.jsx" = Ok cs
    ∧ cs !! 0 = Some c
    ∧ isDefaultExportFlag c = true
    ∧ (componentType c = "functional" ∨ componentType c = "class")
    ∧ (isClass c = true ↔ componentType c = "class")
    ∧ isFunctional c = negb (isClass c)
    ∧ (isDefaultExportFlag c = true → isExportedFlag c = true).
Proof.
  destruct (analyzeComponents MoreSamples.clockProgram "Clock.jsx") as [cs|] eqn:Hrun;
    [|revert Hrun; vm_compute; discriminate].
  assert (∃ c, cs !! 0 = Some c ∧ isDefaultExportFlag c = true) as (c & H0 & Hd).
  { revert Hrun. vm_compute. intros [= <-]. eexists. repeat split; reflexivity. }
  exists cs, c. split; [done|]. split; [done|]. split; [done|].
  apply (X18_component_flags_agree _ _ cs c Hrun).
  apply list_elem_of_lookup. eauto.
Defined.

End ComponentFacts.

Section ComponentHooks.
Import Babel ComponentAnalysis.

Lemma hook_name_not_inherited name :
  isReactHook name = true → name ∉ objectPrototypeMembers.
Proof.
  intros Hhook Hin. unfold objectPrototypeMembers in Hin.
  repeat (apply elem_of_cons in Hin as [-> | Hin]; [discriminate Hhook|]).
  by apply elem_of_nil in Hin.
Qed.

Lemma getHookType_builtIn name :
  isBuiltInHook name = true → getHookType name = Entry name.
Proof.
  unfold isBuiltInHook, builtInHooks. intros Hin.
  apply bool_decide_eq_true in Hin.
  repeat (apply elem_of_cons in Hin as [-> | Hin]; [reflexivity|]).
  by apply elem_of_nil in Hin.
Qed.

Lemma getHookType_custom name :
  isReactHook name = true → isBuiltInHook name = false →
  getHookType name = Entry "custom".
Proof.
  unfold isBuiltInHook, builtInHooks. intros Hhook Hout.
  apply bool_decide_eq_false in Hout.
  unfold getHookType.
  repeat match goal with
         | |- context [String.eqb name ?s] =>
             destruct (String.eqb_spec name s) as [-> | ?];
             [exfalso; apply Hout; set_solver|]
         end.
  rewrite bool_decide_eq_false_2; [done|].
  by apply hook_name_not_inherited.
Qed.

(** X19. The two tables of hooks agree on every hook reported: its
    name starts with [use] and is longer than that; a hook that is not
    custom has its own name as type and a custom hook has the type
    [custom]. *)
Theorem X19_hook_tables_agree (body : option Node) h :
  h ∈ analyzeHooks body →
  isReactHook (hookName h) = true
  ∧ (isCustom h = false → hookType h = Entry (hookName h))
  ∧ (isCustom h = true → hookType h = Entry "custom").
Proof.
  unfold analyzeHooks. destruct body as [n|]; [|by intros ?%elem_of_nil].
  intros Hin. apply list_elem_of_omap in Hin as (callNode & _ & Hh).
  unfold hookOf in Hh.
  destruct (get "callee" callNode) as [callee|]; [|done].
  destruct (isIdentifier (Some callee)); [|done].
  destruct (isReactHook (name_of callee)) eqn:Hhook; [|done].
  injection Hh as <-. cbn [hookName hookType isCustom].
  split; [done|]. split.
  - intros Hb. apply negb_false_iff in Hb. by apply getHookType_builtIn.
  - intros Hb. apply negb_true_iff in Hb. by apply getHookType_custom.
Qed.

Lemma X19_witness :
  ∃ h, h ∈ analyzeHooks (get "body" Samples.counterComponent)
       ∧ hookName h = "useState"
       ∧ isReactHook (hookName h) = true
       ∧ (isCustom h = false → hookType h = Entry (hookName h))
       ∧ (isCustom h = true → hookType h = Entry "custom").
Proof.
  assert (∃ h, h ∈ analyzeHooks (get "body" Samples.counterComponent)
               ∧ hookName h = "useState") as (h & Hin & Hn).
  { eexists. split; [apply list_elem_of_lookup; exists 0; vm_compute; reflexivity|].
    reflexivity. }
  exists h. split; [done|]. split; [done|].
  by apply (X19_hook_tables_agree (get "body" Samples.counterComponent)).
Defined.

End ComponentHooks.

Section ComponentPropsFacts.
Import Babel ComponentAnalysis.

Lemma addProp_agree s prop : propsAgree s → propsAgree (addProp s prop).
Proof.
  intros (Hperm & Hreq & Hdef & Hty & Hproto). unfold addProp.
  destruct (_ && _); [|done].
  set (nm := match get "key" prop with Some k => name_of k | None => "" end).
  split; [|split; [|split; [|split]]];
    cbn [propDefinitions requiredNames optionalNames propTypes].
  - rewrite fmap_app. simpl.
    destruct (truthy (attr "optional" prop)).
    + by rewrite Hperm, app_assoc.
    + rewrite Hperm, <- !app_assoc. f_equiv. apply Permutation_app_comm.
  - intros d Hd Hr. apply elem_of_app in Hd as [Hd | Hd].
    + specialize (Hreq d Hd Hr).
      destruct (truthy (attr "optional" prop)); [done|].
      apply elem_of_app. by left.
    + apply list_elem_of_singleton in Hd. subst d. simpl in Hr.
      destruct (truthy (attr "optional" prop)); [done|].
      apply elem_of_app. right. simpl. left.
  - intros d Hd Hs. apply elem_of_app in Hd as [Hd | Hd]; [by apply Hdef|].
    apply list_elem_of_singleton in Hd. subst d. simpl in *.
    destruct (isAssignmentPattern (get "value" prop)).
    + by rewrite andb_false_r.
    + by destruct Hs.
  - intros d Hd Hother. unfold setOwn.
    apply elem_of_app in Hd as [Hd | Hd].
    + destruct (String.eqb nm "__proto__"); [by apply Hty|].
      destruct (decide (nm = propName d)) as [<-|Hne].
      * rewrite lookup_insert_eq. eauto.
      * rewrite lookup_insert_ne by done. by apply Hty.
    + apply list_elem_of_singleton in Hd. subst d. simpl in *.
      destruct (String.eqb_spec nm "__proto__") as [E|_]; [done|].
      rewrite lookup_insert_eq. eauto.
  - unfold setOwn. destruct (String.eqb_spec nm "__proto__") as [E|Hne]; [done|].
    by rewrite lookup_insert_ne.
Qed.

(** X20. The lists of props agree with the definitions: the names in
    [required] and [optional] together are the names of the definitions,
    a definition marked required is listed in [required], a definition
    with a default value is not marked required, and every definition
    has an entry in [types], unless its name is [__proto__], which the
    assignment to the table does not add. *)
Theorem X20_props_lists_agree (node : Node) :
  propName <$> propDefinitions (analyzeProps node)
  ≡ₚ requiredNames (analyzeProps node) ++ optionalNames (analyzeProps node)
  ∧ (∀ d, d ∈ propDefinitions (analyzeProps node) →
          required d = true → propName d ∈ requiredNames (analyzeProps node))
  ∧ (∀ d, d ∈ propDefinitions (analyzeProps node) →
          is_Some (propDefault d) → required d = false)
  ∧ (∀ d, d ∈ propDefinitions (analyzeProps node) →
          propName d ≠ "__proto__" →
          is_Some (propTypes (analyzeProps node) !! propName d))
  ∧ propTypes (analyzeProps node) !! "__proto__" = None.
Proof.
  assert (propsAgree (mkComponentProps [] [] [] ∅)) as Hempty.
  { split; [done|]. split; [|split; [|split]];
      [by intros d ?%elem_of_nil | by intros d ?%elem_of_nil
      | by intros d ?%elem_of_nil | done]. }
  change (propsAgree (analyzeProps node)).
  unfold analyzeProps.
  destruct (get_all "params" node) as [|propsParam rest]; [done|].
  destruct (isObjectPattern (Some propsParam)); [|done].
  generalize (mkComponentProps [] [] [] ∅) Hempty.
  induction (get_all "properties" propsParam) as [|prop l IH]; intros s Hs;
    simpl; [done|].
  apply IH. by apply addProp_agree.
Qed.

End ComponentPropsFacts.

Section ComponentComplexity.
Import Babel ComponentAnalysis.

Local Ltac split_type t :=
  repeat match goal with
         | |- context [String.eqb t ?s] =>
             destruct (String.eqb_spec t s) as [-> | ?]
         end.

(** One visit of [calculateComplexity]: what it adds to the counters. *)
Lemma complexityVisitor_counts p c :
  stateCount (complexityVisitor p c)
  = stateCount c + (if isUseStateNode (node p) then 1 else 0)
  ∧ hookCount (complexityVisitor p c)
    = hookCount c + (if isHookCallNode (node p) then 1 else 0)
  ∧ cyclomaticComplexity c + conditionalRenderCount (complexityVisitor p c)
    ≤ cyclomaticComplexity (complexityVisitor p c) + conditionalRenderCount c
  ∧ cyclomaticComplexity (complexityVisitor p c) + conditionalRenderCount c
    + loopRenderCount c
    ≤ cyclomaticComplexity c + conditionalRenderCount (complexityVisitor p c)
      + loopRenderCount (complexityVisitor p c).
Proof.
  unfold complexityVisitor, isUseStateNode, isHookCallNode. cbv zeta.
  destruct (node p) as [ty l a ks].
  destruct (isHookCall (mkNode ty l a ks)),
           (isArrayMethodCall (mkNode ty l a ks)),
           (isUseStateDeclarator (mkNode ty l a ks)),
           (isEventHandler (idNameOrEmpty (mkNode ty l a ks)));
    unfold isIfStatement, isConditionalExpression, isForStatement, isForInStatement,
      isForOfStatement, isWhileStatement, isCallExpression, isVariableDeclarator,
      isFunctionDeclaration, is_a; cbn [type];
    split_type ty; simpl; repeat split; lia.
Qed.

Lemma complexity_run paths : ∀ c,
  stateCount (run complexityVisitor paths c)
  = stateCount c + countPaths isUseStateNode paths
  ∧ hookCount (run complexityVisitor paths c)
    = hookCount c + countPaths isHookCallNode paths
  ∧ (1 + conditionalRenderCount c ≤ cyclomaticComplexity c →
     1 + conditionalRenderCount (run complexityVisitor paths c)
     ≤ cyclomaticComplexity (run complexityVisitor paths c))
  ∧ (cyclomaticComplexity c ≤ 1 + conditionalRenderCount c + loopRenderCount c →
     cyclomaticComplexity (run complexityVisitor paths c)
     ≤ 1 + conditionalRenderCount (run complexityVisitor paths c)
       + loopRenderCount (run complexityVisitor paths c)).
Proof.
  induction paths as [|p paths IH]; intros c.
  { unfold countPaths. simpl. repeat split; lia. }
  change (run complexityVisitor (p :: paths) c)
    with (run complexityVisitor paths (complexityVisitor p c)).
  destruct (IH (complexityVisitor p c)) as (Hs & Hh & Hlow & Hup).
  destruct (complexityVisitor_counts p c) as (Es & Eh & Elow & Eup).
  assert (∀ test, countPaths test (p :: paths)
                  = (if test (node p) then 1 else 0) + countPaths test paths)
    as Hcons.
  { intros test. unfold countPaths. destruct (test (node p)) eqn:E.
    - by rewrite filter_cons_True.
    - rewrite filter_cons_False; [done|]. by (simpl; congruence). }
  rewrite Hs, Hh, Es, Eh, !Hcons.
  split; [lia|]. split; [lia|]. split.
  - intros H. apply Hlow. lia.
  - intros H. apply Hup. lia.
Qed.

Lemma countPaths_visit test n : ∀ pp par,
  countPaths test (visit pp par n) = countNodes test n.
Proof.
  induction n as [ty l a ks IH] using Node_induction. intros pp par.
  rewrite visit_unfold. cbn [kids countNodes].
  set (q := mkPath (mkNode ty l a ks) par pp).
  assert (countPaths test
            (flat_kids (visit (Some q) (Some (mkNode ty l a ks))) ks)
          = Spec.sum_kids (countNodes test) ks) as Hk.
  { generalize (Some q) (Some (mkNode ty l a ks)). intros pp' par'.
    clear q. induction ks as [|[k c] ks IHks]; [done|].
    inversion IH as [|? ? Hc Hrest]; subst. simpl in Hc.
    change (flat_kids (visit pp' par') ((k, c) :: ks))
      with (visit pp' par' c ++ flat_kids (visit pp' par') ks).
    cbn [Spec.sum_kids].
    unfold countPaths in *. rewrite filter_app, length_app.
    rewrite (Hc pp' par'), (IHks Hrest). done. }
  unfold countPaths in *. destruct (test (mkNode ty l a ks)) eqn:E.
  - rewrite filter_cons_True by done. simpl. by rewrite Hk.
  - rewrite filter_cons_False; [by rewrite Hk|]. by (simpl; congruence).
Qed.

(** The call that initialises a state is itself a hook call. *)
Lemma useState_init_is_hook n :
  isUseStateNode n = true →
  ∃ init, get "init" n = Some init ∧ isHookCallNode init = true.
Proof.
  unfold isUseStateNode, isUseStateDeclarator, isHookCallNode, isHookCall.
  intros H. apply andb_true_iff in H as [_ H].
  destruct (get "init" n) as [init|]; [|done].
  exists init. split; [done|].
  apply andb_true_iff in H as [H Hname].
  apply andb_true_iff in H as [Hcall Hid]. rewrite Hcall, Hid. cbn [andb].
  destruct (get "callee" init) as [callee|]; [|done].
  apply String.eqb_eq in Hname. by rewrite Hname.
Qed.

Lemma states_below_hooks n :
  countNodes isUseStateNode n + (if isHookCallNode n then 1 else 0)
  ≤ countNodes isHookCallNode n.
Proof.
  induction n as [ty l a ks IH] using Node_induction.
  pose proof (sum_kids_mono
                (λ c, countNodes isUseStateNode c
                      + (if isHookCallNode c then 1 else 0))
                (countNodes isHookCallNode) ks IH) as Hk.
  rewrite sum_kids_add in Hk.
  cbn [countNodes kids].
  destruct (isUseStateNode (mkNode ty l a ks)) eqn:E.
  - destruct (useState_init_is_hook _ E) as (init & Hinit & Hhook).
    pose proof (sum_kids_lookup (λ c, if isHookCallNode c then 1 else 0)
                  "init" ks init Hinit) as Hone.
    simpl in Hone. rewrite Hhook in Hone. lia.
  - lia.
Qed.

Lemma stateVisitor_counts p s c :
  length (ComponentAnalyzer.definitions s) ≤ stateCount c →
  length (ComponentAnalyzer.definitions (ComponentAnalyzer.stateVisitor p s))
  ≤ stateCount (complexityVisitor p c).
Proof.
  intros H. destruct (complexityVisitor_counts p c) as (-> & _).
  unfold ComponentAnalyzer.stateVisitor, isUseStateNode.
  destruct (isVariableDeclarator (Some (node p))); [|simpl; lia].
  cbn [andb]. unfold ComponentAnalyzer.stateBinding, isUseStateDeclarator.
  destruct (get "init" (node p)) as [init|]; [|lia].
  destruct (get "id" (node p)) as [pattern|]; [|destruct (_ && _); lia].
  destruct (isCallExpression (Some init)); [|simpl; lia].
  destruct (isIdentifier (get "callee" init)); [|simpl; lia].
  destruct (match get "callee" init with
            | Some c0 => String.eqb (name_of c0) "useState"
            | None => false
            end); [|simpl; lia].
  cbn [andb].
  destruct (_ && _); [|lia].
  destruct (head _) as [stateName|]; [|lia].
  destruct (isIdentifier (Some stateName)); [|lia].
  cbn [ComponentAnalyzer.definitions]. rewrite length_app. simpl. lia.
Qed.

(** X21. The counters of the complexity of a component are ordered:
    the cyclomatic complexity lies between 1 plus the number of
    conditional renders and 1 plus the conditional and the loop renders;
    every state definition reported by [analyzeState] is counted in
    [stateCount], and every state counted is counted as a hook as
    well. *)
Theorem X21_complexity_counters_are_ordered (node : Node) :
  1 + conditionalRenderCount (calculateComplexity node)
  ≤ cyclomaticComplexity (calculateComplexity node)
  ∧ cyclomaticComplexity (calculateComplexity node)
    ≤ 1 + conditionalRenderCount (calculateComplexity node)
      + loopRenderCount (calculateComplexity node)
  ∧ length (ComponentAnalyzer.definitions (ComponentAnalyzer.analyzeState node))
    ≤ stateCount (calculateComplexity node)
  ∧ stateCount (calculateComplexity node) ≤ hookCount (calculateComplexity node).
Proof.
  unfold calculateComplexity.
  cbn [cyclomaticComplexity conditionalRenderCount loopRenderCount stateCount hookCount].
  destruct (complexity_run (ComponentAnalyzer.traverseAST node)
              (mkComplexity 1 0 0 0 0 0 0 0 0 0)) as (Hs & Hh & Hlow & Hup).
  split; [apply Hlow; simpl; lia|]. split; [apply Hup; simpl; lia|]. split.
  - unfold ComponentAnalyzer.analyzeState.
    apply (run_related
             (λ s c, length (ComponentAnalyzer.definitions s) ≤ stateCount c)).
    + intros p s c. apply stateVisitor_counts.
    + simpl. lia.
  - rewrite Hs, Hh. unfold ComponentAnalyzer.traverseAST.
    rewrite !countPaths_visit. simpl.
    pose proof (states_below_hooks node). lia.
Qed.

End ComponentComplexity.

Section ComponentHookCount.
Import Babel ComponentAnalysis.

Local Ltac split_type t :=
  repeat match goal with
         | |- context [String.eqb t ?s] =>
             destruct (String.eqb_spec t s) as [-> | ?]
         end.

Lemma omap_hookOf_app (l1 l2 : list Node) :
  length (omap hookOf (l1 ++ l2))
  = length (omap hookOf l1) + length (omap hookOf l2).
Proof. by rewrite omap_app, length_app. Qed.

Lemma gather_over_bound (g : Node → list Node) (h : Node → nat) k ks :
  Forall (λ kc, length (omap hookOf (g kc.2)) ≤ h kc.2) ks →
  length (omap hookOf (FunctionAnalysis.gather_over g k ks)) ≤ Spec.sum_kids h ks.
Proof.
  induction 1 as [|[k' c] ks Hc _ IH]; [done|].
  change (FunctionAnalysis.gather_over g k ((k', c) :: ks))
    with ((if String.eqb k k' then g c else [])
          ++ FunctionAnalysis.gather_over g k ks).
  rewrite omap_hookOf_app. cbn [Spec.sum_kids]. simpl in Hc.
  destruct (String.eqb k k'); simpl; lia.
Qed.

Lemma gather_at_bound (g : Node → list Node) (h : Node → nat) k ks :
  Forall (λ kc, length (omap hookOf (g kc.2)) ≤ h kc.2) ks →
  length (omap hookOf (FunctionAnalysis.gather_at g k ks)) ≤ Spec.sum_kids h ks.
Proof.
  induction 1 as [|[k' c] ks Hc _ IH]; [done|].
  change (FunctionAnalysis.gather_at g k ((k', c) :: ks))
    with (if String.eqb k k' then g c else FunctionAnalysis.gather_at g k ks).
  cbn [Spec.sum_kids]. simpl in Hc.
  destruct (String.eqb k k'); lia.
Qed.

Lemma gather_at_pair_bound (g : Node → list Node) (h : Node → nat) k1 k2 ks :
  k1 ≠ k2 →
  Forall (λ kc, length (omap hookOf (g kc.2)) ≤ h kc.2) ks →
  length (omap hookOf (FunctionAnalysis.gather_at g k1 ks
                       ++ FunctionAnalysis.gather_at g k2 ks))
  ≤ Spec.sum_kids h ks.
Proof.
  intros Hne. rewrite omap_hookOf_app.
  induction 1 as [|[k' c] ks Hc Hks IH]; [done|].
  change (FunctionAnalysis.gather_at g k1 ((k', c) :: ks))
    with (if String.eqb k1 k' then g c else FunctionAnalysis.gather_at g k1 ks).
  change (FunctionAnalysis.gather_at g k2 ((k', c) :: ks))
    with (if String.eqb k2 k' then g c else FunctionAnalysis.gather_at g k2 ks).
  cbn [Spec.sum_kids]. simpl in Hc.
  pose proof (gather_at_bound g h k1 ks Hks).
  pose proof (gather_at_bound g h k2 ks Hks).
  destruct (String.eqb_spec k1 k') as [->|], (String.eqb_spec k2 k') as [->|];
    [done|lia|lia|lia].
Qed.

(** What the search for hook calls finds in a subtree, and in the
    statements of a block or the initialiser of a declarator below it,
    is counted by the [CallExpression] visitor of the complexity. *)
Lemma findHookCalls_bound n :
  length (omap hookOf (findHookCalls n)) ≤ countNodes isHookCallNode n
  ∧ length (omap hookOf (FunctionAnalysis.gather_over findHookCalls "body" (kids n)))
    ≤ countNodes isHookCallNode n
  ∧ length (omap hookOf (FunctionAnalysis.gather_at findHookCalls "init" (kids n)))
    ≤ countNodes isHookCallNode n.
Proof.
  induction n as [ty l a ks IH] using Node_induction.
  assert (Forall (λ kc, length (omap hookOf (findHookCalls kc.2))
                        ≤ countNodes isHookCallNode kc.2) ks) as Hq.
  { eapply Forall_impl; [exact IH|]. by intros kc (H & _). }
  assert (Forall (λ kc, length (omap hookOf
                                  (if isBlockStatement (Some kc.2)
                                   then FunctionAnalysis.gather_over findHookCalls
                                          "body" (kids kc.2)
                                   else findHookCalls kc.2))
                        ≤ countNodes isHookCallNode kc.2) ks) as Harrow.
  { eapply Forall_impl; [exact IH|]. intros kc (H1 & H2 & _).
    by destruct (isBlockStatement _). }
  assert (Forall (λ kc, length (omap hookOf
                                  (if isBlockStatement (Some kc.2)
                                   then FunctionAnalysis.gather_over findHookCalls
                                          "body" (kids kc.2)
                                   else []))
                        ≤ countNodes isHookCallNode kc.2) ks) as Hblock.
  { eapply Forall_impl; [exact IH|]. intros kc (H1 & H2 & _).
    destruct (isBlockStatement _); [done | simpl; lia]. }
  assert (Forall (λ kc, length (omap hookOf
                                  (FunctionAnalysis.gather_at findHookCalls "init"
                                     (kids kc.2)))
                        ≤ countNodes isHookCallNode kc.2) ks) as Hinit.
  { eapply Forall_impl; [exact IH|]. by intros kc (_ & _ & H). }
  pose proof (gather_over_bound findHookCalls _ "body" ks Hq) as B1.
  pose proof (gather_at_bound findHookCalls _ "body" ks Hq) as B2.
  pose proof (gather_at_bound findHookCalls _ "argument" ks Hq) as B3.
  pose proof (gather_at_bound findHookCalls _ "init" ks Hq) as B4.
  pose proof (gather_at_bound findHookCalls _ "expression" ks Hq) as B5.
  pose proof (gather_at_pair_bound findHookCalls _ "consequent" "alternate" ks
                ltac:(done) Hq) as B6.
  pose proof (gather_at_bound
                (λ b, if isBlockStatement (Some b)
                      then FunctionAnalysis.gather_over findHookCalls "body" (kids b)
                      else findHookCalls b)
                (countNodes isHookCallNode) "body" ks Harrow) as B7.
  pose proof (gather_at_bound
                (λ b, if isBlockStatement (Some b)
                      then FunctionAnalysis.gather_over findHookCalls "body" (kids b)
                      else [])
                (countNodes isHookCallNode) "body" ks Hblock) as B8.
  pose proof (gather_over_bound
                (λ declarator,
                   FunctionAnalysis.gather_at findHookCalls "init" (kids declarator))
                (countNodes isHookCallNode) "declarations" ks Hinit) as B9.
  cbn [countNodes kids].
  split; [|split; lia].
  assert (length (omap hookOf
                    (if isCallExpression (Some (mkNode ty l a ks))
                        && isIdentifier (get "callee" (mkNode ty l a ks))
                     then [mkNode ty l a ks] else []))
          ≤ (if isHookCallNode (mkNode ty l a ks) then 1 else 0)) as Hhead.
  { unfold isHookCallNode, isHookCall.
    destruct (isCallExpression _); [|simpl; lia].
    destruct (isIdentifier (get "callee" _)) eqn:Eid; [|simpl; lia].
    cbn [andb]. change (omap hookOf [mkNode ty l a ks])
      with (match hookOf (mkNode ty l a ks) with Some h => [h] | None => [] end).
    unfold hookOf.
    destruct (get "callee" (mkNode ty l a ks)) as [callee|]; [|simpl; lia].
    rewrite Eid. destruct (isReactHook (name_of callee)); simpl; lia. }
  change (findHookCalls (mkNode ty l a ks))
    with ((if isCallExpression (Some (mkNode ty l a ks))
              && isIdentifier (get "callee" (mkNode ty l a ks))
           then [mkNode ty l a ks] else [])
          ++ (if isBlockStatement (Some (mkNode ty l a ks)) then
                FunctionAnalysis.gather_over findHookCalls "body" ks
              else if isIfStatement (Some (mkNode ty l a ks)) then
                FunctionAnalysis.gather_at findHookCalls "consequent" ks
                ++ FunctionAnalysis.gather_at findHookCalls "alternate" ks
              else if isForStatement (Some (mkNode ty l a ks))
                      || isWhileStatement (Some (mkNode ty l a ks))
                      || isDoWhileStatement (Some (mkNode ty l a ks)) then
                FunctionAnalysis.gather_at findHookCalls "body" ks
              else if isReturnStatement (Some (mkNode ty l a ks))
                      && bool_decide (is_Some (get "argument" (mkNode ty l a ks))) then
                FunctionAnalysis.gather_at findHookCalls "argument" ks
              else if isConditionalExpression (Some (mkNode ty l a ks)) then
                FunctionAnalysis.gather_at findHookCalls "consequent" ks
                ++ FunctionAnalysis.gather_at findHookCalls "alternate" ks
              else if isArrowFunctionExpression (Some (mkNode ty l a ks)) then
                gather_arrow findHookCalls ks
              else if isFunctionExpression (Some (mkNode ty l a ks)) then
                gather_block findHookCalls ks
              else if isFunctionDeclaration (Some (mkNode ty l a ks)) then
                gather_block findHookCalls ks
              else if isVariableDeclaration (Some (mkNode ty l a ks)) then
                gather_inits findHookCalls ks
              else if isVariableDeclarator (Some (mkNode ty l a ks)) then
                FunctionAnalysis.gather_at findHookCalls "init" ks
              else if isExpressionStatement (Some (mkNode ty l a ks)) then
                FunctionAnalysis.gather_at findHookCalls "expression" ks
              else [])).
  rewrite omap_hookOf_app.
  unfold gather_arrow, gather_block, gather_inits.
  destruct (isBlockStatement _); [exact (Nat.add_le_mono _ _ _ _ Hhead B1)|].
  destruct (isIfStatement _); [exact (Nat.add_le_mono _ _ _ _ Hhead B6)|].
  destruct (_ || _); [exact (Nat.add_le_mono _ _ _ _ Hhead B2)|].
  destruct (isReturnStatement _ && _);
    [exact (Nat.add_le_mono _ _ _ _ Hhead B3)|].
  destruct (isConditionalExpression _); [exact (Nat.add_le_mono _ _ _ _ Hhead B6)|].
  destruct (isArrowFunctionExpression _); [exact (Nat.add_le_mono _ _ _ _ Hhead B7)|].
  destruct (isFunctionExpression _); [exact (Nat.add_le_mono _ _ _ _ Hhead B8)|].
  destruct (isFunctionDeclaration _); [exact (Nat.add_le_mono _ _ _ _ Hhead B8)|].
  destruct (isVariableDeclaration _); [exact (Nat.add_le_mono _ _ _ _ Hhead B9)|].
  destruct (isVariableDeclarator _); [exact (Nat.add_le_mono _ _ _ _ Hhead B4)|].
  destruct (isExpressionStatement _); [exact (Nat.add_le_mono _ _ _ _ Hhead B5)|].
  exact (Nat.add_le_mono _ _ _ _ Hhead (Nat.le_0_l _)).
Qed.

(** X22. A descriptor never lists more hooks than its complexity
    counts: the length of [hooks] is at most [hookCount]. *)
Theorem X22_hooks_are_counted ast filePath cs c :
  analyzeComponents ast filePath = Ok cs →
  c ∈ cs →
  length (hooks c) ≤ hookCount (complexity c).
Proof.
  intros Hrun Hc.
  pose proof (analyzeComponents_invariant
    (λ c, length (hooks c) ≤ hookCount (complexity c)) ast filePath cs) as Hall.
  rewrite Forall_forall in Hall. apply Hall; [|done|done].
  intros path ty c' _ Hc'.
  destruct (createComponentInfo_inv _ _ _ _ _ Hc')
    as (_ & _ & _ & _ & _ & _ & -> & _ & _ & ->).
  unfold calculateComplexity. cbn [hookCount].
  destruct (complexity_run (ComponentAnalyzer.traverseAST (node path))
              (mkComplexity 1 0 0 0 0 0 0 0 0 0)) as (_ & -> & _).
  unfold ComponentAnalyzer.traverseAST. rewrite countPaths_visit. simpl.
  unfold analyzeHooks.
  destruct (get "body" (node path)) as [body|] eqn:E; [|simpl; lia].
  destruct (findHookCalls_bound body) as [Hb _].
  pose proof (sum_kids_lookup (countNodes isHookCallNode) "body" _ body E) as Hs.
  destruct (node path) as [ty' l a ks]. cbn [countNodes kids] in *. lia.
Qed.

Lemma X22_witness :
  ∃ cs c,
    analyzeComponents (Samples.file (Samples.program [Samples.counterComponent]))
      "Counter.jsx" = Ok cs
    ∧ cs !! 0 = Some c
    ∧ length (hooks c) = 1
    ∧ length (hooks c) ≤ hookCount (complexity c).
Proof.
  destruct (analyzeComponents
              (Samples.file (Samples.program [Samples.counterComponent]))
              "Counter.jsx") as [cs|] eqn:Hrun;
    [|revert Hrun; vm_compute; discriminate].
  assert (∃ c, cs !! 0 = Some c ∧ length (hooks c) = 1) as (c & H0 & Hl).
  { revert Hrun. vm_compute. intros [= <-]. eexists. split; reflexivity. }
  exists cs, c. split; [done|]. split; [done|]. split; [done|].
  apply (X22_hooks_are_counted _ _ cs c Hrun).
  apply list_elem_of_lookup. eauto.
Defined.

End ComponentHookCount.
